(** * git-flow-action: the release handler, the feature predicate and the
      version manager, embedded in Rocq.

    Sources embedded here:
    - [src/modules/version-manager/index.ts]: [VersionManagerService] and the
      [Release] handler;
    - [src/modules/git-flow/handlers/feature.ts]: the [Feature] handler;
    - the [GitHub] gateway interface, whose methods are the external calls,
      and [GitHubService], the class behind it.

    Strings are JavaScript strings whose code units are below 256: a Rocq
    [string] is read as the sequence of its code units.  The one place
    where a larger code unit changes what the code does is [btoa] in
    [GitHubService.updateFile], whose content is therefore a list of code
    units of any size.  Every call that
    leaves the program (gateway, file system, child process, log) is an
    event of a trace; what the outside answers is given by a [World], whose
    answers may depend on everything that happened before. *)

From Stdlib Require Import String Ascii List Arith Bool Lia DecimalString.
From Stdlib Require Import ZArith ZifyNat.
Import ListNotations.

Local Open Scope string_scope.
Local Open Scope list_scope.

Infix "+++" := String.append (right associativity, at level 60).

(* ================================================================== *)
(** * JavaScript strings *)
(* ================================================================== *)

Module JsString.

Definition LF : string := String (ascii_of_nat 10) "".

Definition code (c : ascii) : nat := nat_of_ascii c.

(** WhiteSpace and LineTerminator code units below 256:
    TAB, LF, VT, FF, CR, SP and NBSP. *)
Definition is_white_space (c : ascii) : bool :=
  ((9 <=? code c) && (code c <=? 13) || (code c =? 32) || (code c =? 160))%nat.

Definition is_line_terminator (c : ascii) : bool :=
  ((code c =? 10) || (code c =? 13))%nat.

Fixpoint take (n : nat) (s : string) : string :=
  match n, s with
  | S k, String c s' => String c (take k s')
  | _, _ => ""
  end.

Fixpoint drop (n : nat) (s : string) : string :=
  match n, s with
  | S k, String _ s' => drop k s'
  | _, _ => s
  end.

(** [s.startsWith(p)] *)
Definition startsWith (p s : string) : bool := String.prefix p s.

(** [s.includes(p)] *)
Fixpoint includes (p s : string) : bool :=
  String.prefix p s ||
  match s with
  | "" => false
  | String _ s' => includes p s'
  end.

(** [s.endsWith(p)] *)
Fixpoint endsWith (p s : string) : bool :=
  String.eqb p s ||
  match s with
  | "" => false
  | String _ s' => endsWith p s'
  end.

Fixpoint trimStart (s : string) : string :=
  match s with
  | "" => ""
  | String c s' => if is_white_space c then trimStart s' else s
  end.

Fixpoint trimEnd (s : string) : string :=
  match s with
  | "" => ""
  | String c s' =>
      match trimEnd s' with
      | "" => if is_white_space c then "" else String c ""
      | t => String c t
      end
  end.

(** [s.trim()] *)
Definition trim (s : string) : string := trimEnd (trimStart s).

(** [s.substring(0, n)] *)
Definition substring0 (n : nat) (s : string) : string := take n s.

(** [l.join(sep)] *)
Fixpoint join (sep : string) (l : list string) : string :=
  match l with
  | [] => ""
  | [x] => x
  | x :: rest => x +++ sep +++ join sep rest
  end.

(** [s.split(sep)] for a non-empty separator: [skip] counts the code units
    of a separator occurrence that are still to be passed over, [cur] is
    the piece being collected. *)
Fixpoint split_go (sep : string) (s : string) (skip : nat) (cur : string)
  : list string :=
  match s with
  | "" => [cur]
  | String c s' =>
      match skip with
      | S k => split_go sep s' k cur
      | 0 =>
          if String.prefix sep s
          then cur :: split_go sep s' (String.length sep - 1) ""
          else split_go sep s' 0 (cur +++ String c "")
      end
  end.

Fixpoint chars (s : string) : list string :=
  match s with
  | "" => []
  | String c s' => String c "" :: chars s'
  end.

(** [s.split(sep)]; an empty separator splits into code units. *)
Definition split (sep s : string) : list string :=
  match sep with
  | "" => chars s
  | _ => split_go sep s 0 ""
  end.

(** The expansion of a replacement template ([GetSubstitution]) for a
    pattern without capture groups: [$$], [$&], [$`] and [$'] are
    expanded, any other text is literal. *)
Fixpoint getSubstitution (matched before after : string) (repl : string)
  : string :=
  match repl with
  | "" => ""
  | String "$" (String "$" r) =>
      String "$" (getSubstitution matched before after r)
  | String "$" (String "&" r) =>
      matched +++ getSubstitution matched before after r
  | String "$" (String "`" r) =>
      before +++ getSubstitution matched before after r
  | String "$" (String "'" r) =>
      after +++ getSubstitution matched before after r
  | String c r => String c (getSubstitution matched before after r)
  end.

(** [s.replace(pat, repl)] with a string pattern: the first occurrence. *)
Fixpoint replace_str_go (pat repl : string) (before s : string) : string :=
  if String.prefix pat s
  then getSubstitution pat before (drop (String.length pat) s) repl
         +++ drop (String.length pat) s
  else match s with
       | "" => ""
       | String c s' =>
           String c (replace_str_go pat repl (before +++ String c "") s')
       end.

Definition replace_str (pat repl s : string) : string :=
  replace_str_go pat repl "" s.

(** [String(n)] for a non-negative integer. *)
Definition of_nat (n : nat) : string :=
  NilZero.string_of_uint (Nat.to_uint n).

End JsString.

Import JsString.

(* ================================================================== *)
(** * Regular expressions *)
(* ================================================================== *)

(** The fragment of the pattern language that is interpreted here:
    pattern characters, [.], [^], [$], identity, control and class escapes,
    character classes with ranges, capturing and [(?:] groups, alternation
    and the greedy quantifiers [*], [+], [?].  The matcher is the
    backtracking matcher of the language definition, with continuations.
    A pattern that uses anything else (braces, lazy quantifiers, look-around,
    back references, word boundaries, numeric escapes) is [POutside]: what
    the engine of the platform does with it is given by the [Host]. *)

Module JsRegExp.

Definition range : Type := ascii * ascii.

Inductive regex : Type :=
| REmpty
| RChar (c : ascii)
| RSet (neg : bool) (rs : list range)
| RBol
| REol
| RSeq (r1 r2 : regex)
| RAlt (r1 r2 : regex)
| RStar (r : regex)
| RPlus (r : regex)
| ROpt (r : regex)
| RGroup (n : nat) (r : regex).

(** ** Matching *)

Definition in_range (c : ascii) (r : range) : bool :=
  ((code (fst r) <=? code c) && (code c <=? code (snd r)))%nat.

Definition in_set (neg : bool) (rs : list range) (c : ascii) : bool :=
  xorb neg (existsb (in_range c) rs).

Definition captures : Type := list (nat * string).

Fixpoint capture (n : nat) (cs : captures) : option string :=
  match cs with
  | [] => None
  | (k, v) :: rest => if (k =? n)%nat then Some v else capture n rest
  end.

(** Position of the matcher: the code unit before it, the input that is
    left, and the captures made so far. *)
Record mstate : Type := MState {
  ms_prev : option ascii;
  ms_rest : string;
  ms_caps : captures
}.

Fixpoint groups (r : regex) : list nat :=
  match r with
  | RSeq a b | RAlt a b => groups a ++ groups b
  | RStar a | RPlus a | ROpt a => groups a
  | RGroup n a => n :: groups a
  | _ => []
  end.

(** Entering an iteration of a quantified atom forgets the captures of the
    groups inside it. *)
Definition forget (gs : list nat) (x : mstate) : mstate :=
  MState (ms_prev x) (ms_rest x)
         (filter (fun kv => negb (existsb (Nat.eqb (fst kv)) gs)) (ms_caps x)).

Definition at_bol (multiline : bool) (x : mstate) : bool :=
  match ms_prev x with
  | None => true
  | Some c => multiline && is_line_terminator c
  end.

Definition at_eol (multiline : bool) (x : mstate) : bool :=
  match ms_rest x with
  | "" => true
  | String c _ => multiline && is_line_terminator c
  end.

(** What was consumed between two positions of the same input. *)
Definition consumed (x y : mstate) : string :=
  take (String.length (ms_rest x) - String.length (ms_rest y)) (ms_rest x).

Definition progress (x y : mstate) : bool :=
  (String.length (ms_rest y) <? String.length (ms_rest x))%nat.

(** A greedy repetition of [body] with no lower bound left: iterate as
    often as possible, then go on with [k]; an iteration that consumes
    nothing is refused. *)
Fixpoint repeat_greedy
  (body : mstate -> (mstate -> option mstate) -> option mstate)
  (k : mstate -> option mstate) (fuel : nat) (x : mstate)
  {struct fuel} : option mstate :=
  match fuel with
  | 0 => k x
  | S fuel' =>
      match body x (fun y => if progress x y
                             then repeat_greedy body k fuel' y
                             else None)
      with
      | Some z => Some z
      | None => k x
      end
  end.

Section Matcher.
Variable multiline : bool.

Fixpoint rmatch (r : regex) (x : mstate) (k : mstate -> option mstate)
  {struct r} : option mstate :=
  match r with
  | REmpty => k x
  | RChar c =>
      match ms_rest x with
      | String d s' =>
          if Ascii.eqb c d then k (MState (Some d) s' (ms_caps x)) else None
      | "" => None
      end
  | RSet neg rs =>
      match ms_rest x with
      | String d s' =>
          if in_set neg rs d then k (MState (Some d) s' (ms_caps x))
          else None
      | "" => None
      end
  | RBol => if at_bol multiline x then k x else None
  | REol => if at_eol multiline x then k x else None
  | RSeq a b => rmatch a x (fun y => rmatch b y k)
  | RAlt a b =>
      match rmatch a x k with
      | Some z => Some z
      | None => rmatch b x k
      end
  | RStar a =>
      repeat_greedy (fun y => rmatch a (forget (groups a) y)) k
        (S (String.length (ms_rest x))) x
  | RPlus a =>
      rmatch a (forget (groups a) x) (fun x1 =>
        repeat_greedy (fun y => rmatch a (forget (groups a) y)) k
          (S (String.length (ms_rest x1))) x1)
  | ROpt a =>
      match rmatch a (forget (groups a) x)
              (fun y => if progress x y then k y else None)
      with
      | Some z => Some z
      | None => k x
      end
  | RGroup n a =>
      rmatch a x (fun y =>
        k (MState (ms_prev y) (ms_rest y)
                  ((n, consumed x y) :: ms_caps y)))
  end.

(** One attempt at the current position. *)
Definition attempt (r : regex) (prev : option ascii) (s : string)
  : option mstate :=
  rmatch r (MState prev s []) (fun y => Some y).

(** [RegExpBuiltinExec] without the sticky flag: the first position, from
    the current one on, at which an attempt succeeds.  The result is the
    number of code units skipped, the input at the match and the final
    matcher state. *)
Fixpoint exec_from (r : regex) (prev : option ascii) (s : string)
  (skipped : nat) : option (nat * string * mstate) :=
  match attempt r prev s with
  | Some y => Some (skipped, s, y)
  | None =>
      match s with
      | "" => None
      | String c s' => exec_from r (Some c) s' (S skipped)
      end
  end.

(** [s.replace(re, repl)] for a regular expression with the global flag
    and no capture group.  [before] is the input already passed,
    [skip] the number of code units of the last match still to pass. *)
Fixpoint replace_global_go (r : regex) (repl : string)
  (before : string) (prev : option ascii) (s : string) (skip : nat)
  : string :=
  match s with
  | "" =>
      match skip with
      | S _ => ""
      | 0 =>
          match attempt r prev "" with
          | Some _ => getSubstitution "" before "" repl
          | None => ""
          end
      end
  | String c s' =>
      match skip with
      | S k =>
          replace_global_go r repl (before +++ String c "") (Some c) s' k
      | 0 =>
          match attempt r prev s with
          | None =>
              String c (replace_global_go r repl (before +++ String c "")
                          (Some c) s' 0)
          | Some y =>
              let n := String.length s - String.length (ms_rest y) in
              getSubstitution (take n s) before (ms_rest y) repl +++
              match n with
              | 0 =>
                  String c (replace_global_go r repl
                              (before +++ String c "") (Some c) s' 0)
              | S k =>
                  replace_global_go r repl (before +++ String c "")
                    (Some c) s' k
              end
          end
      end
  end.

Definition replace_global (r : regex) (repl s : string) : string :=
  replace_global_go r repl "" None s 0.

(** [s.replace(re, repl)] without the global flag and without capture
    group: the first match only. *)
Definition replace_first (r : regex) (repl s : string) : string :=
  match exec_from r None s 0 with
  | None => s
  | Some (i, at_match, y) =>
      let n := String.length at_match - String.length (ms_rest y) in
      take i s +++ getSubstitution (take n at_match) (take i s) (ms_rest y) repl
             +++ ms_rest y
  end.

End Matcher.

(** [s.match(re)] without the global flag: [None] is [null], otherwise
    the captures of the first match. *)
Definition match_ (multiline : bool) (r : regex) (s : string)
  : option captures :=
  match exec_from multiline r None s 0 with
  | None => None
  | Some (_, _, y) => Some (ms_caps y)
  end.

(** ** Parsing a pattern *)

Inductive presult (A : Type) : Type :=
| POk (a : A)
| PSyntax
| POutside.
Arguments POk {A} a.
Arguments PSyntax {A}.
Arguments POutside {A}.

Definition pbind {A B : Type} (m : presult A) (f : A -> presult B)
  : presult B :=
  match m with
  | POk a => f a
  | PSyntax => PSyntax
  | POutside => POutside
  end.

Definition ch (n : nat) : ascii := ascii_of_nat n.

Definition digit_ranges : list range := [("0", "9")]%char.
Definition space_ranges : list range := [(ch 9, ch 13); (ch 32, ch 32); (ch 160, ch 160)].
Definition word_ranges : list range :=
  [("0", "9"); ("A", "Z"); ("_", "_"); ("a", "z")]%char.
Definition dot : regex := RSet true [(ch 10, ch 10); (ch 13, ch 13)].

Definition is_alnum (c : ascii) : bool :=
  existsb (in_range c) [("0", "9"); ("A", "Z"); ("a", "z")]%char.

(** The atom after a backslash; [None] for the escapes left to the host. *)
Definition escape_atom (e : ascii) : option regex :=
  match e with
  | "d" => Some (RSet false digit_ranges)
  | "D" => Some (RSet true digit_ranges)
  | "s" => Some (RSet false space_ranges)
  | "S" => Some (RSet true space_ranges)
  | "w" => Some (RSet false word_ranges)
  | "W" => Some (RSet true word_ranges)
  | "t" => Some (RChar (ch 9))
  | "n" => Some (RChar (ch 10))
  | "v" => Some (RChar (ch 11))
  | "f" => Some (RChar (ch 12))
  | "r" => Some (RChar (ch 13))
  | _ => if is_alnum e then None else Some (RChar e)
  end%char.

Inductive class_atom : Type :=
| CAChar (c : ascii)
| CASet (rs : list range).

Definition class_ranges (a : class_atom) : list range :=
  match a with
  | CAChar c => [(c, c)]
  | CASet rs => rs
  end.

Definition parse_class_atom (s : string) : presult (class_atom * string) :=
  match s with
  | "" => PSyntax
  | String "\" "" => PSyntax
  | String "\" (String e rest) =>
      match escape_atom e with
      | Some (RChar c) => POk (CAChar c, rest)
      | Some (RSet false rs) => POk (CASet rs, rest)
      | _ => POutside
      end
  | String c rest => POk (CAChar c, rest)
  end.

(** The members of a class up to the closing bracket. *)
Fixpoint class_items (fuel : nat) (s : string) (acc : list range)
  : presult (list range * string) :=
  match fuel with
  | 0 => POutside
  | S f =>
      match s with
      | "" => PSyntax
      | String "]" rest => POk (acc, rest)
      | _ =>
          pbind (parse_class_atom s) (fun '(a, s1) =>
            match s1 with
            | String "-" "" => PSyntax
            | String "-" (String "]" _) =>
                class_items f s1 (acc ++ class_ranges a)
            | String "-" s2 =>
                pbind (parse_class_atom s2) (fun '(b, s3) =>
                  match a, b with
                  | CAChar lo, CAChar hi =>
                      if (code lo <=? code hi)%nat
                      then class_items f s3 (acc ++ [(lo, hi)])
                      else PSyntax
                  | _, _ => POutside
                  end)
            | _ => class_items f s1 (acc ++ class_ranges a)
            end)
      end
  end.

(** After the opening bracket. *)
Definition parse_class (s : string) : presult (regex * string) :=
  let '(neg, s1) :=
    match s with
    | String "^" s1 => (true, s1)
    | _ => (false, s)
    end in
  pbind (class_items (S (String.length s1)) s1 [])
        (fun '(rs, rest) => POk (RSet neg rs, rest)).

Definition greedy_only (r : regex) (s : string) : presult (regex * string) :=
  match s with
  | String "?" _ => POutside
  | _ => POk (r, s)
  end.

(** The quantifier, if any, that follows an atom. *)
Definition quantifier (atom : regex) (s : string) : presult (regex * string) :=
  match s with
  | String "*" s' => greedy_only (RStar atom) s'
  | String "+" s' => greedy_only (RPlus atom) s'
  | String "?" s' => greedy_only (ROpt atom) s'
  | String "{" _ => POutside
  | _ => POk (atom, s)
  end.

(** An assertion takes no quantifier. *)
Definition after_assertion (s : string) : presult unit :=
  match s with
  | String "*" _ | String "+" _ | String "?" _ => PSyntax
  | String "{" _ => POutside
  | _ => POk tt
  end.

Definition alt_of (alts : option regex) (seq : regex) : regex :=
  match alts with
  | None => seq
  | Some a => RAlt a seq
  end.

(** A disjunction, up to an unmatched closing parenthesis or the end of the
    pattern: [seq] is the alternative being read, [alts] the alternatives
    before it, [n] the number of capturing groups opened so far.  The
    result carries the input that is left and the new group count. *)
Fixpoint parse_disjunction (fuel : nat) (s : string) (n : nat)
  (seq : regex) (alts : option regex) {struct fuel}
  : presult (regex * string * nat) :=
  match fuel with
  | 0 => POutside
  | S f =>
      let after_atom (a : regex) (rest : string) (n' : nat) :=
        pbind (quantifier a rest) (fun '(q, rest') =>
          parse_disjunction f rest' n' (RSeq seq q) alts) in
      let assertion (a : regex) (rest : string) :=
        pbind (after_assertion rest) (fun _ =>
          parse_disjunction f rest n (RSeq seq a) alts) in
      match s with
      | "" => POk (alt_of alts seq, "", n)
      | String ")" _ => POk (alt_of alts seq, s, n)
      | String "|" s' =>
          parse_disjunction f s' n REmpty (Some (alt_of alts seq))
      | String "^" s' => assertion RBol s'
      | String "$" s' => assertion REol s'
      | String "*" _ | String "+" _ | String "?" _ => PSyntax
      | String "{" _ => POutside
      | String "(" (String "?" (String ":" s2)) =>
          pbind (parse_disjunction f s2 n REmpty None) (fun '(r, rest, n') =>
            match rest with
            | String ")" rest' => after_atom r rest' n'
            | _ => PSyntax
            end)
      | String "(" (String "?" _) => POutside
      | String "(" s' =>
          pbind (parse_disjunction f s' (S n) REmpty None)
            (fun '(r, rest, n') =>
              match rest with
              | String ")" rest' => after_atom (RGroup (S n) r) rest' n'
              | _ => PSyntax
              end)
      | String "[" s' =>
          pbind (parse_class s') (fun '(set, rest) => after_atom set rest n)
      | String "\" "" => PSyntax
      | String "\" (String e rest) =>
          match escape_atom e with
          | Some a => after_atom a rest n
          | None => POutside
          end
      | String "." s' => after_atom dot s' n
      | String c s' => after_atom (RChar c) s' n
      end
  end.

(** [new RegExp(pattern)] on the interpreted fragment. *)
Definition compile (pattern : string) : presult regex :=
  match parse_disjunction (S (String.length pattern)) pattern 0 REmpty None with
  | POk (r, "", _) => POk r
  | POk (_, String _ _, _) => PSyntax
  | PSyntax => PSyntax
  | POutside => POutside
  end.

End JsRegExp.

Import JsRegExp.

(* ================================================================== *)
(** * Values, errors and the host *)
(* ================================================================== *)

(** A thrown [Error] object: its [name] and its [message]. *)
Record error : Type := MkError {
  err_name : string;
  err_message : string
}.

(** [new Error(msg)] *)
Definition Error (msg : string) : error := MkError "Error" msg.

(** [`${error}`] *)
Definition error_to_string (e : error) : string :=
  match err_name e, err_message e with
  | "", m => m
  | n, "" => n
  | n, m => n +++ ": " +++ m
  end.

(** A value of static type [string] that may be [undefined] at run time:
    the first capture of a match is such a value. *)
Inductive jsstring : Type :=
| JStr (s : string)
| JUndefined.

Coercion JStr : string >-> jsstring.

(** [`${v}`] *)
Definition show (v : jsstring) : string :=
  match v with
  | JStr s => s
  | JUndefined => "undefined"
  end.

(** The pictographs of the message templates lie outside the modelled code
    units; the host says how each one is spelt. *)
Inductive glyph : Type := GSee | GRocket | GPackage | GWrench | GFound | GMissing.

(** The pure services of the platform the program runs on. *)
Record Host : Type := {
  (** the [SyntaxError] raised by [new RegExp(p)] for an ill-formed [p] *)
  h_regexp_syntax : string -> error;
  (** [s.match(new RegExp(p))] then [[1]], for a pattern [p] outside the
      interpreted fragment: raises, or is [null] ([None]), or gives the
      first capture *)
  h_regexp_outside : string -> string -> error + option jsstring;
  (** [JSON.parse(c)], [.version = v], [JSON.stringify(_, null, 2)] *)
  h_json_set_version : string -> jsstring -> error + string;
  (** [JSON.parse(c).name], [None] when it is falsy *)
  h_json_name : string -> error + option string;
  (** [process.cwd()] *)
  h_cwd : string;
  (** [path.join(...)] *)
  h_path_join : list string -> string;
  (** [path.basename(p)] *)
  h_path_basename : string -> string;
  h_glyph : glyph -> string
}.

Definition DQ : string := String (ascii_of_nat 34) "".

(* ================================================================== *)
(** * VersionManagerService *)
(* ================================================================== *)

Module VersionManagerService.

(** The pattern built at lines 9-11. *)
Definition versionRegex (releasePrefix : string) : string :=
  "^" +++ replace_str "/" "\/" releasePrefix +++ "([0-9]+\.[0-9]+\.[0-9]+)$".

Definition no_match (branchName : string) : error :=
  Error ("Branch name " +++ branchName +++ " does not match release pattern").

(** [extractVersionFromBranch(branchName, releasePrefix)] *)
Definition extractVersionFromBranch (h : Host)
  (branchName releasePrefix : string) : error + jsstring :=
  let pattern := versionRegex releasePrefix in
  match compile pattern with
  | PSyntax => inl (h_regexp_syntax h pattern)
  | POutside =>
      match h_regexp_outside h pattern branchName with
      | inl e => inl e
      | inr None => inl (no_match branchName)
      | inr (Some v) => inr v
      end
  | POk r =>
      match match_ false r branchName with
      | None => inl (no_match branchName)
      | Some caps =>
          inr (match capture 1 caps with
               | Some v => JStr v
               | None => JUndefined
               end)
      end
  end.

(** [updatePackageJsonVersion(content, version)] *)
Definition updatePackageJsonVersion (h : Host) (content : string)
  (version : jsstring) : error + string :=
  match h_json_set_version h content version with
  | inr s => inr s
  | inl e =>
      inl (Error ("Failed to update package.json version: "
                    +++ error_to_string e))
  end.

(** The literal [/^version:\s*.*/gm] of line 34. *)
Definition mtaVersionRegex : regex :=
  Eval vm_compute in
    match compile "^version:\s*.*" with
    | POk r => r
    | _ => REmpty
    end.

(** [updateMtaYamlVersion(content, version)]; nothing in its [try] block
    can raise. *)
Definition updateMtaYamlVersion (content : string) (version : jsstring)
  : string :=
  replace_global true mtaVersionRegex ("version: " +++ show version) content.

End VersionManagerService.

Import VersionManagerService.

(* ================================================================== *)
(** * The gateway, the outside world and the trace *)
(* ================================================================== *)

Record Branches : Type := {
  current : string;
  target : string;
  main : string;
  development : string
}.

Record GitFlowBranchesPrefixes : Type := {
  bugfix : string;
  feature : string;
  hotfix : string;
  release : string;
  support : string;
  tag : string
}.

(** An element of [pulls.list]. *)
Record PullRequest : Type := {
  pr_number : nat;
  pr_title : string;
  pr_body : option string;
  pr_html_url : string
}.

(** The data of [pulls.get]. *)
Record PullRequestDetail : Type := {
  prd_title : string;
  prd_body : option string;
  prd_changed_files : nat;
  prd_commits : nat
}.

(** The data of [repos.createRelease]. *)
Record ReleaseData : Type := {
  rel_id : nat;
  rel_html_url : string
}.

(** One call that leaves the program, with what came back. *)
Inductive event : Type :=
| EInfo (msg : string)
| EGetBranches (r : error + Branches)
| EGetPrefixes (r : GitFlowBranchesPrefixes)
| EMerge (fromBranch toBranch : string) (r : error + string)
| EDelete (branch : string) (r : error + unit)
| ECreateTag (tagName sha : string) (r : error + unit)
| EGetFileContent (filePath branch : string) (r : error + string)
| EUpdateFile (filePath content message branch sha : string) (r : error + unit)
| EGetContent (filePath ref : string) (r : error + string)
| EPullsList (head : string) (r : error + list PullRequest)
| EPullsGet (pull_number : nat) (r : error + PullRequestDetail)
| ECreateRelease (tag_name name body : string) (r : error + ReleaseData)
| EUploadReleaseAsset (release_id : nat) (name data : string) (r : error + unit)
| EExistsSync (p : string) (r : bool)
| EReadFileSync (p : string) (r : error + string)
| EReaddirSync (p : string) (r : error + list string)
| ERenameSync (oldPath newPath : string) (r : error + unit)
| EWriteFileSync (p data : string) (r : error + unit)
| EExecSync (command : string) (r : error + unit).

Definition trace : Type := list event.

(** What the outside answers to each call, given all that happened so far.
    [w_getContent] is the [sha] of [repos.getContent]. *)
Record World : Type := {
  w_host : Host;
  w_owner : string;
  w_repo : string;
  w_getBranches : trace -> error + Branches;
  w_getPrefixes : trace -> GitFlowBranchesPrefixes;
  w_merge : trace -> string -> string -> error + string;
  w_delete : trace -> string -> error + unit;
  w_createTag : trace -> string -> string -> error + unit;
  w_getFileContent : trace -> string -> string -> error + string;
  w_updateFile :
    trace -> string -> string -> string -> string -> string -> error + unit;
  w_getContent : trace -> string -> string -> error + string;
  w_pullsList : trace -> string -> error + list PullRequest;
  w_pullsGet : trace -> nat -> error + PullRequestDetail;
  w_createRelease : trace -> string -> string -> string -> error + ReleaseData;
  w_uploadReleaseAsset : trace -> nat -> string -> string -> error + unit;
  w_existsSync : trace -> string -> bool;
  w_readFileSync : trace -> string -> error + string;
  w_readdirSync : trace -> string -> error + list string;
  w_renameSync : trace -> string -> string -> error + unit;
  w_writeFileSync : trace -> string -> string -> error + unit;
  w_execSync : trace -> string -> error + unit
}.

(** The state of a run: the trace so far and the handler's
    [releaseFilePath] field. *)
Record state : Type := MkState {
  st_trace : trace;
  st_releaseFilePath : string
}.

Definition initial : state := MkState [] "".

(** Computations that read and extend the state and may raise. *)
Definition M (A : Type) : Type := state -> state * (error + A).

Definition ret {A : Type} (a : A) : M A := fun s => (s, inr a).

Definition throw {A : Type} (e : error) : M A := fun s => (s, inl e).

Definition lift {A : Type} (r : error + A) : M A := fun s => (s, r).

Definition bind {A B : Type} (m : M A) (f : A -> M B) : M B :=
  fun s =>
    match m s with
    | (s', inr a) => f a s'
    | (s', inl e) => (s', inl e)
    end.

(** [try { m } catch (e) { h e }]: what [m] did before raising stays done. *)
Definition try_catch {A : Type} (m : M A) (h : error -> M A) : M A :=
  fun s =>
    match m s with
    | (s', inl e) => h e s'
    | (s', inr a) => (s', inr a)
    end.

Notation "x <- m ;; k" := (bind m (fun x => k))
  (at level 61, m at next level, right associativity).
Notation "m ;; k" := (bind m (fun _ => k))
  (at level 61, right associativity).

Definition record (e : event) (s : state) : state :=
  MkState (st_trace s ++ [e]) (st_releaseFilePath s).

(** A call that may raise. *)
Definition call {A : Type} (answer : trace -> error + A)
  (ev : error + A -> event) : M A :=
  fun s => let r := answer (st_trace s) in (record (ev r) s, r).

(** A call that cannot raise. *)
Definition call_total {A : Type} (answer : trace -> A) (ev : A -> event)
  : M A :=
  fun s => let r := answer (st_trace s) in (record (ev r) s, inr r).

Definition get_releaseFilePath : M string :=
  fun s => (s, inr (st_releaseFilePath s)).

Definition set_releaseFilePath (p : string) : M unit :=
  fun s => (MkState (st_trace s) p, inr tt).

(** ** The calls *)

(** The methods of the [GitHub] gateway, the calls made on the Octokit
    instance ([repos], [pulls]), on [fs] and on [child_process].  Getting
    hold of the instance and of the context is not a call: the gateway has
    connected when the branches were read. *)

Section Calls.
Context (w : World).

(** [this.github.getCore().info(msg)]: a line of the log; logging does not
    raise. *)
Definition info (msg : string) : M unit :=
  fun s => (record (EInfo msg) s, inr tt).

Definition getBranches : M Branches :=
  call (w_getBranches w) EGetBranches.

Definition getPrefixes : M GitFlowBranchesPrefixes :=
  call_total (w_getPrefixes w) EGetPrefixes.

Definition github_merge (fromBranch toBranch : string) : M string :=
  call (fun t => w_merge w t fromBranch toBranch) (EMerge fromBranch toBranch).

Definition github_delete (currentBranch : string) : M unit :=
  call (fun t => w_delete w t currentBranch) (EDelete currentBranch).

Definition github_createTag (tagName sha : string) : M unit :=
  call (fun t => w_createTag w t tagName sha) (ECreateTag tagName sha).

Definition getFileContent (filePath branch : string) : M string :=
  call (fun t => w_getFileContent w t filePath branch)
       (EGetFileContent filePath branch).

Definition updateFile (filePath content message branch sha : string)
  : M unit :=
  call (fun t => w_updateFile w t filePath content message branch sha)
       (EUpdateFile filePath content message branch sha).

Definition repos_getContent (filePath ref : string) : M string :=
  call (fun t => w_getContent w t filePath ref) (EGetContent filePath ref).

Definition pulls_list (head : string) : M (list PullRequest) :=
  call (fun t => w_pullsList w t head) (EPullsList head).

Definition pulls_get (pull_number : nat) : M PullRequestDetail :=
  call (fun t => w_pullsGet w t pull_number) (EPullsGet pull_number).

Definition repos_createRelease (tag_name name body : string)
  : M ReleaseData :=
  call (fun t => w_createRelease w t tag_name name body)
       (ECreateRelease tag_name name body).

Definition repos_uploadReleaseAsset (release_id : nat) (name data : string)
  : M unit :=
  call (fun t => w_uploadReleaseAsset w t release_id name data)
       (EUploadReleaseAsset release_id name data).

Definition existsSync (p : string) : M bool :=
  call_total (fun t => w_existsSync w t p) (EExistsSync p).

Definition readFileSync (p : string) : M string :=
  call (fun t => w_readFileSync w t p) (EReadFileSync p).

Definition readdirSync (p : string) : M (list string) :=
  call (fun t => w_readdirSync w t p) (EReaddirSync p).

Definition renameSync (oldPath newPath : string) : M unit :=
  call (fun t => w_renameSync w t oldPath newPath)
       (ERenameSync oldPath newPath).

Definition writeFileSync (p data : string) : M unit :=
  call (fun t => w_writeFileSync w t p data) (EWriteFileSync p data).

Definition execSync (command : string) : M unit :=
  call (fun t => w_execSync w t command) (EExecSync command).

(** [path.join(process.cwd(), ...)] *)
Definition in_cwd (segments : list string) : string :=
  h_path_join (w_host w) (h_cwd (w_host w) :: segments).

End Calls.

(* ================================================================== *)
(** * The feature handler *)
(* ================================================================== *)

Module Feature.
Section Handler.
Context (w : World).

(** [Feature.test()], lines 11-18 *)
Definition test : M bool :=
  branches <- getBranches w ;;
  prefixes <- getPrefixes w ;;
  let baseBranchIsFeature :=
    includes (feature prefixes) (current branches) in
  let targetBranchIsDevelopment :=
    String.eqb (target branches) "development" in
  let targetBranchIsQuality := String.eqb (target branches) "quality" in
  ret (baseBranchIsFeature
       && (targetBranchIsDevelopment || targetBranchIsQuality)).

(** [Feature.handle()], lines 20-27 *)
Definition handle : M string :=
  info "FEATURE HANDLER" ;;
  branches <- getBranches w ;;
  sha <- github_merge w (current branches) (development branches) ;;
  github_delete w (current branches) ;;
  ret sha.
End Handler.
End Feature.

(* ================================================================== *)
(** * The release handler *)
(* ================================================================== *)

Module Release.

(** What [getPRInfo] returns. *)
Record PRInfo : Type := {
  body : string;
  url : string
}.

(** [a || b] on strings: the empty string is falsy. *)
Definition or_else (a b : string) : string :=
  match a with
  | "" => b
  | _ => a
  end.

(** [a || b] where [a] may be [null]. *)
Definition opt_or_else (a : option string) (b : string) : string :=
  match a with
  | Some x => or_else x b
  | None => b
  end.

(** [n || fallback] in a template: zero is falsy. *)
Definition count_or (n : nat) (fallback : string) : string :=
  match n with
  | 0 => fallback
  | _ => of_nat n
  end.

(** [getTagName(currentBranch, releasePrefix, tagPrefix)], lines 129-132 *)
Definition getTagName (currentBranch releasePrefix tagPrefix : string)
  : string :=
  let branchName := join "" (split releasePrefix currentBranch) in
  tagPrefix +++ branchName.

(** [lines.findIndex((line, index) => index > 0 && line.trim() !== ''
    && !line.startsWith('#'))], line 373; [None] is [-1]. *)
Fixpoint findHeaderEnd (lines : list string) (index : nat) : option nat :=
  match lines with
  | [] => None
  | line :: rest =>
      if (0 <? index)%nat
         && negb (String.eqb (trim line) "")
         && negb (startsWith "#" line)
      then Some index
      else findHeaderEnd rest (S index)
  end.

(** The text written to the changelog, lines 369-388. *)
Definition newContent (existingContent newEntry : string) : string :=
  if includes "# Changelog" existingContent then
    let lines := split LF existingContent in
    let headerEndIndex := findHeaderEnd lines 0 in
    let cut :=
      match headerEndIndex with
      | Some i => if (0 <? i)%nat then i else 4
      | None => 4
      end in
    let header := join LF (firstn cut lines) in
    let existingEntries := join LF (skipn cut lines) in
    header +++ LF +++ LF +++ newEntry +++ existingEntries
  else
    "# Changelog" +++ LF +++ LF +++
    "All notable changes to this project will be documented in this file."
    +++ LF +++ LF +++ newEntry +++ existingContent.

(** The literal [/^release\//] of line 497. *)
Definition releaseHeadRegex : regex :=
  Eval vm_compute in
    match compile "^release\/" with
    | POk r => r
    | _ => REmpty
    end.

Section Handler.
Context (w : World).

Let host : Host := w_host w.

(** The link to the pull request of lines 354 and 459. *)
Definition seePR (prUrl : string) : string :=
  match prUrl with
  | "" => ""
  | _ => "[" +++ h_glyph host GSee +++ " See PR](" +++ prUrl +++ ")"
  end.

(** [test()], lines 58-62 *)
Definition test : M bool :=
  branches <- getBranches w ;;
  prefixes <- getPrefixes w ;;
  ret (includes (release prefixes) (current branches)).

(** [merge(branches)], lines 109-114 *)
Definition merge (branches : Branches) : M string :=
  github_merge w (current branches) (development branches) ;;
  sha <- github_merge w (current branches) (main branches) ;;
  ret sha.

(** [createTag(params)], lines 116-127 *)
Definition createTag (branches : Branches)
  (prefixes : GitFlowBranchesPrefixes) (sha : string) : M unit :=
  let tag :=
    getTagName (current branches) (release prefixes) (tag prefixes) in
  info ("SHA -------> " +++ sha) ;;
  info ("TAG -------> " +++ tag) ;;
  github_createTag w tag sha.

(** [getFileSha(filePath, branch)], lines 566-574 *)
Definition getFileSha (filePath branch : string) : M string :=
  repos_getContent w filePath branch.

(** [updatePackageJson(version, branch)], lines 152-172 *)
Definition updatePackageJson (version : jsstring) (branch : string)
  : M unit :=
  try_catch
    (content <- getFileContent w "package.json" branch ;;
     updatedContent <- lift (updatePackageJsonVersion host content version) ;;
     fileResponse <- getFileSha "package.json" branch ;;
     updateFile w "package.json" updatedContent
       ("chore: update package.json version to " +++ show version)
       branch fileResponse ;;
     info ("package.json version updated to: " +++ show version))
    (fun error =>
       info ("Error updating package.json: " +++ error_to_string error) ;;
       throw error).

(** [updateVersionFiles(branches, prefixes)], lines 134-150 *)
Definition updateVersionFiles (branches : Branches)
  (prefixes : GitFlowBranchesPrefixes) : M unit :=
  try_catch
    (version <- lift (extractVersionFromBranch host (current branches)
                        (release prefixes)) ;;
     info ("Updating version files to: " +++ show version) ;;
     updatePackageJson version (current branches) ;;
     info "Version files updated successfully")
    (fun error =>
       info ("Error updating version files: " +++ error_to_string error) ;;
       throw error).

(** The [try] block of [updateMtaYaml], lines 176-189. *)
Definition updateMtaYaml_try (version : jsstring) (branch : string)
  : M unit :=
  content <- getFileContent w "mta.yaml" branch ;;
  let updatedContent := updateMtaYamlVersion content version in
  fileResponse <- getFileSha "mta.yaml" branch ;;
  updateFile w "mta.yaml" updatedContent
    ("chore: update mta.yaml version to " +++ show version)
    branch fileResponse ;;
  info ("mta.yaml version updated to: " +++ show version).

(** [updateMtaYaml(version, branch)], lines 174-194 *)
Definition updateMtaYaml (version : jsstring) (branch : string) : M unit :=
  try_catch (updateMtaYaml_try version branch)
    (fun error =>
       info ("mta.yaml file not found or error updating: "
               +++ error_to_string error)).

(** [installDependencies()], lines 196-210 *)
Definition installDependencies : M unit :=
  packageLockExists <- existsSync w (in_cwd w ["package-lock.json"]) ;;
  yarnLockExists <- existsSync w (in_cwd w ["yarn.lock"]) ;;
  if packageLockExists : bool then
    info "Found package-lock.json, using npm ci" ;;
    execSync w "npm ci"
  else if yarnLockExists : bool then
    info "Found yarn.lock, using yarn install --frozen-lockfile" ;;
    execSync w "yarn install --frozen-lockfile"
  else
    info "No lock file found, using npm install" ;;
    execSync w "npm install".

(** [runBuild()], lines 212-222 *)
Definition runBuild : M unit :=
  yarnLockExists <- existsSync w (in_cwd w ["yarn.lock"]) ;;
  if yarnLockExists : bool then
    info "Using yarn build" ;;
    execSync w "yarn build"
  else
    info "Using npm run build" ;;
    execSync w "npm run build".

(** The candidate head references of lines 495-499. *)
Definition branchFormats (branch : string) : list string :=
  [ branch;
    replace_first false releaseHeadRegex "" branch;
    w_owner w +++ ":" +++ branch ].

(** The description made up when the pull request has no body,
    lines 532-542. *)
Definition describe (pr : PullRequest) (detailedPr : PullRequestDetail)
  : string :=
  let title := or_else (prd_title detailedPr) (pr_title pr) in
  let changedFiles := count_or (prd_changed_files detailedPr) "Unknown" in
  let commits := count_or (prd_commits detailedPr) "Multiple" in
  "**" +++ title +++ "**" +++ LF +++ LF +++
  "This release includes changes from PR #" +++ of_nat (pr_number pr)
    +++ "." +++ LF +++ LF +++
  "**Changed files:** " +++ changedFiles +++ " files modified" +++ LF +++
  "**Commits:** " +++ commits +++ " commits included" +++ LF +++ LF +++
  "For detailed information, please check the pull request.".

(** The [try] block of one turn of the loop, lines 503-549: [Some] is
    the [return] of line 545, [None] falls out of the [if]. *)
Definition searchFormat (branchFormat : string) : M (option PRInfo) :=
  prs <- pulls_list w branchFormat ;;
  match prs with
  | [] => ret None
  | pr :: _ =>
      info (h_glyph host GFound +++ " Found PR #" +++ of_nat (pr_number pr)
              +++ ": " +++ pr_title pr) ;;
      info ("PR Body length: " +++
            of_nat (match pr_body pr with
                    | Some b => String.length b
                    | None => 0
                    end)) ;;
      let bodyPreview :=
        or_else (match pr_body pr with
                 | Some b => substring0 100 b
                 | None => ""
                 end) "No body content" in
      info ("PR Body preview: " +++ bodyPreview) ;;
      detailedPr <- pulls_get w (pr_number pr) ;;
      let detailedBodyLength :=
        match prd_body detailedPr with
        | Some b => String.length b
        | None => 0
        end in
      info ("Detailed PR Body length: " +++ of_nat detailedBodyLength) ;;
      let enhancedBody :=
        opt_or_else (prd_body detailedPr) (opt_or_else (pr_body pr) "") in
      let enhancedBody :=
        if String.eqb (trim enhancedBody) ""
        then describe pr detailedPr
        else enhancedBody in
      ret (Some {| body := enhancedBody; url := pr_html_url pr |})
  end.

(** The [catch] of the loop, lines 550-555: log and go on. *)
Definition searchFormat_caught (branchFormat : string)
  : M (option PRInfo) :=
  try_catch (searchFormat branchFormat)
    (fun error =>
       info ("Error searching with format '" +++ branchFormat +++ "': "
               +++ error_to_string error) ;;
       ret None).

Definition noPullRequest (branch : string) : error :=
  Error ("No Pull Request found for release branch '" +++ branch +++ "'").

(** The loop of lines 501-556 and what follows it, lines 558-563. *)
Fixpoint searchFormats (branch : string) (formats : list string)
  : M PRInfo :=
  match formats with
  | [] =>
      info (h_glyph host GMissing +++ " No PR found for branch: " +++ branch) ;;
      info ("Repository: " +++ w_owner w +++ "/" +++ w_repo w) ;;
      info "Please ensure a Pull Request exists for this release branch" ;;
      throw (noPullRequest branch)
  | branchFormat :: rest =>
      found <- searchFormat_caught branchFormat ;;
      match found with
      | Some prInfo => ret prInfo
      | None => searchFormats branch rest
      end
  end.

(** [getPRInfo(branch)], lines 488-564 *)
Definition getPRInfo (branch : string) : M PRInfo :=
  info ("Searching for PR: " +++ branch) ;;
  searchFormats branch (branchFormats branch).

(** The entry of lines 348-358. *)
Definition changelogEntry (version : jsstring) (prInfo : PRInfo) : string :=
  "# V" +++ show version +++ LF +++ LF +++
  "This release includes:" +++ LF +++ LF +++
  or_else (body prInfo) "Release updates and improvements" +++ LF +++ LF +++
  seePR (url prInfo) +++ LF +++ LF +++
  "---" +++ LF +++ LF.

(** The commit of the changelog, lines 394-410. *)
Definition commitChangelog (version : jsstring) : M unit :=
  inGit <- existsSync w ".git" ;;
  if inGit : bool then
    try_catch
      (execSync w ("git config user.name " +++ DQ +++ "GitHub Actions" +++ DQ) ;;
       execSync w ("git config user.email " +++ DQ +++ "actions@github.com" +++ DQ) ;;
       execSync w "git add CHANGELOG.md" ;;
       execSync w ("git commit -m " +++ DQ +++
                   "docs: update changelog for version " +++ show version
                   +++ DQ) ;;
       info "Changelog committed successfully")
      (fun commitError =>
         info ("Could not commit changelog: "
                 +++ error_to_string commitError +++ ". Continuing..."))
  else ret tt.

(** The [try] block of [createOrUpdateChangelog], lines 336-412. *)
Definition createOrUpdateChangelog_try (version : jsstring)
  (branch : string) : M unit :=
  info ("Creating/updating changelog for version " +++ show version) ;;
  let changelogPath := in_cwd w ["CHANGELOG.md"] in
  prInfo <- getPRInfo branch ;;
  info ("PR Info Body length: " +++ of_nat (String.length (body prInfo))) ;;
  info ("PR Info URL: " +++ url prInfo) ;;
  let newEntry := changelogEntry version prInfo in
  info ("Changelog entry preview: " +++ substring0 200 newEntry +++ "...") ;;
  changelogExists <- existsSync w changelogPath ;;
  existingContent <-
    (if changelogExists : bool then readFileSync w changelogPath
     else ret "") ;;
  writeFileSync w changelogPath (newContent existingContent newEntry) ;;
  commitChangelog version ;;
  info "Changelog updated successfully".

(** [createOrUpdateChangelog(version, branch)], lines 334-418 *)
Definition createOrUpdateChangelog (version : jsstring) (branch : string)
  : M unit :=
  try_catch (createOrUpdateChangelog_try version branch)
    (fun error =>
       info ("Error updating changelog: " +++ error_to_string error) ;;
       info "Continuing with release process...").

Definition noArchives : error :=
  Error ("MTA project detected but no MTAR files found in mta_archives "
         +++ "directory. Build may have failed.").

Definition noArchiveDirectory : error :=
  Error ("MTA project detected but mta_archives directory not found. "
         +++ "Build may have failed.").

Definition artifactName (projectName : string) (version : jsstring)
  (ext : string) : string :=
  projectName +++ "-v" +++ show version +++ ext.

(** The branch of an MTA project in [buildProject], lines 246-292; its
    value is the new [mtarFilePath]. *)
Definition buildProject_mta (version : jsstring) (projectName : string)
  (branches : Branches) : M string :=
  info "MTA project detected, looking for MTAR file..." ;;
  try_catch
    (let mtarArchivesPath := in_cwd w ["mta_archives"] in
     archivesExist <- existsSync w mtarArchivesPath ;;
     if archivesExist : bool then
       entries <- readdirSync w mtarArchivesPath ;;
       let mtarFiles := filter (endsWith ".mtar") entries in
       match mtarFiles with
       | first :: _ =>
           info "MTAR file found! Processing..." ;;
           let originalMtarFile :=
             h_path_join host [mtarArchivesPath; first] in
           let versionedMtarFile :=
             h_path_join host
               [mtarArchivesPath; artifactName projectName version ".mtar"] in
           renameSync w originalMtarFile versionedMtarFile ;;
           info ("Renamed to " +++ artifactName projectName version ".mtar") ;;
           updateMtaYaml version (current branches) ;;
           ret versionedMtarFile
       | [] => throw noArchives
       end
     else throw noArchiveDirectory)
    (fun error =>
       info ("Error processing MTAR file: " +++ error_to_string error) ;;
       throw error).

Definition noBuildFiles : error :=
  Error "Build files not found after build. Expected lib/main/index.js".

(** The other branch, lines 294-301. *)
Definition buildProject_standard : M string :=
  info "Standard project detected, verifying build files..." ;;
  let buildFile := in_cwd w ["lib"; "main"; "index.js"] in
  built <- existsSync w buildFile ;;
  if built : bool then ret "" else throw noBuildFiles.

(** The standard package of lines 305-324. *)
Definition buildProject_package (version : jsstring) (projectName : string)
  : M string :=
  info "Creating standard package..." ;;
  let releaseFileName := artifactName projectName version ".zip" in
  let filesToPackage :=
    ["lib/"; "action.yml"; "package.json"; "README.md"; "LICENSE"] in
  execSync w ("zip -r " +++ releaseFileName +++ " "
                +++ join " " filesToPackage) ;;
  info ("Build successful! Created " +++ releaseFileName) ;;
  ret releaseFileName.

(** Install and build, lines 230-238. *)
Definition buildProject_run (version : jsstring) : M unit :=
  info ("Building project for version " +++ show version) ;;
  info "Installing dependencies..." ;;
  installDependencies ;;
  info "Building project..." ;;
  runBuild.

(** [buildProject(version, projectName, branches)], lines 224-332 *)
Definition buildProject (version : jsstring) (projectName : string)
  (branches : Branches) : M unit :=
  try_catch
    (buildProject_run version ;;
     mtaYamlExists <- existsSync w (in_cwd w ["mta.yaml"]) ;;
     let isMtaProject : bool := mtaYamlExists in
     mtarFilePath <-
       (if isMtaProject
        then buildProject_mta version projectName branches
        else buildProject_standard) ;;
     mtarFilePath <-
       (match mtarFilePath with
        | "" => buildProject_package version projectName
        | _ => ret mtarFilePath
        end) ;;
     set_releaseFilePath mtarFilePath)
    (fun error =>
       info ("Build failed: " +++ error_to_string error) ;;
       throw error).

(** The text of the release, lines 435-459. *)
Definition releaseBody (version : jsstring) (projectName : string)
  (prInfo : PRInfo) : string :=
  "## " +++ h_glyph host GRocket +++ " New Release v" +++ show version
    +++ LF +++ LF +++
  "This release includes:" +++ LF +++ LF +++
  or_else (body prInfo) "Release updates and improvements" +++ LF +++ LF +++
  "## " +++ h_glyph host GPackage +++ " Assets" +++ LF +++ LF +++
  "- `" +++ artifactName projectName version ".mtar"
    +++ "` - Complete package ready for deployment" +++ LF +++
  "- `" +++ artifactName projectName version ".zip"
    +++ "` - Complete package ready for use" +++ LF +++ LF +++
  "## " +++ h_glyph host GWrench +++ " Usage" +++ LF +++ LF +++
  "You can use this action in your workflows:" +++ LF +++ LF +++
  "```yaml" +++ LF +++
  "- name: Run Git Flow" +++ LF +++
  "  uses: " +++ w_owner w +++ "/" +++ w_repo w +++ "@v" +++ show version
    +++ LF +++
  "  with:" +++ LF +++
  "    github_token: ${{ secrets.GITHUB_TOKEN }}" +++ LF +++
  "    master_branch: 'main'" +++ LF +++
  "    development_branch: 'development'" +++ LF +++
  "```" +++ LF +++ LF +++
  seePR (url prInfo).

(** The upload of lines 465-477. *)
Definition uploadAsset (releaseResponse : ReleaseData) : M unit :=
  releaseFilePath <- get_releaseFilePath ;;
  match releaseFilePath with
  | "" => ret tt
  | _ =>
      present <- existsSync w releaseFilePath ;;
      if present : bool then
        assetData <- readFileSync w releaseFilePath ;;
        let fileName := h_path_basename host releaseFilePath in
        repos_uploadReleaseAsset w (rel_id releaseResponse) fileName
          assetData ;;
        info ("Asset uploaded: " +++ fileName)
      else ret tt
  end.

(** [createGitHubRelease(version, projectName)], lines 420-486 *)
Definition createGitHubRelease (version : jsstring) (projectName : string)
  : M unit :=
  try_catch
    (info ("Creating GitHub release for version " +++ show version) ;;
     prInfo <- getPRInfo ("release/" +++ show version) ;;
     releaseResponse <-
       repos_createRelease w ("v" +++ show version)
         ("Release v" +++ show version)
         (releaseBody version projectName prInfo) ;;
     uploadAsset releaseResponse ;;
     info ("GitHub release created successfully: "
             +++ rel_html_url releaseResponse))
    (fun error =>
       info ("Error creating GitHub release: " +++ error_to_string error) ;;
       throw error).

(** The project name, lines 76-83. *)
Definition getProjectName : M string :=
  let packageJsonPath := in_cwd w ["package.json"] in
  present <- existsSync w packageJsonPath ;;
  if present : bool then
    text <- readFileSync w packageJsonPath ;;
    name <- lift (h_json_name host text) ;;
    let projectName :=
      match name with
      | Some n => n
      | None => "unknown-project"
      end in
    info ("Project name: " +++ projectName) ;;
    ret projectName
  else ret "unknown-project".

(** [handle()], lines 64-107 *)
Definition handle : M string :=
  info "RELEASE HANDLER" ;;
  branches <- getBranches w ;;
  prefixes <- getPrefixes w ;;
  version <- lift (extractVersionFromBranch host (current branches)
                     (release prefixes)) ;;
  projectName <- getProjectName ;;
  updateVersionFiles branches prefixes ;;
  createOrUpdateChangelog version (current branches) ;;
  sha <- merge branches ;;
  createTag branches prefixes sha ;;
  buildProject version projectName branches ;;
  createGitHubRelease version projectName ;;
  github_delete w (current branches) ;;
  ret sha.

End Handler.
End Release.

(* ================================================================== *)
(** * Base64 *)
(* ================================================================== *)

(** [btoa] and [atob].  What [btoa] is given may hold any code unit, so
    it is given as the list of their numbers; it raises unless all are
    below 256.  [atob] is the forgiving decoder: white space is dropped,
    padding is optional. *)
Module Base64.

(** The code units of a string. *)
Definition units_of (s : string) : list nat :=
  map code (list_ascii_of_string s).

(** The string of the code units [u], when all are below 256. *)
Fixpoint latin1 (u : list nat) : option string :=
  match u with
  | [] => Some ""
  | n :: u' =>
      if (n <? 256)%nat then
        match latin1 u' with
        | Some s => Some (String (ascii_of_nat n) s)
        | None => None
        end
      else None
  end.

Definition alphabet : list ascii :=
  list_ascii_of_string
    "ABCDEFGHIJKLMNOPQRSTUVWXYZabcdefghijklmnopqrstuvwxyz0123456789+/".

(** The code unit that stands for the sextet [n]. *)
Definition digit (n : nat) : ascii := nth n alphabet "="%char.

Fixpoint index_of (c : ascii) (l : list ascii) (i : nat) : option nat :=
  match l with
  | [] => None
  | d :: l' => if Ascii.eqb c d then Some i else index_of c l' (S i)
  end.

(** The sextet a code unit stands for. *)
Definition value (c : ascii) : option nat := index_of c alphabet 0.

(** Three bytes give four sextets; a last group of one or two bytes gives
    two or three, filled with zero bits. *)
Fixpoint sextets (s : string) : list nat :=
  match s with
  | "" => []
  | String a "" => [code a / 4; code a mod 4 * 16]
  | String a (String b "") =>
      [code a / 4; code a mod 4 * 16 + code b / 16; code b mod 16 * 4]
  | String a (String b (String c r)) =>
      code a / 4 :: code a mod 4 * 16 + code b / 16
        :: code b mod 16 * 4 + code c / 64 :: code c mod 64 :: sextets r
  end.

Definition padding (s : string) : string :=
  match String.length s mod 3 with
  | 1 => "=="
  | 2 => "="
  | _ => ""
  end.

(** The Base64 text of a string of bytes. *)
Definition encode (s : string) : string :=
  string_of_list_ascii (map digit (sextets s)) +++ padding s.

(** The [DOMException] of [btoa]. *)
Definition notLatin1 : error :=
  MkError "InvalidCharacterError" "Invalid character".

(** [btoa(s)] *)
Definition btoa (s : list nat) : error + string :=
  match latin1 s with
  | Some bytes => inr (encode bytes)
  | None => inl notLatin1
  end.

(** TAB, LF, FF, CR and SP. *)
Definition is_ascii_whitespace (c : ascii) : bool :=
  existsb (Nat.eqb (code c)) [9; 10; 12; 13; 32].

Fixpoint strip (s : string) : string :=
  match s with
  | "" => ""
  | String c s' =>
      if is_ascii_whitespace c then strip s' else String c (strip s')
  end.

(** Without the one or two [=] at its end. *)
Fixpoint unpad (s : string) : string :=
  match s with
  | "" => ""
  | String "=" "" => ""
  | String "=" (String "=" "") => ""
  | String c s' => String c (unpad s')
  end.

Fixpoint values (s : string) : option (list nat) :=
  match s with
  | "" => Some []
  | String c s' =>
      match value c, values s' with
      | Some v, Some vs => Some (v :: vs)
      | _, _ => None
      end
  end.

Definition byte (n : nat) : ascii := ascii_of_nat n.

(** Four sextets give three bytes; of a last group of two or three sextets
    the bits that do not fill a byte are dropped. *)
Fixpoint bytes (vs : list nat) : string :=
  match vs with
  | a :: b :: c :: d :: r =>
      String (byte (a * 4 + b / 16))
        (String (byte (b mod 16 * 16 + c / 4))
           (String (byte (c mod 4 * 64 + d)) (bytes r)))
  | [a; b; c] =>
      String (byte (a * 4 + b / 16)) (String (byte (b mod 16 * 16 + c / 4)) "")
  | [a; b] => String (byte (a * 4 + b / 16)) ""
  | _ => ""
  end.

(** The [DOMException] of [atob]. *)
Definition invalidCharacter : error :=
  MkError "InvalidCharacterError"
    "The string to be decoded is not correctly encoded.".

(** [atob(data)] *)
Definition atob (data : string) : error + string :=
  let data := strip data in
  let data :=
    if (String.length data mod 4 =? 0)%nat then unpad data else data in
  if (String.length data mod 4 =? 1)%nat then inl invalidCharacter
  else
    match values data with
    | None => inl invalidCharacter
    | Some vs => inr (bytes vs)
    end.

End Base64.

(* ================================================================== *)
(** * The gateway as implemented: GitHubService *)
(* ================================================================== *)

(** The class behind the [GitHub] interface.  Its calls go to the Octokit
    instance and to the log of the action; each is kept, with what came
    back, in the log of the service. *)
Module GitHubService.

(** [client.context] *)
Record Context : Type := {
  ctx_ref : string;
  ctx_repo_owner : string;
  ctx_repo_repo : string;
  ctx_actor : string;
  (** [payload.organization?.login] *)
  ctx_organization_login : option string
}.

(** What [client.getOctokit(token)] returns. *)
Inductive octokit : Type := Octokit (token : string).

(** A request to the instance or a line of the log.  A pull request comes
    back as its [head.ref] and [base.ref]; a merge as its [sha], if the
    response has one; a content as its [content], if the response has that
    key. *)
Inductive call : Type :=
| CInfo (msg : string)
| CPullsGet (owner repo pull_number : string) (r : error + string * string)
| CReposMerge (owner repo base head : string) (r : error + option string)
| CDeleteRef (owner repo ref : string) (r : error + unit)
| CCreateRef (owner repo ref sha : string) (r : error + unit)
| CGetContent (owner repo path ref : string) (r : error + option string)
| CCreateOrUpdateFileContents
    (owner repo path message content branch sha : string) (r : error + unit).

(** The client and the core the service is built with: the context, the
    inputs of the action, and what the instance answers given all calls so
    far. *)
Record Client : Type := {
  cl_context : Context;
  cl_getInput : string -> string;
  cl_pullsGet :
    octokit -> list call -> string -> string -> string
    -> error + string * string;
  cl_reposMerge :
    octokit -> list call -> string -> string -> string -> string
    -> error + option string;
  cl_deleteRef :
    octokit -> list call -> string -> string -> string -> error + unit;
  cl_createRef :
    octokit -> list call -> string -> string -> string -> string
    -> error + unit;
  cl_getContent :
    octokit -> list call -> string -> string -> string -> string
    -> error + option string;
  cl_createOrUpdateFileContents :
    octokit -> list call -> string -> string -> string -> string -> string
    -> string -> string -> error + unit
}.

(** The fields of the service that change: the instance, once connected,
    and the log. *)
Record service : Type := MkService {
  octokitInstance : option octokit;
  sv_log : list call
}.

Definition fresh : service := MkService None [].

Definition logged (c : call) (sv : service) : service :=
  MkService (octokitInstance sv) (sv_log sv ++ [c]).

Section Methods.
Context (cl : Client).

Let owner : string := ctx_repo_owner (cl_context cl).
Let repo : string := ctx_repo_repo (cl_context cl).

(** [connect()], lines 36-40 *)
Definition connect : octokit :=
  let token := cl_getInput cl "github_token" in
  Octokit token.

(** [getOctokitInstance()], lines 42-48 *)
Definition getOctokitInstance (sv : service) : octokit * service :=
  match octokitInstance sv with
  | Some instance => (instance, sv)
  | None => (connect, MkService (Some connect) (sv_log sv))
  end.

(** The pull request number read off the reference, line 66. *)
Definition pullRequestOf (branchName : string) : string :=
  replace_str "/merge" "" (join "" (split "refs/pull/" branchName)).

(** [getPullRequestHeadBranch(pull)], lines 71-83 *)
Definition getPullRequestHeadBranch (pull : string) (sv : service)
  : service * (error + string * string) :=
  let '(instance, sv) := getOctokitInstance sv in
  let r := cl_pullsGet cl instance (sv_log sv) owner repo pull in
  (logged (CPullsGet owner repo pull r) sv, r).

(** [getCurrentBranchName()], lines 64-69 *)
Definition getCurrentBranchName (sv : service)
  : service * (error + string * string) :=
  let branchName := ctx_ref (cl_context cl) in
  let pullRequest := pullRequestOf branchName in
  getPullRequestHeadBranch pullRequest sv.

(** [getBranches()], lines 54-62 *)
Definition getBranches (sv : service) : service * (error + Branches) :=
  match getCurrentBranchName sv with
  | (sv, inl e) => (sv, inl e)
  | (sv, inr (current, target)) =>
      (sv, inr {| current := current;
                  target := target;
                  main := cl_getInput cl "master_branch";
                  development := cl_getInput cl "development_branch" |})
  end.

(** [getPrefixes()], lines 85-94 *)
Definition getPrefixes : GitFlowBranchesPrefixes := {|
  bugfix := cl_getInput cl "bugfix_branch_prefix";
  feature := cl_getInput cl "feature_branch_prefix";
  hotfix := cl_getInput cl "hotfix_branch_prefix";
  release := cl_getInput cl "release_branch_prefix";
  support := cl_getInput cl "support_branch_prefix";
  tag := cl_getInput cl "tag_prefix"
|}.

(** [merge(fromBranch, toBranch)], lines 96-110 *)
Definition merge (fromBranch toBranch : string) (sv : service)
  : service * (error + jsstring) :=
  let '(instance, sv) := getOctokitInstance sv in
  let r := cl_reposMerge cl instance (sv_log sv) owner repo toBranch fromBranch in
  let sv := logged (CReposMerge owner repo toBranch fromBranch r) sv in
  match r with
  | inl e => (sv, inl e)
  | inr data =>
      let sv := logged (CInfo ("TO BRANCH ------> " +++ toBranch)) sv in
      let sha :=
        match data with
        | Some s => JStr s
        | None => JUndefined
        end in
      let sv := logged (CInfo ("sha " +++ show sha)) sv in
      (sv, inr sha)
  end.



(** [createTag(tag, sha)], lines 127-134 *)
Definition createTag (tag sha : string) (sv : service)
  : service * (error + unit) :=
  let '(instance, sv) := getOctokitInstance sv in
  let ref := "refs/tags/" +++ tag in
  let r := cl_createRef cl instance (sv_log sv) owner repo ref sha in
  (logged (CCreateRef owner repo ref sha r) sv, r).

Definition notAFile (filePath : string) : error :=
  Error ("File " +++ filePath +++ " not found or is not a file").

(** [getFileContent(filePath, branch)], lines 136-153 *)
Definition getFileContent (filePath branch : string) (sv : service)
  : service * (error + string) :=
  let '(instance, sv) := getOctokitInstance sv in
  let r := cl_getContent cl instance (sv_log sv) owner repo filePath branch in
  let sv := logged (CGetContent owner repo filePath branch r) sv in
  let tried : error + string :=
    match r with
    | inl e => inl e
    | inr (Some content) => Base64.atob content
    | inr None => inl (notAFile filePath)
    end in
  match tried with
  | inr text => (sv, inr text)
  | inl error =>
      (logged (CInfo ("Error getting file content for " +++ filePath +++ ": "
                        +++ error_to_string error)) sv,
       inl error)
  end.

(** [updateFile(filePath, content, message, branch, sha)], lines 155-177.
    The content is any JavaScript string; [btoa] is evaluated inside the
    [try], before the request is made. *)
Definition updateFile (filePath : string) (content : list nat)
  (message branch sha : string) (sv : service) : service * (error + unit) :=
  let '(instance, sv) := getOctokitInstance sv in
  let tried : service * (error + unit) :=
    match Base64.btoa content with
    | inl e => (sv, inl e)
    | inr sent =>
        let r :=
          cl_createOrUpdateFileContents cl instance (sv_log sv) owner repo
            filePath message sent branch sha in
        (logged (CCreateOrUpdateFileContents owner repo filePath message sent
                   branch sha r) sv, r)
    end in
  match tried with
  | (sv, inr _) =>
      (logged (CInfo ("Successfully updated " +++ filePath)) sv, inr tt)
  | (sv, inl error) =>
      (logged (CInfo ("Error updating file " +++ filePath +++ ": "
                        +++ error_to_string error)) sv,
       inl error)
  end.

End Methods.
End GitHubService.

(* ================================================================== *)
(** * Vocabulary of the statements *)
(* ================================================================== *)

(** The events that change the repository, the file system or the
    published releases. *)
Definition side_effect (e : event) : bool :=
  match e with
  | EMerge _ _ _ | EDelete _ _ | ECreateTag _ _ _
  | EUpdateFile _ _ _ _ _ _ | ECreateRelease _ _ _ _
  | EUploadReleaseAsset _ _ _ _ | ERenameSync _ _ _
  | EWriteFileSync _ _ _ | EExecSync _ _ => true
  | _ => false
  end.

(** Neither a merge nor the deletion of a branch. *)
Definition quiet (e : event) : Prop :=
  match e with
  | EMerge _ _ _ | EDelete _ _ => False
  | _ => True
  end.

(** Every run of [m] only appends to the trace, and what it appends
    satisfies [P]. *)
Definition emits {A : Type} (P : event -> Prop) (m : M A) : Prop :=
  forall s s' r, m s = (s', r) ->
    exists t, st_trace s' = st_trace s ++ t /\ Forall P t.

(* ================================================================== *)
(** * Scenarios *)
(* ================================================================== *)

Module Scenario.

Definition host : Host := {|
  h_regexp_syntax :=
    fun p => MkError "SyntaxError" ("Invalid regular expression: /" +++ p +++ "/");
  h_regexp_outside := fun _ _ => inr None;
  h_json_set_version := fun c v => inr (c +++ show v);
  h_json_name := fun _ => inr (Some "demo");
  h_cwd := "/w";
  h_path_join := join "/";
  h_path_basename := fun p => p;
  h_glyph := fun _ => "*"
|}.

Definition prefixes : GitFlowBranchesPrefixes := {|
  bugfix := "bugfix/";
  feature := "feature/";
  hotfix := "hotfix/";
  release := "release/";
  support := "support/";
  tag := "v"
|}.

Definition pr7 : PullRequest := {|
  pr_number := 7;
  pr_title := "Release 1.2.0";
  pr_body := Some "";
  pr_html_url := "https://example.test/pull/7"
|}.

Definition detail7 : PullRequestDetail := {|
  prd_title := "";
  prd_body := None;
  prd_changed_files := 3;
  prd_commits := 0
|}.

Definition changelog : string :=
  "# Changelog" +++ LF +++ LF +++ "All notable" +++ LF +++ LF +++
  "# V1" +++ LF +++ "old".

(** A world in which every call succeeds: the branches are [branches],
    an MTA project when [mta] is set. *)
Definition calm (branches : Branches) (mta : bool) : World := {|
  w_host := host;
  w_owner := "o";
  w_repo := "r";
  w_getBranches := fun _ => inr branches;
  w_getPrefixes := fun _ => prefixes;
  w_merge := fun _ _ toBranch => inr ("sha-" +++ toBranch);
  w_delete := fun _ _ => inr tt;
  w_createTag := fun _ _ _ => inr tt;
  w_getFileContent := fun _ _ _ => inr ("version: 0.0.1" +++ LF +++ "x: y");
  w_updateFile := fun _ _ _ _ _ _ => inr tt;
  w_getContent := fun _ _ _ => inr "blob";
  w_pullsList :=
    fun _ head => inr (if String.eqb head (current branches) then [pr7] else []);
  w_pullsGet := fun _ _ => inr detail7;
  w_createRelease :=
    fun _ _ _ _ => inr {| rel_id := 1; rel_html_url := "https://example.test/r/1" |};
  w_uploadReleaseAsset := fun _ _ _ _ => inr tt;
  w_existsSync :=
    fun _ p =>
      if String.eqb p "/w/yarn.lock" then false
      else if String.eqb p "/w/mta.yaml" then mta
      else true;
  w_readFileSync := fun _ _ => inr changelog;
  w_readdirSync := fun _ _ => inr ["notes.txt"; "b.mtar"; "c.mtar"];
  w_renameSync := fun _ _ _ => inr tt;
  w_writeFileSync := fun _ _ _ => inr tt;
  w_execSync := fun _ _ => inr tt
|}.

Definition release_1_2_0 : Branches := {|
  current := "release/1.2.0";
  target := "main";
  main := "main";
  development := "develop"
|}.

Definition release_abc : Branches := {|
  current := "release/abc";
  target := "main";
  main := "main";
  development := "develop"
|}.

(** A feature branch whose pull request targets the development branch of
    a repository that calls it [develop]. *)
Definition feature_login : Branches := {|
  current := "feature/login";
  target := "develop";
  main := "main";
  development := "develop"
|}.

End Scenario.

(* ================================================================== *)
(** * The stages of the release handler *)
(* ================================================================== *)

(** [Release.handle] read as three stages: what comes before the changelog
    step (lines 65-86), the changelog step (line 89), and what comes after
    it (lines 92-106).  [Stage.handle_stages] shows that the handler is
    their sequence. *)
Module Stage.

Record context : Type := {
  branches : Branches;
  prefixes : GitFlowBranchesPrefixes;
  version : jsstring;
  projectName : string
}.

Definition prepare (w : World) : M context :=
  info "RELEASE HANDLER" ;;
  b <- getBranches w ;;
  p <- getPrefixes w ;;
  v <- lift (extractVersionFromBranch (w_host w) (current b) (release p)) ;;
  n <- Release.getProjectName w ;;
  Release.updateVersionFiles w b p ;;
  ret {| branches := b; prefixes := p; version := v; projectName := n |}.

Definition changelog (w : World) (c : context) : M unit :=
  Release.createOrUpdateChangelog w (version c) (current (branches c)).

Definition promote (w : World) (c : context) : M string :=
  sha <- Release.merge w (branches c) ;;
  Release.createTag w (branches c) (prefixes c) sha ;;
  Release.buildProject w (version c) (projectName c) (branches c) ;;
  Release.createGitHubRelease w (version c) (projectName c) ;;
  github_delete w (current (branches c)) ;;
  ret sha.

End Stage.

Module ScenarioRuns.
Import Scenario.

(** The context of the release of [release/1.2.0]. *)
Definition context_1_2_0 : Stage.context := {|
  Stage.branches := release_1_2_0;
  Stage.prefixes := prefixes;
  Stage.version := JStr "1.2.0";
  Stage.projectName := "demo"
|}.


(** [calm], except that the platform descriptor cannot be read. *)
Definition no_descriptor (branches : Branches) : World :=
  let w := calm branches true in {|
  w_host := w_host w;
  w_owner := w_owner w;
  w_repo := w_repo w;
  w_getBranches := w_getBranches w;
  w_getPrefixes := w_getPrefixes w;
  w_merge := w_merge w;
  w_delete := w_delete w;
  w_createTag := w_createTag w;
  w_getFileContent :=
    fun t p br =>
      if String.eqb p "mta.yaml" then inl (Error "Not Found")
      else w_getFileContent w t p br;
  w_updateFile := w_updateFile w;
  w_getContent := w_getContent w;
  w_pullsList := w_pullsList w;
  w_pullsGet := w_pullsGet w;
  w_createRelease := w_createRelease w;
  w_uploadReleaseAsset := w_uploadReleaseAsset w;
  w_existsSync := w_existsSync w;
  w_readFileSync := w_readFileSync w;
  w_readdirSync := w_readdirSync w;
  w_renameSync := w_renameSync w;
  w_writeFileSync := w_writeFileSync w;
  w_execSync := w_execSync w
|}.

End ScenarioRuns.

(** A repository whose release prefix holds a pattern character. *)
Module ScenarioPattern.
Import Scenario.

Definition prefixes : GitFlowBranchesPrefixes := {|
  bugfix := "bugfix/";
  feature := "feature/";
  hotfix := "hotfix/";
  release := "a|b";
  support := "support/";
  tag := "v"
|}.

(** A branch made of the release prefix and of [foo]. *)
Definition a_b_foo : Branches := {|
  current := "a|bfoo";
  target := "main";
  main := "main";
  development := "develop"
|}.

(** [calm] on that branch, with these prefixes. *)
Definition world : World :=
  let w := calm a_b_foo false in {|
  w_host := w_host w;
  w_owner := w_owner w;
  w_repo := w_repo w;
  w_getBranches := w_getBranches w;
  w_getPrefixes := fun _ => prefixes;
  w_merge := w_merge w;
  w_delete := w_delete w;
  w_createTag := w_createTag w;
  w_getFileContent := w_getFileContent w;
  w_updateFile := w_updateFile w;
  w_getContent := w_getContent w;
  w_pullsList := w_pullsList w;
  w_pullsGet := w_pullsGet w;
  w_createRelease := w_createRelease w;
  w_uploadReleaseAsset := w_uploadReleaseAsset w;
  w_existsSync := w_existsSync w;
  w_readFileSync := w_readFileSync w;
  w_readdirSync := w_readdirSync w;
  w_renameSync := w_renameSync w;
  w_writeFileSync := w_writeFileSync w;
  w_execSync := w_execSync w
|}.

End ScenarioPattern.

(** Names for the archive branch of the build. *)
Module Archive.
Section Names.
Context (w : World) (version : jsstring) (projectName : string).

Definition descriptor : string := in_cwd w ["mta.yaml"].

Definition dir : string := in_cwd w ["mta_archives"].

Definition original (first : string) : string :=
  h_path_join (w_host w) [dir; first].

Definition versioned : string :=
  h_path_join (w_host w)
    [dir; Release.artifactName projectName version ".mtar"].

(** The state in which the archive branch is entered, after install and
    build ended in [sb] and the descriptor was found. *)
Definition entered (sb : state) : state :=
  record (EInfo "MTA project detected, looking for MTAR file...")
    (record (EExistsSync descriptor true) sb).

(** The state in which the build step ends after [e] was raised in the
    archive branch at [s]: the error was logged twice. *)
Definition failed (e : error) (s : state) : state :=
  record (EInfo ("Build failed: " +++ error_to_string e))
    (record (EInfo ("Error processing MTAR file: " +++ error_to_string e))
       s).

(** The state after the archive [first] was renamed. *)
Definition renamed (first : string) (s3 : state) : state :=
  record (EInfo ("Renamed to "
                   +++ Release.artifactName projectName version ".mtar"))
    (record (ERenameSync (original first) versioned (inr tt)) s3).

(** The state in which the descriptor update ends after [e] was raised in
    it at [s]: the error was logged, once. *)
Definition dropped (e : error) (s : state) : state :=
  record (EInfo ("mta.yaml file not found or error updating: "
                   +++ error_to_string e)) s.
End Names.

(** Not a call of the gateway about a file of the repository. *)
Definition no_file_call (e : event) : Prop :=
  match e with
  | EGetFileContent _ _ _ | EGetContent _ _ _ | EUpdateFile _ _ _ _ _ _ =>
      False
  | _ => True
  end.
End Archive.

(* ================================================================== *)
(** * Vocabulary for matching *)
(* ================================================================== *)

Module Matching.

(** The regular expression the parser builds for a run of pattern
    characters [p] read after [r0]. *)
Fixpoint lits (r0 : regex) (p : string) : regex :=
  match p with
  | "" => r0
  | String c p' => lits (RSeq r0 (RChar c)) p'
  end.

(** Passing over the literal text [p]. *)
Fixpoint eat (p : string) (y : mstate) : option mstate :=
  match p with
  | "" => Some y
  | String c p' =>
      match ms_rest y with
      | String d s' =>
          if Ascii.eqb c d then eat p' (MState (Some d) s' (ms_caps y))
          else None
      | "" => None
      end
  end.

(** The last code unit of [p], or [d] when [p] is empty. *)
Fixpoint last_of (p : string) (d : option ascii) : option ascii :=
  match p with
  | "" => d
  | String c p' => last_of p' (Some c)
  end.

(** Passing over the longest run of members of a set. *)
Fixpoint span (neg : bool) (rs : list range) (prev : option ascii)
  (s : string) : option ascii * string :=
  match s with
  | "" => (prev, "")
  | String c s' =>
      if in_set neg rs c then span neg rs (Some c) s' else (prev, s)
  end.

(** What is left of [s] after its longest run of members of a set. *)
Fixpoint skip_set (neg : bool) (rs : list range) (s : string) : string :=
  match s with
  | "" => ""
  | String c s' => if in_set neg rs c then skip_set neg rs s' else s
  end.

Definition span_state (neg : bool) (rs : list range) (x : mstate) : mstate :=
  let '(prev, rest) := span neg rs (ms_prev x) (ms_rest x) in
  MState prev rest (ms_caps x).

(** A body of repetition that passes over one member of a set. *)
Definition set_body (neg : bool) (rs : list range)
  (body : mstate -> (mstate -> option mstate) -> option mstate) : Prop :=
  forall y h,
    body y h
    = match ms_rest y with
      | String d s' =>
          if in_set neg rs d then h (MState (Some d) s' (ms_caps y))
          else None
      | "" => None
      end.

(** What follows refuses every position that starts with a member of the
    set. *)
Definition refuses (neg : bool) (rs : list range)
  (k : mstate -> option mstate) : Prop :=
  forall y,
    match ms_rest y with
    | String c _ => in_set neg rs c = true -> k y = None
    | "" => True
    end.

End Matching.

(** The branch name without the prefix [p], when it starts with it. *)
Definition stripPrefix (p s : string) : string :=
  if String.prefix p s then drop (String.length p) s else s.

(* ================================================================== *)
(** * Vocabulary for the resolution of the pull request *)
(* ================================================================== *)

Module Resolver.
Section Outcomes.
Context (w : World).

(** The state after the candidate [f], tried from [s], listed [pr] first:
    the listing, and the three lines logged about [pr]. *)
Definition listed (f : string) (pr : PullRequest)
  (others : list PullRequest) (s : state) : state :=
  record (EInfo ("PR Body preview: "
                   +++ Release.or_else
                         (match pr_body pr with
                          | Some b => substring0 100 b
                          | None => ""
                          end) "No body content"))
    (record (EInfo ("PR Body length: "
                      +++ of_nat (match pr_body pr with
                                  | Some b => String.length b
                                  | None => 0
                                  end)))
       (record (EInfo (h_glyph (w_host w) GFound +++ " Found PR #"
                         +++ of_nat (pr_number pr) +++ ": " +++ pr_title pr))
          (record (EPullsList f (inr (pr :: others))) s))).

(** The state after the error [e], raised while the candidate [f] was
    tried, was logged at [s]. *)
Definition caught (f : string) (e : error) (s : state) : state :=
  record (EInfo ("Error searching with format '" +++ f +++ "': "
                   +++ error_to_string e)) s.

(** The candidate [f], tried from [s], is passed over and leaves [s']: the
    platform lists no pull request for it, or the listing raises, or the
    retrieval of the detail of the first pull request listed raises; what
    was raised is logged. *)
Definition fruitless (f : string) (s s' : state) : Prop :=
  (w_pullsList w (st_trace s) f = inr []
   /\ s' = record (EPullsList f (inr [])) s)
  \/ (exists e,
        w_pullsList w (st_trace s) f = inl e
        /\ s' = caught f e (record (EPullsList f (inl e)) s))
  \/ (exists pr others e,
        w_pullsList w (st_trace s) f = inr (pr :: others)
        /\ w_pullsGet w (st_trace (listed f pr others s)) (pr_number pr)
           = inl e
        /\ s' = caught f e
                  (record (EPullsGet (pr_number pr) (inl e))
                     (listed f pr others s))).

(** The candidates [fs] were tried in turn from [s] to [s'] and each
    was passed over. *)
Fixpoint skipped (fs : list string) (s s' : state) : Prop :=
  match fs with
  | [] => s' = s
  | f :: rest => exists s1, fruitless f s s1 /\ skipped rest s1 s'
  end.

(** The description of the pull request [pr] with the detail [d]: the body
    of the detail, or else the body listed, or else, when that is blank,
    the text made up from the title and the counts. *)
Definition description (pr : PullRequest) (d : PullRequestDetail) : string :=
  let given :=
    Release.opt_or_else (prd_body d) (Release.opt_or_else (pr_body pr) "") in
  if String.eqb (trim given) "" then Release.describe pr d else given.

(** The candidate [f], tried from [s], gives [i] and leaves [s']: the
    platform lists [pr] first for it and gives the detail [d] of [pr], and
    [i] is the description and the address of [pr]. *)
Definition found (f : string) (s s' : state) (i : Release.PRInfo) : Prop :=
  exists pr others d,
    w_pullsList w (st_trace s) f = inr (pr :: others)
    /\ w_pullsGet w (st_trace (listed f pr others s)) (pr_number pr) = inr d
    /\ s' = record (EInfo ("Detailed PR Body length: "
                             +++ of_nat (match prd_body d with
                                         | Some b => String.length b
                                         | None => 0
                                         end)))
              (record (EPullsGet (pr_number pr) (inr d))
                 (listed f pr others s))
    /\ i = {| Release.body := description pr d;
              Release.url := pr_html_url pr |}.

(** The state after the three lines logged when no candidate gave a
    pull request. *)
Definition gave_up (branch : string) (s : state) : state :=
  record (EInfo "Please ensure a Pull Request exists for this release branch")
    (record (EInfo ("Repository: " +++ w_owner w +++ "/" +++ w_repo w))
       (record (EInfo (h_glyph (w_host w) GMissing
                         +++ " No PR found for branch: " +++ branch)) s)).

(** The heads for which pull requests were listed, in the order of the
    calls. *)
Fixpoint listed_heads (t : trace) : list string :=
  match t with
  | [] => []
  | EPullsList head _ :: rest => head :: listed_heads rest
  | _ :: rest => listed_heads rest
  end.

(** Not a listing of pull requests. *)
Definition not_listing (e : event) : Prop :=
  match e with
  | EPullsList _ _ => False
  | _ => True
  end.

(** The first pull request that a listing of the run returned. *)
Fixpoint first_listed (t : trace) : option PullRequest :=
  match t with
  | [] => None
  | EPullsList _ (inr (pr :: _)) :: _ => Some pr
  | _ :: rest => first_listed rest
  end.

(** C6 as it is worded: the pull request described is the first one of
    the first listing that returned any. *)
Definition takes_first_listed (branch : string) (s : state) : Prop :=
  forall s' i,
    Release.getPRInfo w branch s = (s', inr i) ->
    exists pr,
      first_listed (skipn (List.length (st_trace s)) (st_trace s'))
      = Some pr
      /\ Release.url i = pr_html_url pr.
End Outcomes.
End Resolver.

Module ScenarioResolver.
Import Scenario.

Definition pr8 : PullRequest := {|
  pr_number := 8;
  pr_title := "Another head";
  pr_body := Some "Notes";
  pr_html_url := "https://example.test/pull/8"
|}.

(** [calm], except that the detail of pull request 7 cannot be retrieved
    and that the head [1.2.0] has a pull request of its own. *)
Definition flaky : World :=
  let w := calm release_1_2_0 false in {|
  w_host := w_host w;
  w_owner := w_owner w;
  w_repo := w_repo w;
  w_getBranches := w_getBranches w;
  w_getPrefixes := w_getPrefixes w;
  w_merge := w_merge w;
  w_delete := w_delete w;
  w_createTag := w_createTag w;
  w_getFileContent := w_getFileContent w;
  w_updateFile := w_updateFile w;
  w_getContent := w_getContent w;
  w_pullsList :=
    fun _ head =>
      inr (if String.eqb head "release/1.2.0" then [pr7]
           else if String.eqb head "1.2.0" then [pr8]
           else []);
  w_pullsGet :=
    fun _ n =>
      if (n =? 7)%nat then inl (MkError "HttpError" "Server Error")
      else inr detail7;
  w_createRelease := w_createRelease w;
  w_uploadReleaseAsset := w_uploadReleaseAsset w;
  w_existsSync := w_existsSync w;
  w_readFileSync := w_readFileSync w;
  w_readdirSync := w_readdirSync w;
  w_renameSync := w_renameSync w;
  w_writeFileSync := w_writeFileSync w;
  w_execSync := w_execSync w
|}.
End ScenarioResolver.

(* ================================================================== *)
(** * Vocabulary for the changelog *)
(* ================================================================== *)

Module Changelog.

(** A line that is neither blank nor a heading. *)
Definition is_body (line : string) : bool :=
  negb (String.eqb (trim line) "") && negb (startsWith "#" line).






End Changelog.

(* ================================================================== *)
(** * Vocabulary for the platform descriptor *)
(* ================================================================== *)

Module Descriptor.

Definition is_version_line (l : string) : bool :=
  String.prefix "version:" l.

(** C8 as it is worded: only the first line that starts with [version:]
    is replaced. *)
Fixpoint patch_first (lines : list string) (v : string) : list string :=
  match lines with
  | [] => []
  | l :: rest =>
      if is_version_line l then ("version: " +++ v) :: rest
      else l :: patch_first rest v
  end.

Definition replaces_first_only (content v : string) : Prop :=
  updateMtaYamlVersion content (JStr v)
  = join LF (patch_first (split LF content) v).

(** Every line that starts with [version:] is replaced. *)
Definition patch_every (lines : list string) (v : string) : list string :=
  map (fun l => if is_version_line l then "version: " +++ v else l) lines.

Fixpoint single_line (l : string) : bool :=
  match l with
  | "" => true
  | String c l' => negb (is_line_terminator c) && single_line l'
  end.

(** Something other than white space follows [version:] on the line. *)
Definition has_value (l : string) : bool :=
  negb (String.eqb (trimStart (drop 8 l)) "").

(** A line without line terminator which, when it starts with
    [version:], carries a value. *)
Definition well_formed (l : string) : bool :=
  single_line l && (negb (is_version_line l) || has_value l).

(** [version:] occurs at the start of the text, when [at_start] is set,
    or right after a line terminator of the text. *)
Fixpoint has_version_line (at_start : bool) (s : string) : bool :=
  (at_start && String.prefix "version:" s)
  || match s with
     | "" => false
     | String c s' => has_version_line (is_line_terminator c) s'
     end.

(** The position after [prev] is the start of a line. *)
Definition bol (prev : option ascii) : bool :=
  match prev with
  | None => true
  | Some c => is_line_terminator c
  end.

(** What follows a line: nothing, or a line terminator and some text. *)
Definition ends_line (more : string) : Prop :=
  more = ""
  \/ exists c r, is_line_terminator c = true /\ more = String c r.

(** The text made of the line [first] and of the lines of [rest], each
    after the line terminator it comes with. *)
Fixpoint glue (first : string) (rest : list (ascii * string)) : string :=
  match rest with
  | [] => first
  | (c, l) :: rest' => first +++ String c (glue l rest')
  end.

(** The first line of a text, and its other lines, each with the line
    terminator before it. *)
Fixpoint segments (s : string) : string * list (ascii * string) :=
  match s with
  | "" => ("", [])
  | String c s' =>
      let (first, rest) := segments s' in
      if is_line_terminator c then ("", (c, first) :: rest)
      else (String c first, rest)
  end.

(** What the patch makes of a line. *)
Definition patch_line (v l : string) : string :=
  if is_version_line l then "version: " +++ v else l.

(** A line terminator and a well-formed line. *)
Definition well_formed_after (cl : ascii * string) : bool :=
  is_line_terminator (fst cl) && well_formed (snd cl).

Definition CR : string := String (ascii_of_nat 13) "".

(** A descriptor whose lines end with CR LF. *)
Definition descriptor_crlf : string :=
  "ID: app" +++ CR +++ LF +++ "version: 1.0.0" +++ CR +++ LF
  +++ "modules:" +++ CR +++ LF +++ "version:   0.1.0".

(** What the replacement makes of the text [more] that follows a line. *)
Definition rest_of_text (repl more : string) : string :=
  match more with
  | "" => ""
  | String c r =>
      String c (replace_global_go true mtaVersionRegex repl "" (Some c) r 0)
  end.

Definition two_versions : string :=
  "version: 1.0.0" +++ LF +++ "modules:" +++ LF +++ "version: 0.1.0".

Definition descriptor : list string :=
  ["ID: app"; "version: 1.0.0"; "modules:"; " - name: srv"; "version:   0.1.0"].

End Descriptor.

(* ================================================================== *)
(** * Vocabulary for the version in the branch name *)
(* ================================================================== *)

Module Version.

(** The characters that mean something in a pattern. *)
Definition syntax_character (c : ascii) : bool :=
  existsb (Ascii.eqb c)
    ["^"; "$"; "\"; "."; "*"; "+"; "?"; "("; ")"; "["; "]"; "{"; "}"; "|"]%char.

(** A prefix without any of them. *)
Fixpoint literal (p : string) : bool :=
  match p with
  | "" => true
  | String c p' => negb (syntax_character c) && literal p'
  end.

Definition is_digit (c : ascii) : bool := in_set false digit_ranges c.

(** What follows a non-empty run of digits at the head of [s]. *)
Definition after_digits (s : string) : option string :=
  match s with
  | "" => None
  | String c s' =>
      if is_digit c then Some (Matching.skip_set false digit_ranges s')
      else None
  end.

(** What follows a dot at the head of [s]. *)
Definition after_dot (s : string) : option string :=
  match s with
  | "" => None
  | String c s' => if Ascii.eqb "." c then Some s' else None
  end.

(** [s] is [X.Y.Z] for non-empty digit strings [X], [Y] and [Z]. *)
Definition is_version (s : string) : bool :=
  match after_digits s with
  | None => false
  | Some s1 =>
      match after_dot s1 with
      | None => false
      | Some s2 =>
          match after_digits s2 with
          | None => false
          | Some s3 =>
              match after_dot s3 with
              | None => false
              | Some s4 =>
                  match after_digits s4 with
                  | Some "" => true
                  | _ => false
                  end
              end
          end
      end
  end.

(** The group of the version pattern, as the parser builds it. *)
Definition number : regex := RPlus (RSet false digit_ranges).

Definition triple : regex :=
  RSeq (RSeq (RSeq (RSeq (RSeq REmpty number) (RChar ".")) number)
          (RChar ".")) number.

(** The pattern for a prefix that is plain text. *)
Definition anchored (p : string) : regex :=
  RSeq (RSeq (Matching.lits (RSeq REmpty RBol) p) (RGroup 1 triple)) REol.

(** The text of the pattern after the prefix. *)
Definition suffix : string := "([0-9]+\.[0-9]+\.[0-9]+)$".

(** What may follow an atom that takes no quantifier. *)
Definition no_quantifier (s : string) : bool :=
  match s with
  | "" => true
  | String c _ => negb (existsb (Ascii.eqb c) ["*"; "+"; "?"; "{"]%char)
  end.

End Version.

(* ================================================================== *)
(** * Vocabulary for what a run adds to the trace *)
(* ================================================================== *)

Module Run.

(** What a run from [s] to [s'] added to the trace. *)
Definition added (s s' : state) : trace :=
  skipn (List.length (st_trace s)) (st_trace s').

(** The commands given to [execSync], in the order of the calls. *)
Fixpoint commands (t : trace) : list string :=
  match t with
  | [] => []
  | EExecSync command _ :: rest => command :: commands rest
  | _ :: rest => commands rest
  end.

(** Not a deletion that was carried out. *)
Definition keeps_branches (e : event) : Prop :=
  match e with
  | EDelete _ (inr _) => False
  | _ => True
  end.

(** Not a deletion. *)
Definition no_deletion (e : event) : Prop :=
  match e with
  | EDelete _ _ => False
  | _ => True
  end.

(** Nothing is asked of the remote repository but to read, no file is
    renamed, every file written is one of [files] and every command is one
    of [allowed]. *)
Definition stays_local (files allowed : list string) (e : event) : Prop :=
  match e with
  | EMerge _ _ _ | EDelete _ _ | ECreateTag _ _ _
  | EUpdateFile _ _ _ _ _ _ | ECreateRelease _ _ _ _
  | EUploadReleaseAsset _ _ _ _ | ERenameSync _ _ _ => False
  | EWriteFileSync p _ _ => In p files
  | EExecSync command _ => In command allowed
  | _ => True
  end.

End Run.

(* ================================================================== *)
(** * Vocabulary for names *)
(* ================================================================== *)

Module Naming.

(** A character that a version [X.Y.Z] can have. *)
Definition version_char (c : ascii) : bool :=
  Version.is_digit c || Ascii.eqb "." c.

Fixpoint only_version_chars (s : string) : bool :=
  match s with
  | "" => true
  | String c s' => version_char c && only_version_chars s'
  end.

(** A release prefix that is plain text and has a character that no
    version has, as [release/] and [rel-] do. *)
Definition plain_prefix (p : string) : bool :=
  Version.literal p && negb (only_version_chars p).

Fixpoint all_digits (s : string) : bool :=
  match s with
  | "" => true
  | String c s' => Version.is_digit c && all_digits s'
  end.

End Naming.

(** Every run of [m] that raises has only appended to the trace, and what
    it appended satisfies [P]. *)
Definition raising {A : Type} (P : event -> Prop) (m : M A) : Prop :=
  forall s s' e, m s = (s', inl e) ->
    exists t, st_trace s' = st_trace s ++ t /\ Forall P t.

Module ScenarioFailures.
Import Scenario.

(** [calm], except that the release branch cannot be deleted. *)
Definition protected (branches : Branches) (mta : bool) : World :=
  let w := calm branches mta in {|
  w_host := w_host w;
  w_owner := w_owner w;
  w_repo := w_repo w;
  w_getBranches := w_getBranches w;
  w_getPrefixes := w_getPrefixes w;
  w_merge := w_merge w;
  w_delete := fun _ _ => inl (MkError "HttpError" "Reference is protected");
  w_createTag := w_createTag w;
  w_getFileContent := w_getFileContent w;
  w_updateFile := w_updateFile w;
  w_getContent := w_getContent w;
  w_pullsList := w_pullsList w;
  w_pullsGet := w_pullsGet w;
  w_createRelease := w_createRelease w;
  w_uploadReleaseAsset := w_uploadReleaseAsset w;
  w_existsSync := w_existsSync w;
  w_readFileSync := w_readFileSync w;
  w_readdirSync := w_readdirSync w;
  w_renameSync := w_renameSync w;
  w_writeFileSync := w_writeFileSync w;
  w_execSync := w_execSync w
|}.

(** [calm], except that the main branch refuses the merge. *)
Definition conflict (branches : Branches) (mta : bool) : World :=
  let w := calm branches mta in {|
  w_host := w_host w;
  w_owner := w_owner w;
  w_repo := w_repo w;
  w_getBranches := w_getBranches w;
  w_getPrefixes := w_getPrefixes w;
  w_merge :=
    fun t fromBranch toBranch =>
      if String.eqb toBranch (main branches)
      then inl (MkError "HttpError" "Merge conflict")
      else w_merge w t fromBranch toBranch;
  w_delete := w_delete w;
  w_createTag := w_createTag w;
  w_getFileContent := w_getFileContent w;
  w_updateFile := w_updateFile w;
  w_getContent := w_getContent w;
  w_pullsList := w_pullsList w;
  w_pullsGet := w_pullsGet w;
  w_createRelease := w_createRelease w;
  w_uploadReleaseAsset := w_uploadReleaseAsset w;
  w_existsSync := w_existsSync w;
  w_readFileSync := w_readFileSync w;
  w_readdirSync := w_readdirSync w;
  w_renameSync := w_renameSync w;
  w_writeFileSync := w_writeFileSync w;
  w_execSync := w_execSync w
|}.

End ScenarioFailures.

(** The header the handler writes above the first entry, lines 383-385. *)
Module ChangelogHeader.

Definition heading : string := "# Changelog".

Definition sentence : string :=
  "All notable changes to this project will be documented in this file.".

End ChangelogHeader.

Module ScenarioBuild.
Import Scenario.

(** [calm], except that every path asked for exists: the checkout has
    both lock files. *)
Definition both_locks (branches : Branches) : World :=
  let w := calm branches false in {|
  w_host := w_host w;
  w_owner := w_owner w;
  w_repo := w_repo w;
  w_getBranches := w_getBranches w;
  w_getPrefixes := w_getPrefixes w;
  w_merge := w_merge w;
  w_delete := w_delete w;
  w_createTag := w_createTag w;
  w_getFileContent := w_getFileContent w;
  w_updateFile := w_updateFile w;
  w_getContent := w_getContent w;
  w_pullsList := w_pullsList w;
  w_pullsGet := w_pullsGet w;
  w_createRelease := w_createRelease w;
  w_uploadReleaseAsset := w_uploadReleaseAsset w;
  w_existsSync := fun _ _ => true;
  w_readFileSync := w_readFileSync w;
  w_readdirSync := w_readdirSync w;
  w_renameSync := w_renameSync w;
  w_writeFileSync := w_writeFileSync w;
  w_execSync := w_execSync w
|}.

(** A host on which [package.json] cannot be parsed. *)
Definition no_json : Host := {|
  h_regexp_syntax := h_regexp_syntax host;
  h_regexp_outside := h_regexp_outside host;
  h_json_set_version :=
    fun _ _ => inl (MkError "SyntaxError" "Unexpected end of JSON input");
  h_json_name :=
    fun _ => inl (MkError "SyntaxError" "Unexpected end of JSON input");
  h_cwd := h_cwd host;
  h_path_join := h_path_join host;
  h_path_basename := h_path_basename host;
  h_glyph := h_glyph host
|}.

(** [calm] on that host. *)
Definition unparsable (branches : Branches) : World :=
  let w := calm branches false in {|
  w_host := no_json;
  w_owner := w_owner w;
  w_repo := w_repo w;
  w_getBranches := w_getBranches w;
  w_getPrefixes := w_getPrefixes w;
  w_merge := w_merge w;
  w_delete := w_delete w;
  w_createTag := w_createTag w;
  w_getFileContent := w_getFileContent w;
  w_updateFile := w_updateFile w;
  w_getContent := w_getContent w;
  w_pullsList := w_pullsList w;
  w_pullsGet := w_pullsGet w;
  w_createRelease := w_createRelease w;
  w_uploadReleaseAsset := w_uploadReleaseAsset w;
  w_existsSync := w_existsSync w;
  w_readFileSync := w_readFileSync w;
  w_readdirSync := w_readdirSync w;
  w_renameSync := w_renameSync w;
  w_writeFileSync := w_writeFileSync w;
  w_execSync := w_execSync w
|}.

End ScenarioBuild.

Module ScenarioService.
Import GitHubService.

Definition context : Context := {|
  ctx_ref := "refs/pull/42/merge";
  ctx_repo_owner := "o";
  ctx_repo_repo := "r";
  ctx_actor := "dev";
  ctx_organization_login := None
|}.

(** The content last written to [path], according to the log. *)
Fixpoint stored (path : string) (log : list call) (found : option string)
  : option string :=
  match log with
  | [] => found
  | CCreateOrUpdateFileContents _ _ p _ content _ _ (inr _) :: rest =>
      stored path rest (if String.eqb p path then Some content else found)
  | _ :: rest => stored path rest found
  end.

(** A line feed after every four code units. *)
Fixpoint wrapped (s : string) : string :=
  match s with
  | String a (String b (String c (String d r))) =>
      String a (String b (String c (String d (LF +++ wrapped r))))
  | _ => s
  end.

(** A repository that keeps what is written to it and gives it back in
    lines, with pull request 42 from [release/1.2.0] to [main]. *)
Definition store : Client := {|
  cl_context := context;
  cl_getInput :=
    fun name =>
      if String.eqb name "github_token" then "secret"
      else if String.eqb name "master_branch" then "main"
      else if String.eqb name "development_branch" then "develop"
      else "";
  cl_pullsGet :=
    fun _ _ _ _ pull =>
      if String.eqb pull "42" then inr ("release/1.2.0", "main")
      else inl (MkError "HttpError" "Not Found");
  cl_reposMerge := fun _ _ _ _ _ _ => inr (Some "abc123");
  cl_deleteRef := fun _ _ _ _ _ => inr tt;
  cl_createRef := fun _ _ _ _ _ _ => inr tt;
  cl_getContent :=
    fun _ log _ _ path _ =>
      match stored path log None with
      | Some content => inr (Some (wrapped content))
      | None => inl (MkError "HttpError" "Not Found")
      end;
  cl_createOrUpdateFileContents := fun _ _ _ _ _ _ _ _ _ => inr tt
|}.

End ScenarioService.

(* ================================================================== *)
(** * Facts about strings *)
(* ================================================================== *)

Lemma append_assoc (a b c : string) : (a +++ b) +++ c = a +++ b +++ c.
Proof. induction a as [| x a IH]; cbn; [reflexivity | rewrite IH; reflexivity]. Qed.

Lemma append_nil_r (a : string) : a +++ "" = a.
Proof. induction a as [| x a IH]; cbn; [reflexivity | rewrite IH; reflexivity]. Qed.

Lemma length_app (a b : string) :
  String.length (a +++ b) = String.length a + String.length b.
Proof. induction a as [| c a IH]; cbn; [reflexivity | rewrite IH; reflexivity]. Qed.

(* ================================================================== *)
(** * Facts about matching *)
(* ================================================================== *)

Section MatchingFacts.
Import Matching.
Variable multiline : bool.

Lemma repeat_greedy_ext body k1 k2 :
  (forall x h1 h2, (forall y, h1 y = h2 y) -> body x h1 = body x h2) ->
  (forall y, k1 y = k2 y) ->
  forall fuel x, repeat_greedy body k1 fuel x = repeat_greedy body k2 fuel x.
Proof.
  intros Hb Hk fuel. induction fuel as [| fuel IH]; intros x;
    cbn [repeat_greedy].
  - apply Hk.
  - rewrite (Hb x (fun y => if progress x y
                            then repeat_greedy body k1 fuel y else None)
               (fun y => if progress x y
                         then repeat_greedy body k2 fuel y else None)).
    + rewrite Hk. reflexivity.
    + intros y. destruct (progress x y); [apply IH | reflexivity].
Qed.

Lemma rmatch_ext r :
  forall x k1 k2, (forall y, k1 y = k2 y) ->
    rmatch multiline r x k1 = rmatch multiline r x k2.
Proof.
  induction r; intros x k1 k2 Hk; cbn [rmatch].
  - apply Hk.
  - destruct (ms_rest x); [reflexivity |].
    destruct (Ascii.eqb c a); [apply Hk | reflexivity].
  - destruct (ms_rest x); [reflexivity |].
    destruct (in_set neg rs a); [apply Hk | reflexivity].
  - destruct (at_bol multiline x); [apply Hk | reflexivity].
  - destruct (at_eol multiline x); [apply Hk | reflexivity].
  - apply IHr1. intros y. apply IHr2. exact Hk.
  - rewrite (IHr1 x k1 k2 Hk), (IHr2 x k1 k2 Hk). reflexivity.
  - apply repeat_greedy_ext; [| exact Hk].
    intros y h1 h2 Hh. apply IHr. exact Hh.
  - apply IHr. intros y. apply repeat_greedy_ext; [| exact Hk].
    intros z h1 h2 Hh. apply IHr. exact Hh.
  - rewrite (IHr (forget (groups r) x)
               (fun y => if progress x y then k1 y else None)
               (fun y => if progress x y then k2 y else None)).
    + rewrite Hk. reflexivity.
    + intros y. destruct (progress x y); [apply Hk | reflexivity].
  - apply IHr. intros y. apply Hk.
Qed.

Lemma rmatch_lits p :
  forall r0 x k,
    rmatch multiline (lits r0 p) x k
    = rmatch multiline r0 x
        (fun y => match eat p y with Some z => k z | None => None end).
Proof.
  induction p as [| c p IH]; intros r0 x k; cbn [lits eat].
  - apply rmatch_ext. reflexivity.
  - rewrite IH. cbn [rmatch]. apply rmatch_ext. intros y.
    destruct (ms_rest y) as [| d s']; [reflexivity |].
    destruct (Ascii.eqb c d); reflexivity.
Qed.

Lemma prefix_cons c d p s :
  String.prefix (String c p) (String d s)
  = Ascii.eqb c d && String.prefix p s.
Proof.
  cbn. destruct (ascii_dec c d) as [-> | N].
  - rewrite Ascii.eqb_refl. reflexivity.
  - apply Ascii.eqb_neq in N. rewrite N. reflexivity.
Qed.

Lemma eat_prefix p :
  forall prev s caps,
    eat p (MState prev s caps)
    = if String.prefix p s
      then Some (MState (last_of p prev) (drop (String.length p) s) caps)
      else None.
Proof.
  induction p as [| c p IH]; intros prev s caps.
  - destruct s; reflexivity.
  - destruct s as [| d s]; [reflexivity |].
    rewrite prefix_cons. cbn [eat ms_rest ms_caps].
    destruct (Ascii.eqb c d) eqn:E; [| reflexivity].
    apply Ascii.eqb_eq in E. subst d.
    rewrite IH. reflexivity.
Qed.

Lemma forget_nil x : forget [] x = x.
Proof.
  destruct x as [prev rest caps]. unfold forget. cbn. f_equal.
  induction caps as [| kv caps IH]; [reflexivity |].
  cbn. rewrite IH. reflexivity.
Qed.

Lemma set_body_rmatch neg rs :
  set_body neg rs (fun y => rmatch multiline (RSet neg rs) (forget [] y)).
Proof. intros y h. rewrite forget_nil. reflexivity. Qed.

(** A greedy repetition of a set, when what follows accepts the position
    after the longest run. *)
Lemma repeat_set_accepts neg rs body k z :
  set_body neg rs body ->
  forall s prev caps fuel,
    String.length s < fuel ->
    k (span_state neg rs (MState prev s caps)) = Some z ->
    repeat_greedy body k fuel (MState prev s caps) = Some z.
Proof.
  intros Hb. induction s as [| c s IH]; intros prev caps fuel Hf Hk.
  - destruct fuel; [exact Hk |]. cbn [repeat_greedy]. rewrite Hb. exact Hk.
  - destruct fuel as [| fuel]; [inversion Hf |].
    cbn [repeat_greedy]. rewrite Hb. cbn [ms_rest ms_caps].
    unfold span_state in Hk. cbn [span ms_prev ms_rest ms_caps] in Hk.
    destruct (in_set neg rs c).
    + unfold progress. cbn [ms_rest String.length].
      rewrite (proj2 (Nat.ltb_lt _ _) (Nat.lt_succ_diag_r _)).
      rewrite (IH (Some c) caps fuel); [reflexivity | | exact Hk].
      cbn in Hf. lia.
    + exact Hk.
Qed.

(** The same, when what follows refuses every position that a member of
    the set follows. *)
Lemma repeat_set_refuses neg rs body k :
  set_body neg rs body ->
  (forall y, match ms_rest y with
             | String c _ => in_set neg rs c = true -> k y = None
             | "" => True
             end) ->
  forall s prev caps fuel,
    k (span_state neg rs (MState prev s caps)) = None ->
    repeat_greedy body k fuel (MState prev s caps) = None.
Proof.
  intros Hb Hr. induction s as [| c s IH]; intros prev caps fuel Hk.
  - destruct fuel; [exact Hk |]. cbn [repeat_greedy]. rewrite Hb. exact Hk.
  - destruct fuel as [| fuel].
    + cbn [repeat_greedy].
      unfold span_state in Hk. cbn [span ms_prev ms_rest ms_caps] in Hk.
      destruct (in_set neg rs c) eqn:E; [| exact Hk].
      exact (Hr (MState prev (String c s) caps) E).
    + cbn [repeat_greedy]. rewrite Hb. cbn [ms_rest ms_caps].
      unfold span_state in Hk. cbn [span ms_prev ms_rest ms_caps] in Hk.
      destruct (in_set neg rs c) eqn:E.
      * unfold progress. cbn [ms_rest String.length].
        rewrite (proj2 (Nat.ltb_lt _ _) (Nat.lt_succ_diag_r _)).
        rewrite (IH (Some c) caps fuel Hk).
        exact (Hr (MState prev (String c s) caps) E).
      * exact Hk.
Qed.

(** With such a continuation the repetition is decided by the longest
    run. *)
Lemma repeat_set_exact neg rs body k :
set_body neg rs body ->
refuses neg rs k ->
forall s prev caps fuel,
  String.length s < fuel ->
  repeat_greedy body k fuel (MState prev s caps)
  = k (span_state neg rs (MState prev s caps)).
Proof.
intros Hb Hr s prev caps fuel Hf.
destruct (k (span_state neg rs (MState prev s caps))) as [z |] eqn:E.
- exact (repeat_set_accepts neg rs body k z Hb s prev caps fuel Hf E).
- exact (repeat_set_refuses neg rs body k Hb Hr s prev caps fuel E).
Qed.

End MatchingFacts.

Section AnchoredLiteral.
Import Matching.

(** A pattern made of [^] and literal text. *)
Lemma attempt_anchored multiline p prev s :
  attempt multiline (lits (RSeq REmpty RBol) p) prev s
  = if at_bol multiline (MState prev s []) && String.prefix p s
    then Some (MState (last_of p prev) (drop (String.length p) s) [])
    else None.
Proof.
  unfold attempt. rewrite rmatch_lits. cbn [rmatch].
  destruct (at_bol multiline (MState prev s [])); [| reflexivity].
  rewrite eat_prefix. cbn [andb].
  destruct (String.prefix p s); reflexivity.
Qed.

Lemma exec_from_anchored_later p :
  forall s c i, exec_from false (lits (RSeq REmpty RBol) p) (Some c) s i = None.
Proof.
  induction s as [| d s IH]; intros c i; cbn [exec_from];
    rewrite attempt_anchored; cbn [at_bol ms_prev andb].
  - reflexivity.
  - apply IH.
Qed.

Lemma length_drop_prefix p :
  forall s, String.prefix p s = true ->
    String.length s - String.length (drop (String.length p) s)
    = String.length p.
Proof.
  induction p as [| c p IH]; intros s H.
  - cbn. lia.
  - destruct s as [| d s]; [discriminate H |].
    rewrite prefix_cons in H. apply andb_prop in H. destruct H as [_ H].
    cbn [String.length drop]. specialize (IH s H).
    assert (String.length (drop (String.length p) s) <= String.length s).
    { clear. revert s. induction (String.length p) as [| n IHn]; intros s.
      - destruct s; cbn; lia.
      - destruct s as [| e s]; cbn; [lia |]. specialize (IHn s). lia. }
    lia.
Qed.

(** Removing the text matched by [/^p/], for a replacement without [$]. *)
Lemma replace_first_anchored p s :
  replace_first false (lits (RSeq REmpty RBol) p) "" s = stripPrefix p s.
Proof.
  unfold replace_first, stripPrefix.
  destruct s as [| d s]; cbn [exec_from]; rewrite attempt_anchored;
    cbn [at_bol ms_prev andb].
  - destruct (String.prefix p ""); reflexivity.
  - destruct (String.prefix p (String d s)); [reflexivity |].
    rewrite exec_from_anchored_later. reflexivity.
Qed.

End AnchoredLiteral.

Section Spans.
Import Matching.

Lemma span_rest neg rs s :
  forall prev, snd (span neg rs prev s) = skip_set neg rs s.
Proof.
  induction s as [| c s IH]; intros prev; cbn [span skip_set].
  - reflexivity.
  - destruct (in_set neg rs c); [apply IH | reflexivity].
Qed.

Lemma span_state_rest neg rs x :
  ms_rest (span_state neg rs x) = skip_set neg rs (ms_rest x).
Proof.
  unfold span_state. rewrite <- (span_rest neg rs (ms_rest x) (ms_prev x)).
  destruct (span neg rs (ms_prev x) (ms_rest x)). reflexivity.
Qed.

Lemma span_state_caps neg rs x :
  ms_caps (span_state neg rs x) = ms_caps x.
Proof.
  unfold span_state.
  destruct (span neg rs (ms_prev x) (ms_rest x)). reflexivity.
Qed.

Lemma skip_set_length neg rs s :
  String.length (skip_set neg rs s) <= String.length s.
Proof.
  induction s as [| c s IH]; cbn [skip_set]; [lia |].
  destruct (in_set neg rs c); cbn [String.length]; lia.
Qed.

Lemma in_space_ranges c : in_set false space_ranges c = is_white_space c.
Proof.
  destruct c as [[] [] [] [] [] [] [] []]; reflexivity.
Qed.

Lemma in_dot c :
  in_set true [(ch 10, ch 10); (ch 13, ch 13)] c = negb (is_line_terminator c).
Proof.
  destruct c as [[] [] [] [] [] [] [] []]; reflexivity.
Qed.

Lemma skip_space s : skip_set false space_ranges s = trimStart s.
Proof.
  induction s as [| c s IH]; cbn [skip_set trimStart]; [reflexivity |].
  rewrite in_space_ranges. destruct (is_white_space c); [apply IH | reflexivity].
Qed.

(** A star of a set followed by a star of a set, with nothing after. *)
Lemma two_stars multiline neg1 rs1 neg2 rs2 x :
  rmatch multiline (RStar (RSet neg1 rs1)) x
    (fun y => rmatch multiline (RStar (RSet neg2 rs2)) y (fun z => Some z))
  = Some (span_state neg2 rs2 (span_state neg1 rs1 x)).
Proof.
  destruct x as [prev s caps]. cbn [rmatch groups ms_rest].
  eapply repeat_set_accepts;
    [apply (set_body_rmatch multiline neg1 rs1) | lia |].
  destruct (span_state neg1 rs1 (MState prev s caps)) as [p1 s1 c1].
  cbn [ms_rest].
  eapply repeat_set_accepts;
    [apply (set_body_rmatch multiline neg2 rs2) | lia | reflexivity].
Qed.
End Spans.

(* ================================================================== *)
(** * The pattern of the descriptor's version line *)
(* ================================================================== *)

Section VersionLine.
Import Matching.

Lemma mtaVersionRegex_shape :
  mtaVersionRegex
  = RSeq (RSeq (lits (RSeq REmpty RBol) "version:")
            (RStar (RSet false space_ranges)))
      (RStar dot).
Proof. reflexivity. Qed.

(** An attempt succeeds exactly at the start of a line that begins with
    [version:], and passes over the white space after it and then over
    the rest of the line reached. *)
Lemma attempt_version prev s :
  attempt true mtaVersionRegex prev s
  = if at_bol true (MState prev s []) && String.prefix "version:" s
    then Some (span_state true [(ch 10, ch 10); (ch 13, ch 13)]
                 (span_state false space_ranges
                    (MState (Some ":"%char) (drop 8 s) [])))
    else None.
Proof.
  unfold attempt. rewrite mtaVersionRegex_shape.
  cbn [rmatch]. rewrite rmatch_lits. cbn [rmatch].
  destruct (at_bol true (MState prev s [])); [| reflexivity].
  rewrite eat_prefix. cbn [andb].
  destruct (String.prefix "version:" s); [| reflexivity].
  cbn [last_of String.length].
  apply (two_stars true false space_ranges true
           [(ch 10, ch 10); (ch 13, ch 13)]).
Qed.

Lemma attempt_version_rest prev s y :
  attempt true mtaVersionRegex prev s = Some y ->
  ms_rest y
  = skip_set true [(ch 10, ch 10); (ch 13, ch 13)] (trimStart (drop 8 s)).
Proof.
  rewrite attempt_version.
  destruct (at_bol true (MState prev s []) && String.prefix "version:" s);
    [| discriminate].
  intros H. inversion H. subst y.
  rewrite span_state_rest, span_state_rest. cbn [ms_rest].
  rewrite skip_space. reflexivity.
Qed.
End VersionLine.

(* ================================================================== *)
(** * The version pattern for a prefix that is plain text *)
(* ================================================================== *)

Section VersionPattern.
Import Matching Version.

Lemma quantifier_none a s :
  no_quantifier s = true -> quantifier a s = POk (a, s).
Proof.
  destruct s as [| c s]; [reflexivity |].
  destruct c as [[] [] [] [] [] [] [] []]; try reflexivity; discriminate.
Qed.

Lemma parse_literal c s f n seq alts :
  syntax_character c = false ->
  parse_disjunction (S f) (String c s) n seq alts
  = pbind (quantifier (RChar c) s) (fun '(q, rest') =>
      parse_disjunction f rest' n (RSeq seq q) alts).
Proof.
  destruct c as [[] [] [] [] [] [] [] []]; try reflexivity; discriminate.
Qed.

Lemma literal_no_quantifier c s :
  syntax_character c = false -> no_quantifier (String c s) = true.
Proof.
  destruct c as [[] [] [] [] [] [] [] []]; try reflexivity; discriminate.
Qed.

(** A run of plain characters is read as a sequence of literals. *)
Lemma parse_literals q :
  forall f n seq alts rest,
    literal q = true -> no_quantifier rest = true ->
    parse_disjunction (String.length q + f) (q +++ rest) n seq alts
    = parse_disjunction f rest n (lits seq q) alts.
Proof.
  induction q as [| c q IH]; intros f n seq alts rest Hq Hr; [reflexivity |].
  cbn [literal] in Hq. apply andb_prop in Hq. destruct Hq as [Hc Hq].
  apply negb_true_iff in Hc.
  cbn [String.length String.append Nat.add lits].
  rewrite parse_literal by exact Hc.
  rewrite quantifier_none.
  - cbn [pbind]. apply IH; assumption.
  - destruct q as [| d q]; [exact Hr |].
    cbn [literal] in Hq. apply andb_prop in Hq. destruct Hq as [Hd _].
    apply negb_true_iff in Hd. cbn [String.append].
    apply literal_no_quantifier. exact Hd.
Qed.

Lemma parse_escaped_slash rest f n seq alts :
  no_quantifier rest = true ->
  parse_disjunction (S f) ("\/" +++ rest) n seq alts
  = parse_disjunction f rest n (RSeq seq (RChar "/")) alts.
Proof.
  intros H.
  change (parse_disjunction (S f) ("\/" +++ rest) n seq alts)
    with (pbind (quantifier (RChar "/") rest) (fun '(q, rest') =>
            parse_disjunction f rest' n (RSeq seq q) alts)).
  rewrite quantifier_none by exact H. reflexivity.
Qed.

Lemma parse_suffix k seq :
  parse_disjunction (26 + k) suffix 0 seq None
  = POk (RSeq (RSeq seq (RGroup 1 triple)) REol, "", 1).
Proof. reflexivity. Qed.

Lemma lits_app a :
  forall seq b, lits seq (a +++ b) = lits (lits seq a) b.
Proof.
  induction a as [| c a IH]; intros seq b; [reflexivity |].
  cbn [String.append lits]. apply IH.
Qed.

(** The prefix is [a/b] with no slash in [a], or has no slash. *)
Lemma escape_shape p :
  forall before,
    replace_str_go "/" "\/" before p = p
    \/ exists a b,
         p = a +++ "/" +++ b
         /\ replace_str_go "/" "\/" before p = a +++ "\/" +++ b.
Proof.
  induction p as [| c p IH]; intros before.
  - left. reflexivity.
  - cbn [replace_str_go]. rewrite prefix_cons.
    destruct (Ascii.eqb "/" c) eqn:E.
    + apply Ascii.eqb_eq in E. subst c. right. exists "", p.
      split; [reflexivity |]. destruct p; reflexivity.
    + cbn [andb].
      destruct (IH (before +++ String c "")) as [-> | (a & b & -> & ->)].
      * left. reflexivity.
      * right. exists (String c a), b. split; reflexivity.
Qed.

Lemma literal_app a b :
  literal (a +++ b) = literal a && literal b.
Proof.
  induction a as [| c a IH]; [reflexivity |].
  cbn [String.append literal]. rewrite IH. apply andb_assoc.
Qed.

(** For a prefix that is plain text the pattern is [^], the prefix, the
    group of the version and [$]. *)
Lemma compile_literal_prefix p :
  literal p = true -> compile (versionRegex p) = POk (anchored p).
Proof.
  intros Hp. unfold compile, versionRegex, replace_str.
  cbn [String.append String.length].
  assert (Hsuf : no_quantifier suffix = true) by reflexivity.
  assert (Hstart : forall e, no_quantifier (e +++ suffix) = true ->
            parse_disjunction (S (S (String.length (e +++ suffix))))
              (String "^" (e +++ suffix)) 0 REmpty None
            = parse_disjunction (S (String.length (e +++ suffix)))
                (e +++ suffix) 0 (RSeq REmpty RBol) None).
  { intros e He. cbn [parse_disjunction].
    destruct (e +++ suffix) as [| c s]; [reflexivity |].
    destruct c as [[] [] [] [] [] [] [] []]; try reflexivity;
      discriminate He. }
  fold suffix.
  destruct (escape_shape p "") as [-> | (a & b & Hab & ->)].
  - rewrite Hstart.
    2:{ destruct p as [| c p]; [reflexivity |].
        cbn [literal] in Hp. apply andb_prop in Hp. destruct Hp as [Hc _].
        apply negb_true_iff in Hc. apply literal_no_quantifier. exact Hc. }
    rewrite length_app.
    replace (S (String.length p + String.length suffix))
      with (String.length p + (26 + 0)) by (cbn; lia).
    rewrite parse_literals by assumption.
    rewrite parse_suffix. reflexivity.
  - subst p. rewrite literal_app in Hp. apply andb_prop in Hp.
    destruct Hp as [Ha Hb]. cbn [String.append literal] in Hb.
    apply andb_prop in Hb. destruct Hb as [_ Hb].
    assert (Hbs : no_quantifier (b +++ suffix) = true).
    { destruct b as [| c b]; [reflexivity |].
      cbn [literal] in Hb. apply andb_prop in Hb. destruct Hb as [Hc _].
      apply negb_true_iff in Hc. apply literal_no_quantifier. exact Hc. }
    rewrite Hstart.
    2:{ destruct a as [| c a]; [reflexivity |].
        cbn [literal] in Ha. apply andb_prop in Ha. destruct Ha as [Hc _].
        apply negb_true_iff in Hc. apply literal_no_quantifier. exact Hc. }
    rewrite append_assoc.
    change (("\/" +++ b) +++ suffix)
      with (String "\" (String "/" (b +++ suffix))).
    rewrite length_app. cbn [String.length]. rewrite length_app.
    replace (S (String.length a
                + S (S (String.length b + String.length suffix))))
      with (String.length a + S (String.length b + (26 + 1)))
      by (cbn; lia).
    rewrite (parse_literals a _ 0 _ None
               (String "\" (String "/" (b +++ suffix))))
      by (assumption || reflexivity).
    rewrite (parse_escaped_slash (b +++ suffix)) by exact Hbs.
    rewrite parse_literals by assumption.
    rewrite parse_suffix.
    unfold anchored.
    rewrite lits_app. cbn [String.append lits]. reflexivity.
Qed.
End VersionPattern.

Section VersionMatch.
Import Matching Version.

Lemma span_state_eq neg rs prev s caps :
  span_state neg rs (MState prev s caps)
  = MState (fst (span neg rs prev s)) (skip_set neg rs s) caps.
Proof.
  unfold span_state. cbn [ms_prev ms_rest ms_caps].
  rewrite <- (span_rest neg rs s prev).
  destruct (span neg rs prev s). reflexivity.
Qed.

(** A number, when what follows refuses a digit. *)
Lemma rmatch_number multiline prev s caps k :
  refuses false digit_ranges k ->
  rmatch multiline number (MState prev s caps) k
  = match s with
    | "" => None
    | String c s' =>
        if is_digit c
        then k (MState (fst (span false digit_ranges (Some c) s'))
                  (skip_set false digit_ranges s') caps)
        else None
    end.
Proof.
  intros Hk. unfold number. cbn [rmatch groups]. rewrite forget_nil.
  cbn [ms_rest ms_caps]. destruct s as [| c s']; [reflexivity |].
  unfold is_digit. destruct (in_set false digit_ranges c); [| reflexivity].
  cbn [ms_rest].
  rewrite (repeat_set_exact false digit_ranges _ k
             (set_body_rmatch multiline false digit_ranges) Hk)
    by (apply Nat.lt_succ_diag_r).
  rewrite span_state_eq. reflexivity.
Qed.

Lemma digit_not_dot c : is_digit c = true -> Ascii.eqb "." c = false.
Proof.
  destruct c as [[] [] [] [] [] [] [] []]; try reflexivity; discriminate.
Qed.

Lemma dot_refuses_digit multiline k :
  refuses false digit_ranges (fun y => rmatch multiline (RChar ".") y k).
Proof.
  intros [prev [| c r] caps]; [exact I |]. cbn [ms_rest rmatch]. intros Hc.
  rewrite (digit_not_dot c Hc). reflexivity.
Qed.

Lemma take_all s : take (String.length s) s = s.
Proof. induction s as [| c s IH]; cbn; [reflexivity | rewrite IH; reflexivity]. Qed.

Lemma eol_refuses neg rs x :
  refuses neg rs (fun y =>
    rmatch false REol
      (MState (ms_prev y) (ms_rest y) ((1, consumed x y) :: ms_caps y))
      (fun z => Some z)).
Proof. intros [prev [| c r] caps]; [exact I | intros _; reflexivity]. Qed.

Ltac refuse_digit :=
  let Hc := fresh "Hc" in
  intros [? [| ? ?] ?];
  [exact I
  | cbn [ms_rest]; intros Hc;
    first [rewrite (digit_not_dot _ Hc); reflexivity | reflexivity]].

(** The group of the version, followed by the end of the input. *)
Lemma match_triple prev s :
  match rmatch false (RGroup 1 triple) (MState prev s [])
          (fun z => rmatch false REol z (fun y => Some y))
  with
  | Some y => is_version s = true /\ ms_caps y = [(1, s)]
  | None => is_version s = false
  end.
Proof.
  unfold triple, is_version, after_digits, after_dot. cbn [rmatch].
  rewrite rmatch_number by refuse_digit.
  destruct s as [| c1 s1]; [reflexivity |].
  destruct (is_digit c1); [| reflexivity].
  cbn [rmatch ms_rest ms_caps].
  destruct (skip_set false digit_ranges s1) as [| d1 r1]; [reflexivity |].
  destruct (Ascii.eqb "." d1); [| reflexivity].
  rewrite rmatch_number by refuse_digit.
  destruct r1 as [| c2 s2]; [reflexivity |].
  destruct (is_digit c2); [| reflexivity].
  cbn [rmatch ms_rest ms_caps].
  destruct (skip_set false digit_ranges s2) as [| d2 r2]; [reflexivity |].
  destruct (Ascii.eqb "." d2); [| reflexivity].
  rewrite rmatch_number by refuse_digit.
  destruct r2 as [| c3 s3]; [reflexivity |].
  destruct (is_digit c3); [| reflexivity].
  cbn [rmatch ms_rest ms_caps ms_prev at_eol andb].
  destruct (skip_set false digit_ranges s3) as [| d3 r3]; [| reflexivity].
  split; [reflexivity |]. cbn [ms_caps]. unfold consumed. cbn [ms_rest].
  rewrite Nat.sub_0_r.
  rewrite (take_all (String c1 s1)). reflexivity.
Qed.

Lemma attempt_anchored_version p prev s :
  attempt false (anchored p) prev s
  = if at_bol false (MState prev s []) && String.prefix p s
    then rmatch false (RGroup 1 triple)
           (MState (last_of p prev) (drop (String.length p) s) [])
           (fun z => rmatch false REol z (fun y => Some y))
    else None.
Proof.
  unfold attempt, anchored. cbn [rmatch]. rewrite rmatch_lits. cbn [rmatch].
  destruct (at_bol false (MState prev s [])); [| reflexivity].
  rewrite eat_prefix. cbn [andb].
  destruct (String.prefix p s); reflexivity.
Qed.

Lemma exec_from_anchored_version_later p :
  forall s c i, exec_from false (anchored p) (Some c) s i = None.
Proof.
  induction s as [| d s IH]; intros c i; cbn [exec_from];
    rewrite attempt_anchored_version; cbn [at_bol ms_prev andb].
  - reflexivity.
  - apply IH.
Qed.

(** The match of the pattern of a plain prefix. *)
Lemma match_anchored p b :
  match_ false (anchored p) b
  = if String.prefix p b && is_version (drop (String.length p) b)
    then Some [(1, drop (String.length p) b)]
    else None.
Proof.
  unfold match_.
  assert (H : exec_from false (anchored p) None b 0
              = match attempt false (anchored p) None b with
                | Some y => Some (0, b, y)
                | None => None
                end).
  { destruct b as [| c b]; cbn [exec_from];
      destruct (attempt false (anchored p) None _); try reflexivity.
    apply exec_from_anchored_version_later. }
  rewrite H, attempt_anchored_version. cbn [at_bol ms_prev andb].
  destruct (String.prefix p b); [| reflexivity]. cbn [andb].
  pose proof (match_triple (last_of p None) (drop (String.length p) b)) as Ht.
  destruct (rmatch false (RGroup 1 triple) _ _) as [y |].
  - destruct Ht as [-> ->]. reflexivity.
  - rewrite Ht. reflexivity.
Qed.

(** For a release prefix without pattern characters the extraction does
    what C1 says: the branch names [p ++ X.Y.Z] give [X.Y.Z], every other
    branch name is refused. *)
Lemma extractVersion_literal_prefix (h : Host) (p b : string) :
  literal p = true ->
  extractVersionFromBranch h b p
  = if String.prefix p b && is_version (drop (String.length p) b)
    then inr (JStr (drop (String.length p) b))
    else inl (no_match b).
Proof.
  intros Hp. unfold extractVersionFromBranch.
  rewrite (compile_literal_prefix p Hp), match_anchored.
  destruct (String.prefix p b && is_version (drop (String.length p) b));
    reflexivity.
Qed.
End VersionMatch.

(** C1.  The release prefix is read as a pattern, not as text.  With the
    prefix [rel.], the branch [rel/1.2.3], which does not start with the
    prefix, yields the version [1.2.3]; with the prefix [release+], the
    branch [release+1.2.3], which is the prefix followed by a version, is
    refused.  The other readers of the prefix take it as text: the release
    predicate finds it in the second branch and not in the first. *)
Theorem extractVersion_reads_prefix_as_pattern (h : Host) :
  extractVersionFromBranch h "rel/1.2.3" "rel." = inr (JStr "1.2.3")
  /\ String.prefix "rel." "rel/1.2.3" = false
  /\ extractVersionFromBranch h "release+1.2.3" "release+"
     = inl (no_match "release+1.2.3")
  /\ "release+1.2.3" = "release+" +++ "1.2.3"
  /\ includes "rel." "rel/1.2.3" = false
  /\ includes "release+" "release+1.2.3" = true.
Proof. repeat split. Qed.

(* ================================================================== *)
(** * Runs of the monad *)
(* ================================================================== *)

Section Runs.
Context {A B : Type}.

Lemma bind_ok_intro (m : M A) (f : A -> M B) s s' a :
  m s = (s', inr a) -> bind m f s = f a s'.
Proof. intros H. unfold bind. rewrite H. reflexivity. Qed.

Lemma bind_fail_intro (m : M A) (f : A -> M B) s s' e :
  m s = (s', inl e) -> bind m f s = (s', inl e).
Proof. intros H. unfold bind. rewrite H. reflexivity. Qed.

Lemma bind_inv (m : M A) (f : A -> M B) s s'' r :
  bind m f s = (s'', r) ->
  (exists e, m s = (s'', inl e) /\ r = inl e) \/
  (exists s' a, m s = (s', inr a) /\ f a s' = (s'', r)).
Proof.
  unfold bind. destruct (m s) as [s' [e | a]]; intros H.
  - left. exists e. inversion H. subst. split; reflexivity.
  - right. exists s', a. split; [reflexivity | exact H].
Qed.

Lemma bind_ok (m : M A) (f : A -> M B) s s'' b :
  bind m f s = (s'', inr b) ->
  exists s' a, m s = (s', inr a) /\ f a s' = (s'', inr b).
Proof.
  intros H. destruct (bind_inv _ _ _ _ _ H) as [(e & _ & He) | H'].
  - discriminate He.
  - exact H'.
Qed.

Lemma try_catch_ok_intro (m : M A) (h : error -> M A) s s' a :
  m s = (s', inr a) -> try_catch m h s = (s', inr a).
Proof. intros H. unfold try_catch. rewrite H. reflexivity. Qed.

Lemma try_catch_fail_intro (m : M A) (h : error -> M A) s s' e :
  m s = (s', inl e) -> try_catch m h s = h e s'.
Proof. intros H. unfold try_catch. rewrite H. reflexivity. Qed.

Lemma call_ok (answer : trace -> error + A) ev s a :
  answer (st_trace s) = inr a -> call answer ev s = (record (ev (inr a)) s, inr a).
Proof. intros H. unfold call. rewrite H. reflexivity. Qed.

Lemma call_fail (answer : trace -> error + A) ev s e :
  answer (st_trace s) = inl e -> call answer ev s = (record (ev (inl e)) s, inl e).
Proof. intros H. unfold call. rewrite H. reflexivity. Qed.

Lemma call_total_run (answer : trace -> A) ev s :
  call_total answer ev s
  = (record (ev (answer (st_trace s))) s, inr (answer (st_trace s))).
Proof. reflexivity. Qed.
End Runs.

Lemma call_inv {A : Type} (answer : trace -> error + A) ev s s' r :
  call answer ev s = (s', r) ->
  answer (st_trace s) = r /\ s' = record (ev r) s.
Proof. unfold call. intros H. inversion H. subst. split; reflexivity. Qed.

Lemma info_run msg s : info msg s = (record (EInfo msg) s, inr tt).
Proof. reflexivity. Qed.

Lemma lift_run {A : Type} (r : error + A) s : lift r s = (s, r).
Proof. reflexivity. Qed.

Lemma ret_run {A : Type} (a : A) s : ret a s = (s, inr a).
Proof. reflexivity. Qed.

Lemma throw_run {A : Type} (e : error) s : @throw A e s = (s, inl e).
Proof. reflexivity. Qed.

(** One statement of a block ran and did not raise. *)
Ltac ran lem := erewrite bind_ok_intro by (first [apply lem | eapply lem; eassumption]).
Ltac logged := erewrite bind_ok_intro by apply info_run.

(* ================================================================== *)
(** * The scenarios, run *)
(* ================================================================== *)

Example tag_of_release_2_3_0 :
  Release.getTagName "release/2.3.0" "release/" "v" = "v2.3.0".
Proof. reflexivity. Qed.

Example release_1_2_0_returns_main_commit :
  snd (Release.handle (Scenario.calm Scenario.release_1_2_0 false) initial)
  = inr "sha-main"
  /\ st_releaseFilePath
       (fst (Release.handle (Scenario.calm Scenario.release_1_2_0 false)
               initial))
     = "demo-v1.2.0.zip".
Proof. split; reflexivity. Qed.

Example version_of_release_1_20_3 :
  extractVersionFromBranch Scenario.host "release/1.20.3" "release/"
  = inr (JStr "1.20.3")
  /\ extractVersionFromBranch Scenario.host "release/1.20.3-rc1" "release/"
     = inl (no_match "release/1.20.3-rc1").
Proof. split; reflexivity. Qed.

(* ================================================================== *)
(** * The feature predicate *)
(* ================================================================== *)

Lemma Feature_test_run (w : World) (s : state) (b : Branches) :
  w_getBranches w (st_trace s) = inr b ->
  let s1 := record (EGetBranches (inr b)) s in
  let p := w_getPrefixes w (st_trace s1) in
  Feature.test w s
  = (record (EGetPrefixes p) s1,
     inr (includes (feature p) (current b)
          && (String.eqb (target b) "development"
              || String.eqb (target b) "quality"))).
Proof.
  intros H s1 p. unfold Feature.test.
  ran (call_ok (w_getBranches w) EGetBranches s b H).
  unfold getPrefixes. ran (call_total_run (w_getPrefixes w) EGetPrefixes).
  reflexivity.
Qed.

(** C7.  A feature branch whose pull request targets the configured
    development branch, here named [develop], is turned down: the predicate
    compares the target with the fixed names [development] and [quality],
    not with [branches.development]. *)
Theorem Feature_test_ignores_configured_development :
  let b := Scenario.feature_login in
  let w := Scenario.calm b false in
  includes (feature Scenario.prefixes) (current b) = true
  /\ target b = development b
  /\ snd (Feature.test w initial) = inr false.
Proof. repeat split. Qed.

(* ================================================================== *)
(** * What a block can add to the trace *)
(* ================================================================== *)

Section Emits.
Context (P : event -> Prop).

Lemma emits_ret {A : Type} (a : A) : emits P (ret a).
Proof.
  intros s s' r H. inversion H. subst. exists [].
  split; [symmetry; apply app_nil_r | constructor].
Qed.

Lemma emits_throw {A : Type} (e : error) : emits P (@throw A e).
Proof.
  intros s s' r H. inversion H. subst. exists [].
  split; [symmetry; apply app_nil_r | constructor].
Qed.

Lemma emits_lift {A : Type} (x : error + A) : emits P (lift x).
Proof.
  intros s s' r H. inversion H. subst. exists [].
  split; [symmetry; apply app_nil_r | constructor].
Qed.

Lemma emits_get_releaseFilePath : emits P get_releaseFilePath.
Proof.
  intros s s' r H. inversion H. subst. exists [].
  split; [symmetry; apply app_nil_r | constructor].
Qed.

Lemma emits_set_releaseFilePath p : emits P (set_releaseFilePath p).
Proof.
  intros s s' r H. inversion H. subst. exists [].
  split; [symmetry; apply app_nil_r | constructor].
Qed.

Lemma emits_info msg : P (EInfo msg) -> emits P (info msg).
Proof.
  intros HP s s' r H. inversion H. subst. exists [EInfo msg].
  split; [reflexivity | repeat constructor; exact HP].
Qed.

Lemma emits_call {A : Type} (answer : trace -> error + A) ev :
  (forall r, P (ev r)) -> emits P (call answer ev).
Proof.
  intros HP s s' r H. inversion H. subst.
  exists [ev (answer (st_trace s))].
  split; [reflexivity | repeat constructor; apply HP].
Qed.

Lemma emits_call_total {A : Type} (answer : trace -> A) ev :
  (forall r, P (ev r)) -> emits P (call_total answer ev).
Proof.
  intros HP s s' r H. inversion H. subst.
  exists [ev (answer (st_trace s))].
  split; [reflexivity | repeat constructor; apply HP].
Qed.

Lemma emits_bind {A B : Type} (m : M A) (f : A -> M B) :
  emits P m -> (forall a, emits P (f a)) -> emits P (bind m f).
Proof.
  intros Hm Hf s s'' r H.
  destruct (bind_inv _ _ _ _ _ H) as [(e & H1 & _) | (s' & a & H1 & H2)].
  - exact (Hm _ _ _ H1).
  - destruct (Hm _ _ _ H1) as (t1 & E1 & F1).
    destruct (Hf a _ _ _ H2) as (t2 & E2 & F2).
    exists (t1 ++ t2). split.
    + rewrite E2, E1. symmetry. apply app_assoc.
    + apply Forall_app. split; assumption.
Qed.

Lemma emits_try_catch {A : Type} (m : M A) (h : error -> M A) :
  emits P m -> (forall e, emits P (h e)) -> emits P (try_catch m h).
Proof.
  intros Hm Hh s s'' r H. unfold try_catch in H.
  destruct (m s) as [s' [e | a]] eqn:E.
  - destruct (Hm _ _ _ E) as (t1 & E1 & F1).
    destruct (Hh e _ _ _ H) as (t2 & E2 & F2).
    exists (t1 ++ t2). split.
    + rewrite E2, E1. symmetry. apply app_assoc.
    + apply Forall_app. split; assumption.
  - inversion H. subst. exact (Hm _ _ _ E).
Qed.
End Emits.

(** Decompose a block down to its calls. *)
Ltac emits_step :=
  lazymatch goal with
  | |- emits _ (bind _ _) => apply emits_bind; [| intros ?]
  | |- emits _ (try_catch _ _) => apply emits_try_catch; [| intros ?]
  | |- emits _ (ret _) => apply emits_ret
  | |- emits _ (throw _) => apply emits_throw
  | |- emits _ (lift _) => apply emits_lift
  | |- emits _ get_releaseFilePath => apply emits_get_releaseFilePath
  | |- emits _ (set_releaseFilePath _) => apply emits_set_releaseFilePath
  | |- emits _ (info _) => apply emits_info; exact I
  | |- emits _ (call _ _) => apply emits_call; intros ?; exact I
  | |- emits _ (call_total _ _) => apply emits_call_total; intros ?; exact I
  | |- emits _ (if ?b then _ else _) => destruct b
  | |- emits _ (match ?x with _ => _ end) => destruct x
  end.

Ltac emits_calls :=
  unfold getBranches, getPrefixes, github_createTag, getFileContent,
    updateFile, repos_getContent, pulls_list, pulls_get, repos_createRelease,
    repos_uploadReleaseAsset, existsSync, readFileSync, readdirSync,
    renameSync, writeFileSync, execSync;
  repeat emits_step.

Section Quiet.
Context (w : World).

Lemma quiet_getPRInfo branch : emits quiet (Release.getPRInfo w branch).
Proof.
  unfold Release.getPRInfo. apply emits_bind; [emits_calls | intros _].
  generalize (Release.branchFormats w branch) as formats.
  induction formats as [| f rest IH]; cbn [Release.searchFormats].
  - emits_calls.
  - apply emits_bind.
    + unfold Release.searchFormat_caught, Release.searchFormat. emits_calls.
    + intros [i |]; [emits_calls | exact IH].
Qed.

Lemma quiet_updateMtaYaml version branch :
  emits quiet (Release.updateMtaYaml w version branch).
Proof.
  unfold Release.updateMtaYaml, Release.updateMtaYaml_try, Release.getFileSha.
  emits_calls.
Qed.

Lemma quiet_getProjectName : emits quiet (Release.getProjectName w).
Proof. unfold Release.getProjectName. emits_calls. Qed.

Lemma quiet_updateVersionFiles b p :
  emits quiet (Release.updateVersionFiles w b p).
Proof.
  unfold Release.updateVersionFiles, Release.updatePackageJson,
    Release.getFileSha.
  emits_calls.
Qed.

Lemma quiet_createOrUpdateChangelog version branch :
  emits quiet (Release.createOrUpdateChangelog w version branch).
Proof.
  unfold Release.createOrUpdateChangelog, Release.createOrUpdateChangelog_try.
  apply emits_try_catch; [| intros ?; emits_calls].
  apply emits_bind; [emits_calls | intros _].
  apply emits_bind; [apply quiet_getPRInfo | intros i].
  unfold Release.commitChangelog. emits_calls.
Qed.

Lemma quiet_createTag b p sha : emits quiet (Release.createTag w b p sha).
Proof. unfold Release.createTag. emits_calls. Qed.

Lemma quiet_buildProject version projectName b :
  emits quiet (Release.buildProject w version projectName b).
Proof.
  unfold Release.buildProject, Release.buildProject_run,
    Release.installDependencies, Release.runBuild,
    Release.buildProject_mta, Release.buildProject_standard,
    Release.buildProject_package.
  apply emits_try_catch; [| intros ?; emits_calls].
  apply emits_bind; [emits_calls | intros _].
  apply emits_bind; [emits_calls | intros mta].
  apply emits_bind.
  - destruct mta; [| emits_calls].
    apply emits_bind; [emits_calls | intros _].
    apply emits_try_catch; [| intros ?; emits_calls].
    apply emits_bind; [emits_calls | intros [|]]; [| emits_calls].
    apply emits_bind; [emits_calls | intros entries].
    destruct (filter (endsWith ".mtar") entries); [emits_calls |].
    do 3 (apply emits_bind; [emits_calls | intros _]).
    apply emits_bind; [apply quiet_updateMtaYaml | intros _].
    emits_calls.
  - intros p. emits_calls.
Qed.

Lemma quiet_createGitHubRelease version projectName :
  emits quiet (Release.createGitHubRelease w version projectName).
Proof.
  unfold Release.createGitHubRelease, Release.uploadAsset.
  apply emits_try_catch; [| intros ?; emits_calls].
  apply emits_bind; [emits_calls | intros _].
  apply emits_bind; [apply quiet_getPRInfo | intros i].
  emits_calls.
Qed.
End Quiet.

(* ================================================================== *)
(** * The release handler *)
(* ================================================================== *)

Lemma handle_stages (w : World) (s : state) :
  Release.handle w s
  = (c <- Stage.prepare w ;; Stage.changelog w c ;; Stage.promote w c) s.
Proof.
  unfold Release.handle, Stage.prepare, Stage.changelog, Stage.promote, bind.
  repeat
    match goal with
    | |- context [match ?m ?x with _ => _ end] =>
        lazymatch type of x with
        | state => destruct (m x) as [? [? | ?]]; cbn [ret]; try reflexivity
        end
    end.
Qed.

(** When the extraction of the version raises, the handler stops there: it
    has logged its name and read the branches and the prefixes, and nothing
    else; in particular no merge, deletion, tag or file update was asked of
    the gateway. *)
Lemma extraction_failure_has_no_effect
  (w : World) (s : state) (b : Branches) (e : error) :
  let s1 := record (EInfo "RELEASE HANDLER") s in
  let s2 := record (EGetBranches (inr b)) s1 in
  let p := w_getPrefixes w (st_trace s2) in
  let done := [EInfo "RELEASE HANDLER"; EGetBranches (inr b); EGetPrefixes p] in
  w_getBranches w (st_trace s1) = inr b ->
  extractVersionFromBranch (w_host w) (current b) (release p) = inl e ->
  Release.handle w s
  = (MkState (st_trace s ++ done) (st_releaseFilePath s), inl e)
  /\ forallb (fun ev => negb (side_effect ev)) done = true.
Proof.
  intros s1 s2 p done Hb He. split; [| reflexivity].
  unfold Release.handle.
  logged.
  ran (call_ok (w_getBranches w) EGetBranches s1 b Hb).
  unfold getPrefixes. ran (call_total_run (w_getPrefixes w) EGetPrefixes).
  fold s2. fold p.
  erewrite bind_fail_intro by (rewrite lift_run, He; reflexivity).
  subst done p s2 s1. unfold record. cbn [st_trace st_releaseFilePath].
  rewrite <- !app_assoc. reflexivity.
Qed.

(** Under a release prefix without pattern characters, a current branch
    that is not the prefix followed by [X.Y.Z] stops the handler at the
    extraction, with no effect: what C9 says holds for such prefixes. *)
Lemma unversioned_branch_has_no_effect
  (w : World) (s : state) (b : Branches) :
  let s1 := record (EInfo "RELEASE HANDLER") s in
  let s2 := record (EGetBranches (inr b)) s1 in
  let p := w_getPrefixes w (st_trace s2) in
  let done := [EInfo "RELEASE HANDLER"; EGetBranches (inr b); EGetPrefixes p] in
  w_getBranches w (st_trace s1) = inr b ->
  Version.literal (release p) = true ->
  String.prefix (release p) (current b)
  && Version.is_version (drop (String.length (release p)) (current b))
  = false ->
  Release.handle w s
  = (MkState (st_trace s ++ done) (st_releaseFilePath s),
     inl (no_match (current b)))
  /\ forallb (fun ev => negb (side_effect ev)) done = true.
Proof.
  intros s1 s2 p done Hb Hp Hv.
  apply (extraction_failure_has_no_effect w s b _ Hb).
  fold s1 s2 p.
  rewrite (extractVersion_literal_prefix (w_host w) (release p) (current b) Hp),
    Hv.
  reflexivity.
Qed.

Example release_abc_has_no_effect :
  Release.handle (Scenario.calm Scenario.release_abc false) initial
  = (MkState [EInfo "RELEASE HANDLER";
              EGetBranches (inr Scenario.release_abc);
              EGetPrefixes Scenario.prefixes] "",
     inl (no_match "release/abc")).
Proof.
  exact (proj1 (unversioned_branch_has_no_effect
                  (Scenario.calm Scenario.release_abc false) initial
                  Scenario.release_abc eq_refl eq_refl eq_refl)).
Qed.

(** C9.  A current branch that is not the release prefix followed by
    [X.Y.Z] does not always stop the handler.  With the release prefix
    [a|b], the branch [a|bfoo] is the prefix followed by [foo], which is no
    version; the release predicate accepts it; the extraction, which reads
    the prefix as a pattern, does not raise but returns [undefined]; and
    the handler goes on: it has the gateway write [package.json] for the
    version [undefined], merges the branch into the development and the
    main branch and creates the tag [vfoo], before the run ends on the
    pull request of [release/undefined], which does not exist. *)
Theorem handle_runs_on_unversioned_branch :
  let w := ScenarioPattern.world in
  let t := st_trace (fst (Release.handle w initial)) in
  w_getBranches w [EInfo "RELEASE HANDLER"] = inr ScenarioPattern.a_b_foo
  /\ w_getPrefixes w
       [EInfo "RELEASE HANDLER"; EGetBranches (inr ScenarioPattern.a_b_foo)]
     = ScenarioPattern.prefixes
  /\ current ScenarioPattern.a_b_foo
     = release ScenarioPattern.prefixes +++ "foo"
  /\ Version.is_version "foo" = false
  /\ snd (Release.test w initial) = inr true
  /\ (forall h : Host,
        extractVersionFromBranch h "a|bfoo" "a|b" = inr JUndefined)
  /\ (exists updated,
        In (EUpdateFile "package.json" updated
              "chore: update package.json version to undefined"
              "a|bfoo" "blob" (inr tt)) t)
  /\ In (EMerge "a|bfoo" "develop" (inr "sha-develop")) t
  /\ In (EMerge "a|bfoo" "main" (inr "sha-main")) t
  /\ In (ECreateTag "vfoo" "sha-main" (inr tt)) t
  /\ snd (Release.handle w initial)
     = inl (Release.noPullRequest "release/undefined").
Proof.
  intros w t.
  do 5 (split; [reflexivity |]).
  split; [intros h; reflexivity |].
  split; [exists ("version: 0.0.1" +++ LF +++ "x: yundefined") |];
    [| split; [| split; [| split; [| reflexivity]]]];
    subst t w; vm_compute; repeat (first [left; reflexivity | right]).
Qed.



Lemma merge_ok_inv (w : World) (b : Branches) (s s' : state) (sha : string) :
  Release.merge w b s = (s', inr sha) ->
  exists x,
    st_trace s' = st_trace s ++
      [EMerge (current b) (development b) (inr x);
       EMerge (current b) (main b) (inr sha)].
Proof.
  unfold Release.merge, github_merge. intros H.
  apply bind_ok in H. destruct H as (s1 & x & H1 & H).
  apply bind_ok in H. destruct H as (s2 & y & H2 & H).
  inversion H. subst. clear H.
  apply call_inv in H1. apply call_inv in H2.
  destruct H1 as (_ & ->). destruct H2 as (_ & ->).
  exists x. cbn [record st_trace]. rewrite <- app_assoc. reflexivity.
Qed.

Lemma createTag_ok_inv (w : World) b p sha (s s' : state) :
  Release.createTag w b p sha s = (s', inr tt) ->
  st_trace s' = st_trace s ++
    [EInfo ("SHA -------> " +++ sha);
     EInfo ("TAG -------> "
              +++ Release.getTagName (current b) (release p) (tag p));
     ECreateTag (Release.getTagName (current b) (release p) (tag p)) sha
       (inr tt)].
Proof.
  unfold Release.createTag, github_createTag. intros H.
  apply bind_ok in H. destruct H as (s1 & [] & H1 & H).
  apply bind_ok in H. destruct H as (s2 & [] & H2 & H).
  inversion H1. inversion H2. subst. clear H1 H2.
  apply call_inv in H. destruct H as (_ & ->).
  cbn [record st_trace]. rewrite <- !app_assoc. reflexivity.
Qed.

(** What a successful merge step asked of the gateway, and what it was
    answered. *)
Lemma merge_ok_answers (w : World) (b : Branches) (s s' : state)
  (sha : string) :
  Release.merge w b s = (s', inr sha) ->
  exists x,
    w_merge w (st_trace s) (current b) (development b) = inr x
    /\ w_merge w
         (st_trace s ++ [EMerge (current b) (development b) (inr x)])
         (current b) (main b) = inr sha
    /\ st_trace s' = st_trace s ++
         [EMerge (current b) (development b) (inr x);
          EMerge (current b) (main b) (inr sha)].
Proof.
  unfold Release.merge, github_merge. intros H.
  apply bind_ok in H. destruct H as (s1 & x & H1 & H).
  apply bind_ok in H. destruct H as (s2 & y & H2 & H).
  inversion H. subst. clear H.
  apply call_inv in H1. apply call_inv in H2.
  destruct H1 as (A1 & ->). destruct H2 as (A2 & ->).
  exists x. split; [exact A1 | split; [exact A2 |]].
  cbn [record st_trace]. rewrite <- app_assoc. reflexivity.
Qed.

(** What the first stage read: the branches and the prefixes are what the
    gateway gave, right after the name of the handler was logged, and the
    version is read off the current branch under the release prefix. *)
Lemma prepare_reads (w : World) s s' c :
  Stage.prepare w s = (s', inr c) ->
  let s0 := record (EInfo "RELEASE HANDLER") s in
  w_getBranches w (st_trace s0) = inr (Stage.branches c)
  /\ w_getPrefixes w
       (st_trace (record (EGetBranches (inr (Stage.branches c))) s0))
     = Stage.prefixes c
  /\ extractVersionFromBranch (w_host w) (current (Stage.branches c))
       (release (Stage.prefixes c)) = inr (Stage.version c)
  /\ exists rest,
       st_trace s' = st_trace s ++
         EInfo "RELEASE HANDLER" :: EGetBranches (inr (Stage.branches c))
           :: EGetPrefixes (Stage.prefixes c) :: rest
       /\ Forall quiet rest.
Proof.
  intros H s0. unfold Stage.prepare in H.
  apply bind_ok in H. destruct H as (s1 & [] & H1 & H).
  rewrite info_run in H1. injection H1 as <-. fold s0 in H.
  apply bind_ok in H. destruct H as (s2 & b & H2 & H).
  unfold getBranches in H2. apply call_inv in H2. destruct H2 as (Hb & ->).
  apply bind_ok in H. destruct H as (s3 & p & H3 & H).
  unfold getPrefixes in H3. rewrite call_total_run in H3.
  injection H3 as <- Hp.
  apply bind_ok in H. destruct H as (s4 & v & H4 & H).
  rewrite lift_run in H4. injection H4 as <- Hv.
  assert (Hq : emits quiet
                 (n <- Release.getProjectName w ;;
                  Release.updateVersionFiles w b p ;;
                  ret {| Stage.branches := b; Stage.prefixes := p;
                         Stage.version := v; Stage.projectName := n |})).
  { apply emits_bind; [apply quiet_getProjectName | intros n0].
    apply emits_bind; [apply quiet_updateVersionFiles | intros _].
    emits_calls. }
  destruct (Hq _ _ _ H) as (rest & E & F).
  apply bind_ok in H. destruct H as (s5 & n & H5 & H).
  apply bind_ok in H. destruct H as (s6 & [] & H6 & H).
  rewrite ret_run in H. injection H as <- <-.
  cbn [Stage.branches Stage.prefixes Stage.version].
  split; [exact Hb | split; [exact Hp | split; [exact Hv |]]].
  exists rest. split; [| exact F].
  rewrite Hp in E. rewrite E. subst s0. cbn [record st_trace].
  rewrite <- !app_assoc. reflexivity.
Qed.

(** C2.  In every run of the release handler that returns a commit
    identifier: the branches and the prefixes are those the gateway gave
    at the start of the run; the current branch of these was merged into
    their development branch and then into their main branch, these are
    the only merges, and the value returned is what the gateway answered
    to the merge into main; the tag was created at that identifier, then
    the build and the publication of the release ended without raising,
    and only then was the deletion of the release branch asked for, as the
    last call of the run and the only deletion. *)
Theorem release_success_order (w : World) (s s' : state) (sha : string) :
  Release.handle w s = (s', inr sha) ->
  exists (c : Stage.context) (sp s1 s2 s3 s4 s5 : state) (x : string)
         (before between : list event),
    let b := Stage.branches c in
    let p := Stage.prefixes c in
    let tagName := Release.getTagName (current b) (release p) (tag p) in
    let s0 := record (EInfo "RELEASE HANDLER") s in
    w_getBranches w (st_trace s0) = inr b
    /\ w_getPrefixes w (st_trace (record (EGetBranches (inr b)) s0)) = p
    /\ extractVersionFromBranch (w_host w) (current b) (release p)
       = inr (Stage.version c)
    /\ Stage.prepare w s = (sp, inr c)
    /\ Stage.changelog w c sp = (s1, inr tt)
    /\ st_trace s1 = st_trace s ++
         EInfo "RELEASE HANDLER" :: EGetBranches (inr b) :: EGetPrefixes p
           :: before
    /\ Forall quiet before
    /\ w_merge w (st_trace s1) (current b) (development b) = inr x
    /\ w_merge w
         (st_trace s1 ++ [EMerge (current b) (development b) (inr x)])
         (current b) (main b) = inr sha
    /\ st_trace s2 = st_trace s1 ++
         [EMerge (current b) (development b) (inr x);
          EMerge (current b) (main b) (inr sha)]
    /\ Release.createTag w b p sha s2 = (s3, inr tt)
    /\ st_trace s3 = st_trace s2 ++
         [EInfo ("SHA -------> " +++ sha);
          EInfo ("TAG -------> " +++ tagName);
          ECreateTag tagName sha (inr tt)]
    /\ Release.buildProject w (Stage.version c) (Stage.projectName c) b s3
       = (s4, inr tt)
    /\ Release.createGitHubRelease w (Stage.version c) (Stage.projectName c) s4
       = (s5, inr tt)
    /\ st_trace s5 = st_trace s2 ++ between
    /\ Forall quiet between
    /\ st_trace s' = st_trace s5 ++ [EDelete (current b) (inr tt)].
Proof.
  intros H. rewrite handle_stages in H.
  apply bind_ok in H. destruct H as (sp & c & Hprep & H).
  apply bind_ok in H. destruct H as (s1 & [] & Hlog & H).
  unfold Stage.promote in H.
  apply bind_ok in H. destruct H as (s2 & sha' & Hmerge & H).
  apply bind_ok in H. destruct H as (s3 & [] & Htag & H).
  apply bind_ok in H. destruct H as (s4 & [] & Hbuild & H).
  apply bind_ok in H. destruct H as (s5 & [] & Hrel & H).
  apply bind_ok in H. destruct H as (s6 & [] & Hdel & H).
  inversion H. subst s6 sha'. clear H.
  destruct (merge_ok_answers _ _ _ _ _ Hmerge) as (x & A1 & A2 & Em).
  destruct (prepare_reads _ _ _ _ Hprep) as (Hb & Hp & Hv & t1 & E1 & F1).
  unfold Stage.changelog in Hlog.
  destruct (quiet_createOrUpdateChangelog w _ _ _ _ _ Hlog) as (t2 & E2 & F2).
  destruct (quiet_createTag w _ _ _ _ _ _ Htag) as (t3 & E3 & F3).
  destruct (quiet_buildProject w _ _ _ _ _ _ Hbuild) as (t4 & E4 & F4).
  destruct (quiet_createGitHubRelease w _ _ _ _ _ Hrel) as (t5 & E5 & F5).
  exists c, sp, s1, s2, s3, s4, s5, x, (t1 ++ t2), (t3 ++ t4 ++ t5).
  cbv zeta.
  split; [exact Hb | split; [exact Hp | split; [exact Hv |]]].
  split; [exact Hprep | split; [exact Hlog |]].
  split; [| split; [| split; [exact A1 | split; [exact A2 |]]]].
  - rewrite E2, E1, <- app_assoc. reflexivity.
  - apply Forall_app. split; assumption.
  - repeat split.
    + exact Em.
    + exact Htag.
    + exact (createTag_ok_inv _ _ _ _ _ _ Htag).
    + exact Hbuild.
    + exact Hrel.
    + rewrite E5, E4, E3. rewrite <- !app_assoc. reflexivity.
    + repeat (apply Forall_app; split); assumption.
    + unfold github_delete in Hdel. apply call_inv in Hdel.
      destruct Hdel as (_ & ->). reflexivity.
Qed.

Lemma release_success_order_witness :
  exists (c : Stage.context) (sp s1 s2 s3 s4 s5 : state) (x : string)
         (before between : list event),
    let w := Scenario.calm Scenario.release_1_2_0 true in
    let s' := fst (Release.handle w initial) in
    let b := Stage.branches c in
    let p := Stage.prefixes c in
    let tagName := Release.getTagName (current b) (release p) (tag p) in
    let s0 := record (EInfo "RELEASE HANDLER") initial in
    w_getBranches w (st_trace s0) = inr b
    /\ w_getPrefixes w (st_trace (record (EGetBranches (inr b)) s0)) = p
    /\ extractVersionFromBranch (w_host w) (current b) (release p)
       = inr (Stage.version c)
    /\ Stage.prepare w initial = (sp, inr c)
    /\ Stage.changelog w c sp = (s1, inr tt)
    /\ st_trace s1 = st_trace initial ++
         EInfo "RELEASE HANDLER" :: EGetBranches (inr b) :: EGetPrefixes p
           :: before
    /\ Forall quiet before
    /\ w_merge w (st_trace s1) (current b) (development b) = inr x
    /\ w_merge w
         (st_trace s1 ++ [EMerge (current b) (development b) (inr x)])
         (current b) (main b) = inr "sha-main"
    /\ st_trace s2 = st_trace s1 ++
         [EMerge (current b) (development b) (inr x);
          EMerge (current b) (main b) (inr "sha-main")]
    /\ Release.createTag w b p "sha-main" s2 = (s3, inr tt)
    /\ st_trace s3 = st_trace s2 ++
         [EInfo ("SHA -------> " +++ "sha-main");
          EInfo ("TAG -------> " +++ tagName);
          ECreateTag tagName "sha-main" (inr tt)]
    /\ Release.buildProject w (Stage.version c) (Stage.projectName c) b s3
       = (s4, inr tt)
    /\ Release.createGitHubRelease w (Stage.version c) (Stage.projectName c) s4
       = (s5, inr tt)
    /\ st_trace s5 = st_trace s2 ++ between
    /\ Forall quiet between
    /\ st_trace s' = st_trace s5 ++ [EDelete (current b) (inr tt)].
Proof.
  exact (release_success_order (Scenario.calm Scenario.release_1_2_0 true)
           initial
           (fst (Release.handle (Scenario.calm Scenario.release_1_2_0 true)
                   initial))
           "sha-main" eq_refl).
Defined.

(* ================================================================== *)
(** * The build step *)
(* ================================================================== *)

Lemma updateMtaYaml_total (w : World) version branch (s : state) :
  exists s',
    Release.updateMtaYaml w version branch s = (s', inr tt)
    /\ match Release.updateMtaYaml_try w version branch s with
       | (s1, inl e) =>
           s' = record (EInfo ("mta.yaml file not found or error updating: "
                                 +++ error_to_string e)) s1
       | (s1, inr _) => s' = s1
       end.
Proof.
  unfold Release.updateMtaYaml, try_catch.
  destruct (Release.updateMtaYaml_try w version branch s) as [s1 [e | []]];
    eexists; split; reflexivity.
Qed.

(** The build step raises what its archive branch raised, after logging. *)
Lemma buildProject_mta_fails (w : World) version projectName b sa sb s' e :
  Release.buildProject_run w version sa = (sb, inr tt) ->
  w_existsSync w (st_trace sb) (Archive.descriptor w) = true ->
  Release.buildProject_mta w version projectName b
    (record (EExistsSync (Archive.descriptor w) true) sb) = (s', inl e) ->
  Release.buildProject w version projectName b sa
  = (record (EInfo ("Build failed: " +++ error_to_string e)) s', inl e).
Proof.
  intros Hrun Hd Hm. unfold Release.buildProject.
  erewrite try_catch_fail_intro.
  2:{ ran Hrun. unfold existsSync.
      ran (call_total_run (fun t => w_existsSync w t (in_cwd w ["mta.yaml"]))
             (EExistsSync (in_cwd w ["mta.yaml"]))).
      fold (Archive.descriptor w). rewrite Hd.
      erewrite bind_fail_intro by exact Hm. reflexivity. }
  reflexivity.
Qed.

(** A failed build ends the run. *)
Lemma promote_build_fails (w : World) (c : Stage.context) s sm sa s' sha e :
  Release.merge w (Stage.branches c) s = (sm, inr sha) ->
  Release.createTag w (Stage.branches c) (Stage.prefixes c) sha sm
  = (sa, inr tt) ->
  Release.buildProject w (Stage.version c) (Stage.projectName c)
    (Stage.branches c) sa = (s', inl e) ->
  Stage.promote w c s = (s', inl e).
Proof.
  intros Hm Ht Hb. unfold Stage.promote.
  ran Hm. ran Ht. erewrite bind_fail_intro by exact Hb. reflexivity.
Qed.

Section ArchiveBranch.
Context (w : World) (version : jsstring) (projectName : string)
        (b : Branches) (s : state).

Let s0 : state :=
  record (EInfo "MTA project detected, looking for MTAR file...") s.
Let dir : string := Archive.dir w.

Lemma buildProject_mta_no_directory :
  w_existsSync w (st_trace s0) dir = false ->
  Release.buildProject_mta w version projectName b s
  = (record (EInfo ("Error processing MTAR file: "
                      +++ error_to_string Release.noArchiveDirectory))
       (record (EExistsSync dir false) s0),
     inl Release.noArchiveDirectory).
Proof.
  intros H. unfold Release.buildProject_mta. logged. fold s0.
  unfold try_catch, bind, existsSync, call_total.
  fold (Archive.dir w). fold dir. rewrite H. reflexivity.
Qed.

Let s1 : state := record (EExistsSync dir true) s0.

Lemma buildProject_mta_unreadable e :
  w_existsSync w (st_trace s0) dir = true ->
  w_readdirSync w (st_trace s1) dir = inl e ->
  Release.buildProject_mta w version projectName b s
  = (record (EInfo ("Error processing MTAR file: " +++ error_to_string e))
       (record (EReaddirSync dir (inl e)) s1),
     inl e).
Proof.
  intros H H1. unfold Release.buildProject_mta. logged. fold s0.
  unfold try_catch, bind, existsSync, call_total, readdirSync, call.
  fold (Archive.dir w). fold dir. rewrite H. fold s1. rewrite H1.
  reflexivity.
Qed.

Lemma buildProject_mta_no_archive entries :
  w_existsSync w (st_trace s0) dir = true ->
  w_readdirSync w (st_trace s1) dir = inr entries ->
  filter (endsWith ".mtar") entries = [] ->
  Release.buildProject_mta w version projectName b s
  = (record (EInfo ("Error processing MTAR file: "
                      +++ error_to_string Release.noArchives))
       (record (EReaddirSync dir (inr entries)) s1),
     inl Release.noArchives).
Proof.
  intros H H1 H2. unfold Release.buildProject_mta. logged. fold s0.
  unfold try_catch, bind, existsSync, call_total, readdirSync, call.
  fold (Archive.dir w). fold dir. rewrite H. fold s1. rewrite H1, H2.
  reflexivity.
Qed.

Let old (first : string) : string := Archive.original w first.
Let new : string := Archive.versioned w version projectName.

Lemma buildProject_mta_rename_fails entries first others e :
  let s3 := record (EInfo "MTAR file found! Processing...")
              (record (EReaddirSync dir (inr entries)) s1) in
  w_existsSync w (st_trace s0) dir = true ->
  w_readdirSync w (st_trace s1) dir = inr entries ->
  filter (endsWith ".mtar") entries = first :: others ->
  w_renameSync w (st_trace s3) (old first) new = inl e ->
  Release.buildProject_mta w version projectName b s
  = (record (EInfo ("Error processing MTAR file: " +++ error_to_string e))
       (record (ERenameSync (old first) new (inl e)) s3),
     inl e).
Proof.
  intros s3 H H1 H2 H3. unfold Release.buildProject_mta. logged. fold s0.
  unfold try_catch, bind, existsSync, call_total, readdirSync, renameSync,
    call.
  fold (Archive.dir w). fold dir. rewrite H. fold s1. rewrite H1, H2.
  rewrite info_run. fold s3.
  unfold old, new, Archive.original, Archive.versioned in *.
  fold dir in H3 |- *. rewrite H3. reflexivity.
Qed.

Lemma buildProject_mta_renamed entries first others :
  let s3 := record (EInfo "MTAR file found! Processing...")
              (record (EReaddirSync dir (inr entries)) s1) in
  w_existsSync w (st_trace s0) dir = true ->
  w_readdirSync w (st_trace s1) dir = inr entries ->
  filter (endsWith ".mtar") entries = first :: others ->
  w_renameSync w (st_trace s3) (old first) new = inr tt ->
  Release.buildProject_mta w version projectName b s
  = (fst (Release.updateMtaYaml w version (current b)
            (Archive.renamed w version projectName first s3)),
     inr new).
Proof.
  intros s3 H H1 H2 H3.
  destruct (updateMtaYaml_total w version (current b)
              (Archive.renamed w version projectName first s3))
    as (s5 & Hu & _).
  rewrite Hu. cbn [fst].
  unfold Release.buildProject_mta. logged. fold s0.
  erewrite try_catch_ok_intro; [reflexivity |].
  unfold existsSync.
  ran (call_total_run (fun t => w_existsSync w t (in_cwd w ["mta_archives"]))
         (EExistsSync (in_cwd w ["mta_archives"]))).
  fold (Archive.dir w). fold dir. rewrite H. fold s1.
  unfold readdirSync.
  ran (call_ok (fun t => w_readdirSync w t dir) (EReaddirSync dir) s1
         entries H1).
  rewrite H2. logged. fold s3.
  unfold renameSync.
  ran (call_ok (fun t => w_renameSync w t (old first) new)
         (ERenameSync (old first) new) s3 tt H3).
  logged.
  change (record _ (record (ERenameSync (old first) new (inr tt)) s3))
    with (Archive.renamed w version projectName first s3).
  ran Hu. reflexivity.
Qed.
End ArchiveBranch.

(** Install and build ask nothing of the gateway about a file. *)
Lemma buildProject_run_no_file_call (w : World) version :
  emits Archive.no_file_call (Release.buildProject_run w version).
Proof.
  unfold Release.buildProject_run, Release.installDependencies,
    Release.runBuild.
  emits_calls.
Qed.

(** The descriptor update, call by call: the descriptor is read on the
    branch, its blob identifier is fetched, and the patched text is
    written on that blob; the first of these that raises ends the update,
    which logs the error and does not raise. *)
Lemma updateMtaYaml_run (w : World) version branch (s : state) :
  Release.updateMtaYaml w version branch s
  = (match w_getFileContent w (st_trace s) "mta.yaml" branch with
     | inl e =>
         Archive.dropped e
           (record (EGetFileContent "mta.yaml" branch (inl e)) s)
     | inr content =>
         let s1 := record (EGetFileContent "mta.yaml" branch (inr content)) s in
         match w_getContent w (st_trace s1) "mta.yaml" branch with
         | inl e =>
             Archive.dropped e
               (record (EGetContent "mta.yaml" branch (inl e)) s1)
         | inr blob =>
             let s2 := record (EGetContent "mta.yaml" branch (inr blob)) s1 in
             let patched := updateMtaYamlVersion content version in
             let message :=
               "chore: update mta.yaml version to " +++ show version in
             match w_updateFile w (st_trace s2) "mta.yaml" patched message
                     branch blob with
             | inl e =>
                 Archive.dropped e
                   (record (EUpdateFile "mta.yaml" patched message branch
                              blob (inl e)) s2)
             | inr _ =>
                 record (EInfo ("mta.yaml version updated to: "
                                  +++ show version))
                   (record (EUpdateFile "mta.yaml" patched message branch
                              blob (inr tt)) s2)
             end
         end
     end, inr tt).
Proof.
  unfold Release.updateMtaYaml, Release.updateMtaYaml_try, Release.getFileSha,
    try_catch, bind, getFileContent, repos_getContent, updateFile, call, info,
    Archive.dropped.
  destruct (w_getFileContent w (st_trace s) "mta.yaml" branch)
    as [e | content]; [reflexivity |].
  cbv zeta.
  destruct (w_getContent w _ "mta.yaml" branch) as [e | blob];
    [reflexivity |].
  destruct (w_updateFile w _ "mta.yaml" _ _ branch blob) as [e | []];
    reflexivity.
Qed.

(** C5.  Take a run in which the merges and the tag are done, install and
    build have ended, and the platform descriptor is present.  Install and
    build have asked nothing of the gateway about a file.  If the archive
    directory is missing, cannot be listed, or holds no [.mtar] file, the
    build step raises and the run ends there: no release is published and
    no branch is deleted.  If it holds one, the first is renamed to
    [{project}-v{version}.mtar]; a rename that raises ends the run in the
    same way, with no call about the descriptor.  After a rename that
    succeeds, and only then, the descriptor update runs: it reads
    [mta.yaml] on the current branch, fetches its blob identifier and asks
    the gateway to write, on that blob, the content it read with the
    version patched in; the first of these calls that raises is logged and
    ends the update.  Either way the archive branch ends with the path of
    the renamed file. *)
Theorem archive_build_outcomes
  (w : World) (c : Stage.context) (s sm sa sb : state) (sha : string) :
  let version := Stage.version c in
  let projectName := Stage.projectName c in
  let b := Stage.branches c in
  let dir := Archive.dir w in
  let new := Archive.versioned w version projectName in
  let s0 := Archive.entered w sb in
  let aborts (e : error) (s1 : state) : Prop :=
    Release.buildProject w version projectName b sa
    = (Archive.failed e s1, inl e)
    /\ Stage.promote w c s = (Archive.failed e s1, inl e) in
  Release.merge w b s = (sm, inr sha) ->
  Release.createTag w b (Stage.prefixes c) sha sm = (sa, inr tt) ->
  Release.buildProject_run w version sa = (sb, inr tt) ->
  w_existsSync w (st_trace sb) (Archive.descriptor w) = true ->
  (exists t, st_trace sb = st_trace sa ++ t /\ Forall Archive.no_file_call t)
  /\ match w_existsSync w (st_trace s0) dir with
  | false =>
      aborts Release.noArchiveDirectory (record (EExistsSync dir false) s0)
  | true =>
      let s1 := record (EExistsSync dir true) s0 in
      match w_readdirSync w (st_trace s1) dir with
      | inl e => aborts e (record (EReaddirSync dir (inl e)) s1)
      | inr entries =>
          let s2 := record (EReaddirSync dir (inr entries)) s1 in
          match filter (endsWith ".mtar") entries with
          | [] => aborts Release.noArchives s2
          | first :: _ =>
              let s3 := record (EInfo "MTAR file found! Processing...") s2 in
              let old := Archive.original w first in
              match w_renameSync w (st_trace s3) old new with
              | inl e => aborts e (record (ERenameSync old new (inl e)) s3)
              | inr _ =>
                  let s4 := Archive.renamed w version projectName first s3 in
                  let ends (s7 : state) : Prop :=
                    Release.updateMtaYaml w version (current b) s4
                    = (s7, inr tt)
                    /\ Release.buildProject_mta w version projectName b
                         (record (EExistsSync (Archive.descriptor w) true) sb)
                       = (s7, inr new) in
                  match w_getFileContent w (st_trace s4) "mta.yaml"
                          (current b) with
                  | inl e =>
                      ends (Archive.dropped e
                              (record (EGetFileContent "mta.yaml" (current b)
                                         (inl e)) s4))
                  | inr content =>
                      let s5 :=
                        record (EGetFileContent "mta.yaml" (current b)
                                  (inr content)) s4 in
                      match w_getContent w (st_trace s5) "mta.yaml"
                              (current b) with
                      | inl e =>
                          ends (Archive.dropped e
                                  (record (EGetContent "mta.yaml" (current b)
                                             (inl e)) s5))
                      | inr blob =>
                          let s6 :=
                            record (EGetContent "mta.yaml" (current b)
                                      (inr blob)) s5 in
                          let patched := updateMtaYamlVersion content version in
                          let message :=
                            "chore: update mta.yaml version to "
                              +++ show version in
                          match w_updateFile w (st_trace s6) "mta.yaml"
                                  patched message (current b) blob with
                          | inl e =>
                              ends (Archive.dropped e
                                      (record (EUpdateFile "mta.yaml" patched
                                                 message (current b) blob
                                                 (inl e)) s6))
                          | inr _ =>
                              ends (record
                                      (EInfo ("mta.yaml version updated to: "
                                                +++ show version))
                                      (record (EUpdateFile "mta.yaml" patched
                                                 message (current b) blob
                                                 (inr tt)) s6))
                          end
                      end
                  end
              end
          end
      end
  end.
Proof.
  intros version projectName b dir new s0 aborts Hm Ht Hrun Hd.
  split; [exact (buildProject_run_no_file_call w version _ _ _ Hrun) |].
  assert (Habort : forall e s1,
    Release.buildProject_mta w version projectName b
      (record (EExistsSync (Archive.descriptor w) true) sb)
    = (record (EInfo ("Error processing MTAR file: " +++ error_to_string e)) s1,
       inl e) -> aborts e s1).
  { intros e s1 H.
    pose proof (buildProject_mta_fails w version projectName b sa sb _ e
                  Hrun Hd H) as Hb.
    split; [exact Hb |].
    exact (promote_build_fails w c s sm sa _ sha e Hm Ht Hb). }
  destruct (w_existsSync w (st_trace s0) dir) eqn:Hdir.
  2:{ apply Habort. apply buildProject_mta_no_directory. exact Hdir. }
  cbv zeta.
  destruct (w_readdirSync w
              (st_trace (record (EExistsSync dir true) s0)) dir)
    as [e | entries] eqn:Hls.
  { apply Habort. apply buildProject_mta_unreadable; assumption. }
  destruct (filter (endsWith ".mtar") entries) as [| first others] eqn:Hf.
  { apply Habort. apply buildProject_mta_no_archive; assumption. }
  cbv zeta.
  destruct (w_renameSync w _ (Archive.original w first) new) as [e | []] eqn:Hr.
  { apply Habort.
    apply (buildProject_mta_rename_fails w version projectName b _ entries
             first others e Hdir Hls Hf Hr). }
  pose proof (buildProject_mta_renamed w version projectName b _ entries
                first others Hdir Hls Hf Hr) as Hok.
  cbv zeta in Hok. cbv zeta.
  match goal with
  | |- context [w_getFileContent _ (st_trace ?st) _ _] =>
      pose proof (updateMtaYaml_run w version (current b) st) as Hu;
      assert (Hok' :
        Release.buildProject_mta w version projectName b
          (record (EExistsSync (Archive.descriptor w) true) sb)
        = (fst (Release.updateMtaYaml w version (current b) st), inr new))
        by exact Hok
  end.
  clear Hok. rewrite Hu in Hok'. cbn [fst] in Hok'. cbv zeta in Hu, Hok'.
  match type of Hu with
  | context [w_getFileContent ?a ?t ?f ?br] =>
      destruct (w_getFileContent a t f br) as [e | content]
  end; [split; [exact Hu | exact Hok'] |].
  match type of Hu with
  | context [w_getContent ?a ?t ?f ?br] =>
      destruct (w_getContent a t f br) as [e | blob]
  end; [split; [exact Hu | exact Hok'] |].
  match type of Hu with
  | context [w_updateFile ?a ?t ?f ?x ?m ?br ?bl] =>
      destruct (w_updateFile a t f x m br bl) as [e | []]
  end; (split; [exact Hu | exact Hok']).
Qed.

Lemma archive_build_outcomes_witness :
  let w := Scenario.calm Scenario.release_1_2_0 true in
  let c := ScenarioRuns.context_1_2_0 in
  let sm := fst (Release.merge w Scenario.release_1_2_0 initial) in
  let sa := fst (Release.createTag w Scenario.release_1_2_0 Scenario.prefixes
                   "sha-main" sm) in
  let sb := fst (Release.buildProject_run w (JStr "1.2.0") sa) in
  let s3 :=
    record (EInfo "MTAR file found! Processing...")
      (record (EReaddirSync "/w/mta_archives"
                 (inr ["notes.txt"; "b.mtar"; "c.mtar"]))
         (record (EExistsSync "/w/mta_archives" true) (Archive.entered w sb))) in
  let s4 :=
    record (EInfo "Renamed to demo-v1.2.0.mtar")
      (record (ERenameSync "/w/mta_archives/b.mtar"
                 "/w/mta_archives/demo-v1.2.0.mtar" (inr tt)) s3) in
  let s7 :=
    record (EInfo "mta.yaml version updated to: 1.2.0")
      (record (EUpdateFile "mta.yaml" ("version: 1.2.0" +++ LF +++ "x: y")
                 "chore: update mta.yaml version to 1.2.0" "release/1.2.0"
                 "blob" (inr tt))
         (record (EGetContent "mta.yaml" "release/1.2.0" (inr "blob"))
            (record (EGetFileContent "mta.yaml" "release/1.2.0"
                       (inr ("version: 0.0.1" +++ LF +++ "x: y"))) s4))) in
  Release.updateMtaYaml w (JStr "1.2.0") "release/1.2.0" s4 = (s7, inr tt)
  /\ Release.buildProject_mta w (JStr "1.2.0") "demo" Scenario.release_1_2_0
       (record (EExistsSync "/w/mta.yaml" true) sb)
     = (s7, inr "/w/mta_archives/demo-v1.2.0.mtar").
Proof.
  exact (proj2 (archive_build_outcomes
                  (Scenario.calm Scenario.release_1_2_0 true)
                  ScenarioRuns.context_1_2_0 initial _ _ _ "sha-main"
                  eq_refl eq_refl eq_refl eq_refl)).
Defined.

(** C10.  In the archive branch of the build, once the archive is renamed,
    the descriptor update ends without raising whatever happens inside its
    [try] block: an error raised while reading, patching or committing
    [mta.yaml] is logged and dropped, and the build step ends normally with
    the renamed archive as the release file.  ([path.join] gives the
    renamed archive a path that is not empty.) *)
Theorem descriptor_failure_is_swallowed
  (w : World) (version : jsstring) (projectName : string) (b : Branches)
  (sa sb : state) (entries : list string) (first : string)
  (others : list string) :
  let dir := Archive.dir w in
  let new := Archive.versioned w version projectName in
  let s1 := record (EExistsSync dir true) (Archive.entered w sb) in
  let s3 := record (EInfo "MTAR file found! Processing...")
              (record (EReaddirSync dir (inr entries)) s1) in
  let s4 := Archive.renamed w version projectName first s3 in
  Release.buildProject_run w version sa = (sb, inr tt) ->
  w_existsSync w (st_trace sb) (Archive.descriptor w) = true ->
  w_existsSync w (st_trace (Archive.entered w sb)) dir = true ->
  w_readdirSync w (st_trace s1) dir = inr entries ->
  filter (endsWith ".mtar") entries = first :: others ->
  w_renameSync w (st_trace s3) (Archive.original w first) new = inr tt ->
  new <> "" ->
  exists s5 : state,
    Release.updateMtaYaml w version (current b) s4 = (s5, inr tt)
    /\ match Release.updateMtaYaml_try w version (current b) s4 with
       | (s', inl e) =>
           s5 = record (EInfo ("mta.yaml file not found or error updating: "
                                 +++ error_to_string e)) s'
       | (s', inr _) => s5 = s'
       end
    /\ Release.buildProject w version projectName b sa
       = (MkState (st_trace s5) new, inr tt).
Proof.
  intros dir new s1 s3 s4 Hrun Hd Hdir Hls Hf Hr Hnew.
  destruct (updateMtaYaml_total w version (current b) s4) as (s5 & Hu & Hlog).
  exists s5. split; [exact Hu | split; [exact Hlog |]].
  assert (Hok : Release.buildProject_mta w version projectName b
                  (record (EExistsSync (Archive.descriptor w) true) sb)
                = (s5, inr new)).
  { rewrite (buildProject_mta_renamed w version projectName b _ entries
               first others Hdir Hls Hf Hr).
    change (Release.updateMtaYaml w version (current b) _)
      with (Release.updateMtaYaml w version (current b) s4).
    rewrite Hu. reflexivity. }
  unfold Release.buildProject.
  erewrite try_catch_ok_intro; [reflexivity |].
  ran Hrun. unfold existsSync.
  ran (call_total_run (fun t => w_existsSync w t (in_cwd w ["mta.yaml"]))
         (EExistsSync (in_cwd w ["mta.yaml"]))).
  fold (Archive.descriptor w). rewrite Hd.
  ran Hok. fold new.
  destruct new as [| ch rest]; [contradiction Hnew; reflexivity |].
  rewrite bind_ok_intro with (s' := s5) (a := String ch rest) by reflexivity.
  reflexivity.
Qed.

Lemma descriptor_failure_is_swallowed_witness :
  let w := ScenarioRuns.no_descriptor Scenario.release_1_2_0 in
  let sb := fst (Release.buildProject_run w (JStr "1.2.0") initial) in
  let s3 :=
    record (EInfo "MTAR file found! Processing...")
      (record (EReaddirSync "/w/mta_archives"
                 (inr ["notes.txt"; "b.mtar"; "c.mtar"]))
         (record (EExistsSync "/w/mta_archives" true) (Archive.entered w sb))) in
  let s4 := Archive.renamed w (JStr "1.2.0") "demo" "b.mtar" s3 in
  exists s5 : state,
    Release.updateMtaYaml w (JStr "1.2.0") "release/1.2.0" s4 = (s5, inr tt)
    /\ match Release.updateMtaYaml_try w (JStr "1.2.0") "release/1.2.0" s4 with
       | (s', inl e) =>
           s5 = record (EInfo ("mta.yaml file not found or error updating: "
                                 +++ error_to_string e)) s'
       | (s', inr _) => s5 = s'
       end
    /\ Release.buildProject w (JStr "1.2.0") "demo" Scenario.release_1_2_0
         initial
       = (MkState (st_trace s5) "/w/mta_archives/demo-v1.2.0.mtar", inr tt).
Proof.
  refine (descriptor_failure_is_swallowed
            (ScenarioRuns.no_descriptor Scenario.release_1_2_0)
            (JStr "1.2.0") "demo" Scenario.release_1_2_0 initial _
            ["notes.txt"; "b.mtar"; "c.mtar"] "b.mtar" ["c.mtar"]
            eq_refl eq_refl eq_refl eq_refl eq_refl eq_refl _).
  discriminate.
Defined.

(* ================================================================== *)
(** * The resolution of the pull request *)
(* ================================================================== *)

Lemma releaseHeadRegex_lits :
  Release.releaseHeadRegex = Matching.lits (RSeq REmpty RBol) "release/".
Proof. reflexivity. Qed.

Lemma branchFormats_spec (w : World) (branch : string) :
  Release.branchFormats w branch
  = [branch; stripPrefix "release/" branch; w_owner w +++ ":" +++ branch].
Proof.
  unfold Release.branchFormats.
  rewrite releaseHeadRegex_lits, replace_first_anchored. reflexivity.
Qed.

(** One turn of the loop, by what the platform answers. *)
Lemma searchFormat_caught_run (w : World) f s :
  Release.searchFormat_caught w f s
  = match w_pullsList w (st_trace s) f with
    | inl e =>
        (Resolver.caught f e (record (EPullsList f (inl e)) s), inr None)
    | inr [] => (record (EPullsList f (inr [])) s, inr None)
    | inr (pr :: others) =>
        let s1 := Resolver.listed w f pr others s in
        match w_pullsGet w (st_trace s1) (pr_number pr) with
        | inl e =>
            (Resolver.caught f e
               (record (EPullsGet (pr_number pr) (inl e)) s1), inr None)
        | inr d =>
            (record (EInfo ("Detailed PR Body length: "
                              +++ of_nat (match prd_body d with
                                          | Some b => String.length b
                                          | None => 0
                                          end)))
               (record (EPullsGet (pr_number pr) (inr d)) s1),
             inr (Some {| Release.body := Resolver.description pr d;
                          Release.url := pr_html_url pr |}))
        end
    end.
Proof.
  unfold Release.searchFormat_caught, Release.searchFormat, try_catch, bind,
    pulls_list, pulls_get, call, info, ret, Resolver.caught, Resolver.listed,
    Resolver.description.
  destruct (w_pullsList w (st_trace s) f) as [e | [| pr others]];
    [reflexivity | reflexivity |].
  cbv zeta.
  destruct (w_pullsGet w _ (pr_number pr)) as [e | d]; reflexivity.
Qed.

Lemma searchFormat_caught_outcome (w : World) f s s' r :
  Release.searchFormat_caught w f s = (s', r) ->
  match r with
  | inl _ => False
  | inr None => Resolver.fruitless w f s s'
  | inr (Some i) => Resolver.found w f s s' i
  end.
Proof.
  rewrite searchFormat_caught_run.
  destruct (w_pullsList w (st_trace s) f) as [e | [| pr others]] eqn:Hl.
  - intros H. injection H as <- <-. right. left. exists e.
    split; [exact Hl | reflexivity].
  - intros H. injection H as <- <-. left. split; [exact Hl | reflexivity].
  - cbv zeta.
    destruct (w_pullsGet w _ (pr_number pr)) as [e | d] eqn:Hg;
      intros H; injection H as <- <-.
    + right. right. exists pr, others, e.
      split; [exact Hl | split; [exact Hg | reflexivity]].
    + exists pr, others, d.
      split; [exact Hl | split; [exact Hg | split; reflexivity]].
Qed.

Lemma searchFormats_outcome (w : World) (branch : string) :
  forall formats s s' r,
    Release.searchFormats w branch formats s = (s', r) ->
    match r with
    | inr i =>
        exists before f after s1,
          formats = before ++ f :: after
          /\ Resolver.skipped w before s s1
          /\ Resolver.found w f s1 s' i
    | inl e =>
        e = Release.noPullRequest branch
        /\ exists s1,
             Resolver.skipped w formats s s1
             /\ s' = Resolver.gave_up w branch s1
    end.
Proof.
  induction formats as [| f rest IH]; intros s s' r H.
  - cbn in H. inversion H. subst. split; [reflexivity |].
    exists s. split; reflexivity.
  - cbn [Release.searchFormats] in H.
    apply bind_inv in H.
    destruct H as [(e & Hc & _) | (s1 & o & Hc & H)];
      [exact (False_ind _ (searchFormat_caught_outcome _ _ _ _ _ Hc)) |].
    pose proof (searchFormat_caught_outcome _ _ _ _ _ Hc) as Ho.
    destruct o as [i |].
    + rewrite ret_run in H. injection H as <- <-.
      exists [], f, rest, s. split; [reflexivity |]. split; [reflexivity |].
      exact Ho.
    + specialize (IH _ _ _ H).
      destruct r as [e' | i].
      * destruct IH as (He & s2 & Hsk & Hg). split; [exact He |].
        exists s2. split; [| exact Hg]. cbn. eexists. split; eassumption.
      * destruct IH as (before & g & after & s2 & Hf & Hsk & Hfd).
        exists (f :: before), g, after, s2. split; [cbn; f_equal; exact Hf |].
        split; [| exact Hfd]. cbn. eexists. split; eassumption.
Qed.

Lemma listed_heads_app t1 t2 :
  Resolver.listed_heads (t1 ++ t2)
  = Resolver.listed_heads t1 ++ Resolver.listed_heads t2.
Proof.
  induction t1 as [| e t1 IH]; [reflexivity |].
  destruct e; cbn [app Resolver.listed_heads]; rewrite IH; reflexivity.
Qed.

Lemma listed_heads_none t :
  Forall Resolver.not_listing t -> Resolver.listed_heads t = [].
Proof.
  induction 1 as [| e t He _ IH]; [reflexivity |].
  destruct e; cbn [Resolver.listed_heads]; try exact IH. contradiction He.
Qed.

(** One turn of the loop lists the pull requests of its candidate, once. *)
Lemma searchFormat_caught_heads (w : World) f s s' r :
  Release.searchFormat_caught w f s = (s', r) ->
  exists t, st_trace s' = st_trace s ++ t /\ Resolver.listed_heads t = [f].
Proof.
  unfold Release.searchFormat_caught, Release.searchFormat, pulls_list.
  intros H.
  match type of H with
  | context [bind (call _ _) ?k] =>
      assert (Hrest : forall prs, emits Resolver.not_listing (k prs))
  end.
  { intros prs. emits_calls. }
  unfold try_catch in H.
  match type of H with
  | context [bind ?m ?k s] => destruct (bind m k s) as [s1 [e | a]] eqn:Hb
  end.
  - assert (Ht : exists t, st_trace s1 = st_trace s ++ t
                           /\ Resolver.listed_heads t = [f]).
    { apply bind_inv in Hb. destruct Hb as [(e' & Hc & _) | (s2 & prs & Hc & Hk)].
      - apply call_inv in Hc. destruct Hc as (_ & ->).
        eexists. split; reflexivity.
      - apply call_inv in Hc. destruct Hc as (_ & ->).
        destruct (Hrest prs _ _ _ Hk) as (t & Et & Ft).
        exists (EPullsList f (inr prs) :: t). split.
        + rewrite Et. cbn [record st_trace]. rewrite <- app_assoc. reflexivity.
        + cbn [Resolver.listed_heads]. rewrite (listed_heads_none t Ft).
          reflexivity. }
    destruct Ht as (t & Et & Ht).
    erewrite bind_ok_intro in H by apply info_run.
    inversion H. subst.
    exists (t ++ [EInfo ("Error searching with format '" +++ f +++ "': "
                          +++ error_to_string e)]).
    split.
    + cbn [record st_trace]. rewrite Et, <- app_assoc. reflexivity.
    + rewrite listed_heads_app, Ht. reflexivity.
  - inversion H. subst.
    apply bind_inv in Hb. destruct Hb as [(e' & _ & Hne) | (s2 & prs & Hc & Hk)];
      [discriminate Hne |].
    apply call_inv in Hc. destruct Hc as (_ & ->).
    destruct (Hrest prs _ _ _ Hk) as (t & Et & Ft).
    exists (EPullsList f (inr prs) :: t). split.
    + rewrite Et. cbn [record st_trace]. rewrite <- app_assoc. reflexivity.
    + cbn [Resolver.listed_heads]. rewrite (listed_heads_none t Ft).
      reflexivity.
Qed.

(** The loop lists the candidates in their order and stops at the first
    that gives a pull request. *)
Lemma searchFormats_heads (w : World) (branch : string) :
  forall formats s s' r,
    Release.searchFormats w branch formats s = (s', r) ->
    exists t rest,
      st_trace s' = st_trace s ++ t
      /\ formats = Resolver.listed_heads t ++ rest.
Proof.
  induction formats as [| f rest IH]; intros s s' r H.
  - assert (He : emits Resolver.not_listing (Release.searchFormats w branch []))
      by (cbn [Release.searchFormats]; emits_calls).
    destruct (He _ _ _ H) as (t & Et & Ft).
    exists t, []. split; [exact Et |].
    rewrite (listed_heads_none t Ft). reflexivity.
  - cbn [Release.searchFormats] in H.
    apply bind_inv in H. destruct H as [(e & Hc & _) | (s1 & found & Hc & H)].
    + destruct (searchFormat_caught_heads w f _ _ _ Hc) as (t & Et & Ht).
      exists t, rest. split; [exact Et | rewrite Ht; reflexivity].
    + destruct (searchFormat_caught_heads w f _ _ _ Hc) as (t & Et & Ht).
      destruct found as [i |].
      * inversion H. subst. exists t, rest.
        split; [exact Et | rewrite Ht; reflexivity].
      * destruct (IH _ _ _ H) as (t2 & rest2 & Et2 & Hf).
        exists (t ++ t2), rest2. split.
        -- rewrite Et2, Et, app_assoc. reflexivity.
        -- rewrite listed_heads_app, Ht, Hf. reflexivity.
Qed.

(** C6, as amended.  With [release/] as the release prefix, the candidates
    are the branch name, the branch name without that prefix, and
    [owner:branch]; the pull requests are listed for them in this order,
    each candidate being tried from the state the one before left.  The
    candidates passed over are those for which the platform lists no pull
    request, or for which the listing raises, or for which the retrieval
    of the detail of the first pull request listed raises; what was raised
    is logged.  The candidate that gives the result is the first for which
    the platform lists a pull request and gives its detail, and the result
    is the description and the address of the first pull request listed
    for it.  When all three are passed over the resolution raises, and in
    the publication of the release that error is logged and raised again:
    the run ends. *)
Theorem pull_request_resolution
  (w : World) (p : GitFlowBranchesPrefixes) (branch : string)
  (version : jsstring) (projectName : string) (s s' sr : state)
  (r : error + Release.PRInfo) :
  release p = "release/" ->
  Release.getPRInfo w branch s = (s', r) ->
  let formats :=
    [branch; stripPrefix (release p) branch; w_owner w +++ ":" +++ branch] in
  let s0 := record (EInfo ("Searching for PR: " +++ branch)) s in
  Release.branchFormats w branch = formats
  /\ (exists t rest,
        st_trace s' = st_trace s ++ t
        /\ formats = Resolver.listed_heads t ++ rest)
  /\ match r with
     | inr i =>
         exists before f after s1,
           formats = before ++ f :: after
           /\ Resolver.skipped w before s0 s1
           /\ Resolver.found w f s1 s' i
     | inl e =>
         e = Release.noPullRequest branch
         /\ exists s1,
              Resolver.skipped w formats s0 s1
              /\ s' = Resolver.gave_up w branch s1
     end
  /\ match Release.getPRInfo w ("release/" +++ show version)
             (record (EInfo ("Creating GitHub release for version "
                               +++ show version)) sr) with
     | (sr', inl e) =>
         Release.createGitHubRelease w version projectName sr
         = (record (EInfo ("Error creating GitHub release: "
                             +++ error_to_string e)) sr', inl e)
     | (_, inr _) => True
     end.
Proof.
  intros Hp H formats s0.
  assert (Hf : Release.branchFormats w branch = formats).
  { unfold formats. rewrite Hp. apply branchFormats_spec. }
  unfold Release.getPRInfo in H.
  erewrite bind_ok_intro in H by apply info_run.
  rewrite Hf in H.
  split; [exact Hf | split; [| split]].
  - destruct (searchFormats_heads w branch _ _ _ _ H) as (t & rest & Et & Hh).
    exists (EInfo ("Searching for PR: " +++ branch) :: t), rest. split.
    + rewrite Et. cbn [record st_trace]. rewrite <- app_assoc. reflexivity.
    + exact Hh.
  - exact (searchFormats_outcome w branch _ _ _ _ H).
  - destruct (Release.getPRInfo w ("release/" +++ show version) _)
      as [sr' [e | i]] eqn:Hg; [| exact I].
    unfold Release.createGitHubRelease.
    erewrite try_catch_fail_intro.
    2:{ logged. erewrite bind_fail_intro by exact Hg. reflexivity. }
    reflexivity.
Qed.

Lemma pull_request_resolution_witness :
  let w := ScenarioResolver.flaky in
  let s0 := record (EInfo "Searching for PR: release/1.2.0") initial in
  let s' := fst (Release.getPRInfo w "release/1.2.0" initial) in
  exists before f after s1,
    ["release/1.2.0"; "1.2.0"; "o:release/1.2.0"] = before ++ f :: after
    /\ Resolver.skipped w before s0 s1
    /\ Resolver.found w f s1 s'
         {| Release.body := "Notes";
            Release.url := "https://example.test/pull/8" |}.
Proof.
  exact (proj1 (proj2 (proj2 (pull_request_resolution ScenarioResolver.flaky
                                Scenario.prefixes "release/1.2.0"
                                (JStr "1.2.0") "demo" initial _ initial _
                                eq_refl eq_refl)))).
Defined.

(** C6 as it is worded fails: when the detail of the pull request listed
    for the first candidate cannot be retrieved, the resolution moves on and
    describes the pull request of a later candidate. *)
Lemma first_listed_is_not_always_taken :
  ~ Resolver.takes_first_listed ScenarioResolver.flaky "release/1.2.0" initial.
Proof.
  intros H.
  destruct (H _ _ eq_refl) as (pr & Hl & Hu).
  vm_compute in Hl. inversion Hl. subst pr.
  vm_compute in Hu. discriminate Hu.
Qed.

(* ================================================================== *)
(** * The changelog *)
(* ================================================================== *)

Section Lines.

Lemma split_go_LF_nonempty s cur : split_go LF s 0 cur <> [].
Proof.
  revert cur. induction s as [| c s IH]; intros cur; cbn [split_go].
  - discriminate.
  - destruct (String.prefix LF (String c s)); [discriminate | apply IH].
Qed.

Lemma join_cons sep x l :
  l <> [] -> join sep (x :: l) = x +++ sep +++ join sep l.
Proof. destruct l; [intros H; contradiction H; reflexivity | reflexivity]. Qed.

Lemma join_split_go s :
  forall cur, join LF (split_go LF s 0 cur) = cur +++ s.
Proof.
  induction s as [| c s IH]; intros cur; cbn [split_go].
  - cbn. symmetry. apply append_nil_r.
  - destruct (String.prefix LF (String c s)) eqn:E.
    + rewrite join_cons by apply split_go_LF_nonempty.
      cbn [String.length LF Nat.sub]. rewrite IH.
      unfold LF in E. rewrite prefix_cons in E.
      apply andb_prop in E. destruct E as [E _].
      apply Ascii.eqb_eq in E. subst c. reflexivity.
    + rewrite IH, append_assoc. reflexivity.
Qed.

(** Splitting into lines and joining them again gives the text back. *)
Lemma join_split_LF s : join LF (split LF s) = s.
Proof. unfold split. cbn [LF]. apply (join_split_go s ""). Qed.



End Lines.






(* ================================================================== *)
(** * The platform descriptor *)
(* ================================================================== *)

Section DescriptorPatch.
Import Matching Descriptor.

Lemma at_bol_bol prev s caps : at_bol true (MState prev s caps) = bol prev.
Proof. destruct prev; reflexivity. Qed.

Lemma getSubstitution_cons m b a c r :
  c <> "$"%char ->
  getSubstitution m b a (String c r) = String c (getSubstitution m b a r).
Proof.
  intros H.
  destruct c as [[] [] [] [] [] [] [] []]; try reflexivity.
  contradiction H. reflexivity.
Qed.

Lemma getSubstitution_plain m b a repl :
  includes "$" repl = false -> getSubstitution m b a repl = repl.
Proof.
  induction repl as [| c r IH]; intros H; [reflexivity |].
  cbn [includes] in H. apply orb_false_elim in H. destruct H as [Hc Hr].
  rewrite getSubstitution_cons.
  - rewrite IH by exact Hr. reflexivity.
  - intros ->. rewrite prefix_cons, Ascii.eqb_refl in Hc.
    destruct r; discriminate Hc.
Qed.

Variable repl : string.

Let G := replace_global_go true mtaVersionRegex repl.

(** Where no line starts with [version:], nothing is replaced. *)
Lemma no_version_line_unchanged s :
  forall before prev,
    has_version_line (bol prev) s = false -> G before prev s 0 = s.
Proof.
  unfold G.
  induction s as [| c s IH]; intros before prev H;
    cbn [replace_global_go]; rewrite attempt_version, at_bol_bol;
    cbn [has_version_line] in H; apply orb_false_elim in H;
    destruct H as [H1 H2]; rewrite H1.
  - reflexivity.
  - rewrite (IH _ (Some c)) by exact H2. reflexivity.
Qed.

Hypothesis plain : includes "$" repl = false.

Lemma G_before s :
  forall b1 b2 prev skip, G b1 prev s skip = G b2 prev s skip.
Proof.
  unfold G.
  induction s as [| c s IH]; intros b1 b2 prev skip; cbn [replace_global_go].
  - destruct skip; [| reflexivity].
    destruct (attempt true mtaVersionRegex prev ""); [| reflexivity].
    rewrite !getSubstitution_plain by exact plain. reflexivity.
  - destruct skip as [| k]; [| apply IH].
    destruct (attempt true mtaVersionRegex prev (String c s)) as [y |].
    + rewrite !getSubstitution_plain by exact plain.
      destruct (String.length (String c s) - String.length (ms_rest y)).
      * rewrite (IH (b1 +++ String c "") (b2 +++ String c "")). reflexivity.
      * rewrite (IH (b1 +++ String c "") (b2 +++ String c "")). reflexivity.
    + rewrite (IH (b1 +++ String c "") (b2 +++ String c "")). reflexivity.
Qed.

(** The rest of a match is passed over. *)
Lemma G_skip t :
  forall before prev more,
    G before prev (t +++ more) (String.length t)
    = G before (last_of t prev) more 0.
Proof.
  induction t as [| c t IH]; intros before prev more.
  - reflexivity.
  - unfold G. cbn [String.append String.length replace_global_go last_of].
    fold G. rewrite IH. apply G_before.
Qed.

(** Inside a line nothing matches. *)
Lemma G_copy t :
  forall before c more,
    single_line t = true -> is_line_terminator c = false ->
    G before (Some c) (t +++ more) 0
    = t +++ G before (last_of t (Some c)) more 0.
Proof.
  induction t as [| d t IH]; intros before c more Ht Hc.
  - reflexivity.
  - cbn [single_line] in Ht. apply andb_prop in Ht. destruct Ht as [Hd Ht].
    apply negb_true_iff in Hd.
    unfold G. cbn [String.append replace_global_go].
    rewrite attempt_version, at_bol_bol. cbn [bol]. rewrite Hc. cbn [andb].
    fold G. rewrite (G_before _ _ before), (IH before d more Ht Hd).
    reflexivity.
Qed.

Lemma last_of_inside t :
  forall c, single_line t = true -> is_line_terminator c = false ->
    exists d, last_of t (Some c) = Some d /\ is_line_terminator d = false.
Proof.
  induction t as [| e t IH]; intros c Ht Hc.
  - exists c. split; [reflexivity | exact Hc].
  - cbn [single_line] in Ht. apply andb_prop in Ht. destruct Ht as [He Ht].
    apply negb_true_iff in He. cbn [last_of]. apply IH; assumption.
Qed.

Let tail := rest_of_text repl.

Lemma G_end_of_line before d more :
  is_line_terminator d = false -> ends_line more ->
  G before (Some d) more 0 = tail more.
Proof.
  intros Hd [-> | (c & r & Hc & ->)]; unfold G, tail, rest_of_text.
  - cbn [replace_global_go]. rewrite attempt_version, at_bol_bol.
    cbn [bol]. rewrite Hd. reflexivity.
  - cbn [replace_global_go].
    rewrite attempt_version, at_bol_bol. cbn [bol]. rewrite Hd. cbn [andb].
    fold G. rewrite (G_before _ _ ""). reflexivity.
Qed.

Lemma prefix_before_end p :
  single_line p = true ->
  forall l more, ends_line more ->
    String.prefix p (l +++ more) = String.prefix p l.
Proof.
  induction p as [| a p IH]; intros Hp l more Hm.
  - destruct l, more; reflexivity.
  - cbn [single_line] in Hp. apply andb_prop in Hp. destruct Hp as [Ha Hp].
    destruct l as [| d l].
    + destruct Hm as [-> | (c & r & Hc & ->)]; [reflexivity |].
      cbn [String.append]. rewrite prefix_cons.
      destruct (Ascii.eqb a c) eqn:E; [| reflexivity].
      apply Ascii.eqb_eq in E. subst a. rewrite Hc in Ha. discriminate Ha.
    + cbn [String.append]. rewrite !prefix_cons, (IH Hp l more Hm).
      reflexivity.
Qed.

Lemma single_line_drop n :
  forall l, single_line l = true -> single_line (drop n l) = true.
Proof.
  induction n as [| n IH]; intros l H; [destruct l; exact H |].
  destruct l as [| c l]; [exact H |].
  cbn [single_line] in H. apply andb_prop in H. destruct H as [_ H].
  cbn [drop]. apply IH. exact H.
Qed.

Lemma single_line_trimStart l :
  single_line l = true -> single_line (trimStart l) = true.
Proof.
  induction l as [| c l IH]; intros H; [exact H |].
  cbn [trimStart]. destruct (is_white_space c); [| exact H].
  cbn [single_line] in H. apply andb_prop in H. destruct H as [_ H].
  apply IH. exact H.
Qed.

Lemma drop_app n :
  forall l more, n <= String.length l ->
    drop n (l +++ more) = drop n l +++ more.
Proof.
  induction n as [| n IH]; intros l more H.
  - destruct l; [destruct more |]; reflexivity.
  - destruct l as [| c l]; [inversion H |].
    cbn [drop String.append]. apply IH. cbn in H. lia.
Qed.

Lemma prefix_length p :
  forall l, String.prefix p l = true -> String.length p <= String.length l.
Proof.
  induction p as [| a p IH]; intros l H; [cbn; lia |].
  destruct l as [| d l]; [discriminate H |].
  rewrite prefix_cons in H. apply andb_prop in H. destruct H as [_ H].
  cbn [String.length]. specialize (IH l H). lia.
Qed.

Lemma trimStart_app t more :
  trimStart t <> "" -> trimStart (t +++ more) = trimStart t +++ more.
Proof.
  induction t as [| c t IH]; intros H; [contradiction H; reflexivity |].
  cbn [trimStart String.append] in *.
  destruct (is_white_space c); [apply IH; exact H | reflexivity].
Qed.

Lemma skip_rest_of_line u :
  forall more, single_line u = true -> ends_line more ->
    skip_set true [(ch 10, ch 10); (ch 13, ch 13)] (u +++ more) = more.
Proof.
  induction u as [| c u IH]; intros more Hu Hm.
  - destruct Hm as [-> | (c & r & Hc & ->)]; [reflexivity |].
    cbn [String.append skip_set]. rewrite in_dot, Hc. reflexivity.
  - cbn [single_line] in Hu. apply andb_prop in Hu. destruct Hu as [Hc Hu].
    cbn [String.append skip_set]. rewrite in_dot, Hc. apply IH; assumption.
Qed.

(** One line, at the start of a line. *)
Lemma G_line l more before prev :
  bol prev = true -> well_formed l = true -> ends_line more ->
  G before prev (l +++ more) 0
  = (if is_version_line l then repl else l) +++ tail more.
Proof.
  intros Hb Hw Hm. unfold well_formed in Hw.
  apply andb_prop in Hw. destruct Hw as [Hl Hv].
  destruct (is_version_line l) eqn:Hver.
  - (* a version line *)
    cbn [negb orb] in Hv. unfold has_value in Hv.
    apply negb_true_iff in Hv. apply String.eqb_neq in Hv.
    destruct l as [| c l]; [discriminate Hver |].
    unfold G. cbn [String.append replace_global_go].
    change (String c (l +++ more)) with (String c l +++ more).
    destruct (attempt true mtaVersionRegex prev (String c l +++ more))
      as [y |] eqn:Ha.
    2:{ rewrite attempt_version, at_bol_bol, Hb in Ha.
        rewrite (prefix_before_end "version:" eq_refl _ _ Hm) in Ha.
        unfold is_version_line in Hver. rewrite Hver in Ha.
        discriminate Ha. }
    pose proof (attempt_version_rest _ _ _ Ha) as Hrest.
    rewrite drop_app in Hrest
      by (apply (prefix_length "version:"); exact Hver).
    rewrite trimStart_app in Hrest by exact Hv.
    rewrite skip_rest_of_line in Hrest;
      [| apply single_line_trimStart, single_line_drop; exact Hl | exact Hm].
    rewrite Hrest, getSubstitution_plain by exact plain.
    rewrite length_app. cbn [String.length].
    replace (S (String.length l) + String.length more - String.length more)
      with (S (String.length l)) by lia.
    fold G. rewrite G_skip.
    cbn [single_line] in Hl. apply andb_prop in Hl. destruct Hl as [Hc Hl].
    apply negb_true_iff in Hc.
    destruct (last_of_inside l c Hl Hc) as (d & -> & Hd).
    rewrite (G_end_of_line _ d more Hd Hm). reflexivity.
  - (* any other line *)
    destruct l as [| c l].
    + cbn [String.append].
      pose proof (prefix_before_end "version:" eq_refl "" more Hm) as Hpre.
      cbn [String.append] in Hpre.
      destruct Hm as [-> | (c & r & Hc & ->)]; unfold G, tail, rest_of_text.
      * cbn [replace_global_go]. rewrite attempt_version, at_bol_bol, Hb.
        reflexivity.
      * cbn [replace_global_go].
        rewrite attempt_version, at_bol_bol, Hb, Hpre. cbn [andb].
        fold G. rewrite (G_before _ _ ""). reflexivity.
    + unfold G. cbn [String.append replace_global_go].
      change (String c (l +++ more)) with (String c l +++ more).
      rewrite attempt_version, at_bol_bol, Hb.
      rewrite (prefix_before_end "version:" eq_refl _ _ Hm).
      unfold is_version_line in Hver. rewrite Hver. cbn [andb].
      cbn [single_line] in Hl. apply andb_prop in Hl. destruct Hl as [Hc Hl].
      apply negb_true_iff in Hc.
      fold G. rewrite (G_copy l _ c more Hl Hc).
      destruct (last_of_inside l c Hl Hc) as (d & -> & Hd).
      rewrite (G_end_of_line _ d more Hd Hm). reflexivity.
Qed.

Lemma join_cons_tail (x : string) (l : list string) :
  join LF (x :: l)
  = x +++ match l with [] => "" | _ => LF +++ join LF l end.
Proof. destruct l; [symmetry; apply append_nil_r | reflexivity]. Qed.

(** All the lines. *)
Lemma G_lines (lines : list string) :
  forall before prev,
    bol prev = true -> forallb well_formed lines = true ->
    G before prev (join LF lines) 0
    = join LF (map (fun l => if is_version_line l then repl else l) lines).
Proof.
  induction lines as [| l rest IH]; intros before prev Hb Hw.
  - unfold G. cbn [join map replace_global_go].
    rewrite attempt_version, at_bol_bol, Hb. reflexivity.
  - cbn [forallb] in Hw. apply andb_prop in Hw. destruct Hw as [Hl Hr].
    cbn [map]. rewrite !join_cons_tail.
    destruct rest as [| l2 rest'].
    + rewrite (G_line l "" before prev Hb Hl (or_introl eq_refl)).
      reflexivity.
    + rewrite (G_line l (LF +++ join LF (l2 :: rest')) before prev Hb Hl
                 (or_intror
                    (ex_intro _ (ascii_of_nat 10)
                       (ex_intro _ (join LF (l2 :: rest'))
                          (conj eq_refl eq_refl))))).
      unfold tail, rest_of_text. cbn [LF String.append map].
      fold G. rewrite (IH "" (Some (ascii_of_nat 10)) eq_refl Hr).
      reflexivity.
Qed.

(** All the lines, whatever line terminators separate them. *)
Lemma G_glue (rest : list (ascii * string)) :
  forall first before prev,
    bol prev = true -> well_formed first = true ->
    forallb well_formed_after rest = true ->
    G before prev (glue first rest) 0
    = glue (if is_version_line first then repl else first)
        (map (fun cl => (fst cl,
                         if is_version_line (snd cl) then repl else snd cl))
           rest).
Proof.
  induction rest as [| [c l] rest IH]; intros first before prev Hb Hf Hr.
  - cbn [glue map].
    rewrite <- (append_nil_r first) at 1.
    rewrite (G_line first "" before prev Hb Hf (or_introl eq_refl)).
    apply append_nil_r.
  - cbn [forallb] in Hr. apply andb_prop in Hr. destruct Hr as [Hcl Hr].
    unfold well_formed_after in Hcl. cbn [fst snd] in Hcl.
    apply andb_prop in Hcl. destruct Hcl as [Hc Hl].
    cbn [glue map fst snd].
    rewrite (G_line first _ before prev Hb Hf
               (or_intror
                  (ex_intro _ c
                     (ex_intro _ (glue l rest) (conj Hc eq_refl))))).
    unfold tail, rest_of_text. fold G.
    rewrite (IH l "" (Some c) Hc Hl Hr). reflexivity.
Qed.
End DescriptorPatch.

Section Segments.
Import Descriptor.

(** The lines of a text give the text back. *)
Lemma glue_segments (s : string) :
  glue (fst (segments s)) (snd (segments s)) = s.
Proof.
  induction s as [| c s IH]; [reflexivity |].
  cbn [segments]. destruct (segments s) as [first rest].
  cbn [fst snd] in IH.
  destruct (is_line_terminator c); cbn [fst snd glue String.append].
  - rewrite IH. reflexivity.
  - destruct rest as [| [d l] rest']; cbn [glue] in IH |- *.
    + rewrite IH. reflexivity.
    + cbn [String.append]. rewrite IH. reflexivity.
Qed.

(** They hold no line terminator, and come after one. *)
Lemma segments_single (s : string) :
  single_line (fst (segments s)) = true
  /\ forallb (fun cl => is_line_terminator (fst cl) && single_line (snd cl))
       (snd (segments s)) = true.
Proof.
  induction s as [| c s IH]; [split; reflexivity |].
  cbn [segments]. destruct (segments s) as [first rest].
  cbn [fst snd] in IH. destruct IH as [Hf Hr].
  destruct (is_line_terminator c) eqn:Hc; cbn [fst snd forallb single_line].
  - rewrite Hc, Hf, Hr. split; reflexivity.
  - rewrite Hc, Hf, Hr. split; reflexivity.
Qed.
End Segments.

Lemma includes_dollar_version v :
  includes "$" v = false -> includes "$" ("version: " +++ v) = false.
Proof.
  intros H. cbn [String.append includes].
  rewrite !prefix_cons. cbn [Ascii.eqb Bool.eqb andb orb]. exact H.
Qed.

(** C8, as amended.  Take a text given by its lines and the line
    terminators between them, line feeds or carriage returns alike, where
    each line that starts with [version:] carries a value.  Every such
    line, and not only the first, becomes [version: <version>], for a
    version without [$]; the other lines and all the line terminators are
    unchanged.  Every text is given by its lines in this way.  And a text
    in which no line starts with [version:] is returned as it is, whatever
    the version. *)
Theorem descriptor_patch
  (first : string) (rest : list (ascii * string)) (v : string)
  (content : string) (other : jsstring) :
  includes "$" v = false ->
  Descriptor.well_formed first = true ->
  forallb Descriptor.well_formed_after rest = true ->
  Descriptor.has_version_line true content = false ->
  updateMtaYamlVersion (Descriptor.glue first rest) (JStr v)
  = Descriptor.glue (Descriptor.patch_line v first)
      (map (fun cl => (fst cl, Descriptor.patch_line v (snd cl))) rest)
  /\ updateMtaYamlVersion content other = content
  /\ (forall text : string,
        exists line lines,
          text = Descriptor.glue line lines
          /\ Descriptor.single_line line = true
          /\ forallb (fun cl => is_line_terminator (fst cl)
                                && Descriptor.single_line (snd cl)) lines
             = true).
Proof.
  intros Hv Hf Hr Hc. unfold updateMtaYamlVersion, replace_global.
  split; [| split].
  - cbn [show].
    apply (G_glue ("version: " +++ v) (includes_dollar_version v Hv) rest
             first "" None eq_refl Hf Hr).
  - apply (no_version_line_unchanged ("version: " +++ show other) content
             "" None Hc).
  - intros text.
    exists (fst (Descriptor.segments text)), (snd (Descriptor.segments text)).
    split; [symmetry; apply glue_segments | apply segments_single].
Qed.

Lemma descriptor_patch_witness :
  updateMtaYamlVersion Descriptor.descriptor_crlf (JStr "2.0.0")
  = "ID: app" +++ Descriptor.CR +++ LF +++ "version: 2.0.0"
    +++ Descriptor.CR +++ LF +++ "modules:" +++ Descriptor.CR +++ LF
    +++ "version: 2.0.0"
  /\ updateMtaYamlVersion ("ID: app" +++ LF +++ "modules:") (JStr "2.0.0")
     = "ID: app" +++ LF +++ "modules:".
Proof.
  pose proof (descriptor_patch
                (fst (Descriptor.segments Descriptor.descriptor_crlf))
                (snd (Descriptor.segments Descriptor.descriptor_crlf)) "2.0.0"
                ("ID: app" +++ LF +++ "modules:") (JStr "2.0.0")
                eq_refl eq_refl eq_refl eq_refl) as (H1 & H2 & _).
  split; [exact H1 | exact H2].
Defined.

(** C8 as it is worded fails: a second line that starts with [version:] is
    replaced as well. *)
Lemma second_version_line_is_replaced :
  ~ Descriptor.replaces_first_only Descriptor.two_versions "9.9.9"
  /\ updateMtaYamlVersion Descriptor.two_versions (JStr "9.9.9")
     = "version: 9.9.9" +++ LF +++ "modules:" +++ LF +++ "version: 9.9.9".
Proof.
  split; [| reflexivity].
  unfold Descriptor.replaces_first_only. vm_compute. discriminate.
Qed.

(** A [version:] line without a value takes the next line with it, and a
    version with [$&] brings the replaced text back: the limits of the
    statement above. *)
Example descriptor_patch_limits :
  updateMtaYamlVersion ("version:" +++ LF +++ "name: x") (JStr "9.9.9")
  = "version: 9.9.9"
  /\ updateMtaYamlVersion "version: 1" (JStr "$&!") = "version: version: 1!".
Proof. split; reflexivity. Qed.

(* ================================================================== *)
(** * More about the handlers *)
(* ================================================================== *)

Lemma added_app (s s' : state) (t : trace) :
  st_trace s' = st_trace s ++ t -> Run.added s s' = t.
Proof.
  intros H. unfold Run.added. rewrite H.
  rewrite skipn_app, skipn_all, Nat.sub_diag. reflexivity.
Qed.

Ltac trace_eq :=
  cbn [record st_trace]; rewrite <- ?app_assoc; reflexivity.

(** X1.  The feature handler logs its name, reads the branches, merges the
    current branch into the development branch and only when that merge
    succeeded asks for the deletion of the current branch; it returns the
    commit of the merge.  It asks nothing else: a run that raises before
    or at the merge deletes nothing, and the merge into the development
    branch is the only one. *)
Theorem Feature_handle_outcomes (w : World) (s : state) :
  let (s', r) := Feature.handle w s in
  exists t,
    st_trace s' = st_trace s ++ EInfo "FEATURE HANDLER" :: t
    /\ ((exists e, t = [EGetBranches (inl e)] /\ r = inl e)
        \/ (exists b e,
              t = [EGetBranches (inr b);
                   EMerge (current b) (development b) (inl e)]
              /\ r = inl e)
        \/ (exists b sha d,
              t = [EGetBranches (inr b);
                   EMerge (current b) (development b) (inr sha);
                   EDelete (current b) d]
              /\ r = match d with
                     | inl e => inl e
                     | inr _ => inr sha
                     end)).
Proof.
  unfold Feature.handle, bind, info, getBranches, github_merge,
    github_delete, call, ret.
  cbn [record st_trace].
  destruct (w_getBranches w _) as [e | b] eqn:Hb.
  - eexists. split; [trace_eq |]. left. exists e. split; reflexivity.
  - cbn [st_trace].
    destruct (w_merge w _ (current b) (development b)) as [e | sha] eqn:Hm.
    + eexists. split; [trace_eq |]. right. left. exists b, e.
      split; reflexivity.
    + cbn [st_trace].
      destruct (w_delete w _ (current b)) as [e | []] eqn:Hd.
      * eexists. split; [trace_eq |]. right. right. exists b, sha, (inl e).
        split; reflexivity.
      * eexists. split; [trace_eq |]. right. right. exists b, sha, (inr tt).
        split; reflexivity.
Qed.

Lemma emits_impl {A : Type} (P Q : event -> Prop) (m : M A) :
  (forall e, P e -> Q e) -> emits P m -> emits Q m.
Proof.
  intros HPQ Hm s s' r H. destruct (Hm _ _ _ H) as (t & Et & Ft).
  exists t. split; [exact Et |]. eapply Forall_impl; [| exact Ft]. exact HPQ.
Qed.

Lemma emits_raising {A : Type} (P : event -> Prop) (m : M A) :
  emits P m -> raising P m.
Proof. intros Hm s s' e H. exact (Hm _ _ _ H). Qed.

Lemma raising_bind {A B : Type} (P : event -> Prop) (m : M A) (f : A -> M B) :
  emits P m -> (forall a, raising P (f a)) -> raising P (bind m f).
Proof.
  intros Hm Hf s s'' e H.
  destruct (bind_inv _ _ _ _ _ H) as [(e' & H1 & _) | (s' & a & H1 & H2)].
  - exact (Hm _ _ _ H1).
  - destruct (Hm _ _ _ H1) as (t1 & E1 & F1).
    destruct (Hf a _ _ _ H2) as (t2 & E2 & F2).
    exists (t1 ++ t2). split.
    + rewrite E2, E1. symmetry. apply app_assoc.
    + apply Forall_app. split; assumption.
Qed.

Lemma quiet_keeps e : quiet e -> Run.keeps_branches e.
Proof. destruct e; cbn; tauto. Qed.

Lemma quiet_prepare (w : World) : emits quiet (Stage.prepare w).
Proof.
  unfold Stage.prepare. apply emits_bind; [emits_calls | intros _].
  apply emits_bind; [emits_calls | intros b0].
  apply emits_bind; [emits_calls | intros p0].
  apply emits_bind; [emits_calls | intros v0].
  apply emits_bind; [apply quiet_getProjectName | intros n0].
  apply emits_bind; [apply quiet_updateVersionFiles | intros _].
  emits_calls.
Qed.

Lemma keeps_merge (w : World) b : emits Run.keeps_branches (Release.merge w b).
Proof. unfold Release.merge, github_merge. emits_calls. Qed.

Lemma raising_promote (w : World) (c : Stage.context) :
  raising Run.keeps_branches (Stage.promote w c).
Proof.
  unfold Stage.promote.
  apply raising_bind; [apply keeps_merge | intros sha].
  apply raising_bind.
  { apply (emits_impl quiet); [exact quiet_keeps | apply quiet_createTag]. }
  intros _. apply raising_bind.
  { apply (emits_impl quiet); [exact quiet_keeps | apply quiet_buildProject]. }
  intros _. apply raising_bind.
  { apply (emits_impl quiet); [exact quiet_keeps |].
    apply quiet_createGitHubRelease. }
  intros _ s s' e H.
  apply bind_inv in H. destruct H as [(e' & H & E) | (s1 & [] & _ & H)].
  - unfold github_delete in H. apply call_inv in H. destruct H as (Ha & ->).
    inversion E. subst e'.
    exists [EDelete (current (Stage.branches c)) (inl e)].
    split; [reflexivity | repeat constructor].
  - discriminate H.
Qed.

Lemma raising_stages (w : World) :
  raising Run.keeps_branches
    (c <- Stage.prepare w ;; Stage.changelog w c ;; Stage.promote w c).
Proof.
  apply raising_bind.
  { apply (emits_impl quiet); [exact quiet_keeps | apply quiet_prepare]. }
  intros c. apply raising_bind.
  { apply (emits_impl quiet); [exact quiet_keeps |].
    unfold Stage.changelog. apply quiet_createOrUpdateChangelog. }
  intros _. apply raising_promote.
Qed.

(** X2.  A run of the release handler that raises has deleted no branch:
    whatever it added to the trace, no deletion that was carried out is in
    it.  The release branch is still there to run the release again. *)
Theorem failed_release_keeps_branch (w : World) (s s' : state) (e : error) :
  Release.handle w s = (s', inl e) ->
  Forall Run.keeps_branches (Run.added s s').
Proof.
  intros H. rewrite handle_stages in H.
  destruct (raising_stages w _ _ _ H) as (t & Et & Ft).
  rewrite (added_app _ _ _ Et). exact Ft.
Qed.

Lemma failed_release_keeps_branch_witness :
  Forall Run.keeps_branches
    (Run.added initial
       (fst (Release.handle
               (ScenarioFailures.protected Scenario.release_1_2_0 false)
               initial))).
Proof.
  apply (failed_release_keeps_branch
           (ScenarioFailures.protected Scenario.release_1_2_0 false) initial
           (fst (Release.handle
                   (ScenarioFailures.protected Scenario.release_1_2_0 false)
                   initial))
           (MkError "HttpError" "Reference is protected")).
  vm_compute. reflexivity.
Defined.

(** X3.  A merge that fails ends the run where it stands.  Take a run of
    the release handler in which what comes before the merges is done.  If
    the merge into the development branch raises, the handler raises that
    error and the main branch was not asked to take anything.  If it
    succeeds and the merge into the main branch raises, the handler raises
    that error with the development branch merged and the main branch not:
    no tag is created, nothing is built or published, and the release
    branch is kept. *)
Theorem merge_failures (w : World) (c : Stage.context) (s0 sp s : state) :
  let b := Stage.branches c in
  Stage.prepare w s0 = (sp, inr c) ->
  Stage.changelog w c sp = (s, inr tt) ->
  match w_merge w (st_trace s) (current b) (development b) with
  | inl e =>
      Release.handle w s0
      = (record (EMerge (current b) (development b) (inl e)) s, inl e)
  | inr x =>
      let s1 := record (EMerge (current b) (development b) (inr x)) s in
      match w_merge w (st_trace s1) (current b) (main b) with
      | inl e =>
          Release.handle w s0
          = (record (EMerge (current b) (main b) (inl e)) s1, inl e)
      | inr sha =>
          Release.merge w b s
          = (record (EMerge (current b) (main b) (inr sha)) s1, inr sha)
      end
  end.
Proof.
  intros b Hprep Hlog. rewrite handle_stages.
  erewrite bind_ok_intro by exact Hprep.
  erewrite bind_ok_intro by exact Hlog.
  unfold Stage.promote, Release.merge, github_merge.
  fold b.
  destruct (w_merge w (st_trace s) (current b) (development b))
    as [e | x] eqn:H1.
  - erewrite bind_fail_intro; [reflexivity |].
    erewrite bind_fail_intro; [reflexivity |].
    apply call_fail. exact H1.
  - cbv zeta.
    destruct (w_merge w _ (current b) (main b)) as [e | sha] eqn:H2.
    + erewrite bind_fail_intro; [reflexivity |].
      erewrite bind_ok_intro by (apply call_ok; exact H1).
      erewrite bind_fail_intro; [reflexivity |].
      apply call_fail. exact H2.
    + erewrite bind_ok_intro by (apply call_ok; exact H1).
      erewrite bind_ok_intro by (apply call_ok; exact H2).
      reflexivity.
Qed.

Lemma merge_failures_witness :
  let w := ScenarioFailures.conflict Scenario.release_1_2_0 false in
  let c := ScenarioRuns.context_1_2_0 in
  let s := fst (Stage.changelog w c (fst (Stage.prepare w initial))) in
  let e := MkError "HttpError" "Merge conflict" in
  Release.handle w initial
  = (record (EMerge "release/1.2.0" "main" (inl e))
       (record (EMerge "release/1.2.0" "develop" (inr "sha-develop")) s),
     inl e).
Proof.
  intros w c s e.
  apply (merge_failures w c initial (fst (Stage.prepare w initial)) s).
  - vm_compute. reflexivity.
  - vm_compute. reflexivity.
Defined.

Lemma try_catch_inv {A : Type} (m : M A) (h : error -> M A) s s' r :
  try_catch m h s = (s', r) ->
  (exists a, m s = (s', inr a) /\ r = inr a)
  \/ (exists s1 e, m s = (s1, inl e) /\ h e s1 = (s', r)).
Proof.
  unfold try_catch. destruct (m s) as [s1 [e | a]]; intros H.
  - right. exists s1, e. split; [reflexivity | exact H].
  - left. exists a. inversion H. subst. split; reflexivity.
Qed.

(** A handler that logs and raises again does not end well. *)
Lemma rethrow_ok {A : Type} (m : M A) (msg : error -> string) s s' a :
  try_catch m (fun error => info (msg error) ;; throw error) s = (s', inr a) ->
  m s = (s', inr a).
Proof.
  intros H. apply try_catch_inv in H.
  destruct H as [(a' & H & E) | (s1 & e & _ & H)].
  - inversion E. subst. exact H.
  - discriminate H.
Qed.

Lemma rethrow_fail {A : Type} (m : M A) (msg : error -> string) s s' e :
  try_catch m (fun error => info (msg error) ;; throw error) s = (s', inl e) ->
  exists s1, m s = (s1, inl e) /\ s' = record (EInfo (msg e)) s1.
Proof.
  intros H. apply try_catch_inv in H.
  destruct H as [(a' & _ & E) | (s1 & e' & Hm & H)]; [discriminate E |].
  inversion H. subst. exists s1. split; [exact Hm | reflexivity].
Qed.

(** What a successful update of [package.json] asked of the gateway. *)
Lemma updatePackageJson_ok_inv (w : World) version branch s s' :
  Release.updatePackageJson w version branch s = (s', inr tt) ->
  exists content updated sha,
    updatePackageJsonVersion (w_host w) content version = inr updated
    /\ st_trace s' = st_trace s ++
         [EGetFileContent "package.json" branch (inr content);
          EGetContent "package.json" branch (inr sha);
          EUpdateFile "package.json" updated
            ("chore: update package.json version to " +++ show version)
            branch sha (inr tt);
          EInfo ("package.json version updated to: " +++ show version)].
Proof.
  unfold Release.updatePackageJson. intros H. apply rethrow_ok in H.
  unfold getFileContent, Release.getFileSha, repos_getContent, updateFile in H.
  apply bind_ok in H. destruct H as (s1 & content & H1 & H).
  apply call_inv in H1. destruct H1 as (_ & ->).
  apply bind_ok in H. destruct H as (s2 & updated & H2 & H).
  rewrite lift_run in H2. injection H2 as <- Hu.
  apply bind_ok in H. destruct H as (s3 & sha & H3 & H).
  apply call_inv in H3. destruct H3 as (_ & ->).
  apply bind_ok in H. destruct H as (s4 & [] & H4 & H).
  apply call_inv in H4. destruct H4 as (_ & ->).
  inversion H. subst s'. clear H.
  exists content, updated, sha. split; [exact Hu | trace_eq].
Qed.

Lemma updateVersionFiles_ok_inv (w : World) b p s s' :
  Release.updateVersionFiles w b p s = (s', inr tt) ->
  exists version content updated sha,
    extractVersionFromBranch (w_host w) (current b) (release p) = inr version
    /\ updatePackageJsonVersion (w_host w) content version = inr updated
    /\ st_trace s' = st_trace s ++
         [EInfo ("Updating version files to: " +++ show version);
          EGetFileContent "package.json" (current b) (inr content);
          EGetContent "package.json" (current b) (inr sha);
          EUpdateFile "package.json" updated
            ("chore: update package.json version to " +++ show version)
            (current b) sha (inr tt);
          EInfo ("package.json version updated to: " +++ show version);
          EInfo "Version files updated successfully"].
Proof.
  unfold Release.updateVersionFiles. intros H. apply rethrow_ok in H.
  apply bind_ok in H. destruct H as (s1 & version & H1 & H).
  rewrite lift_run in H1. injection H1 as <- Hv.
  apply bind_ok in H. destruct H as (s2 & [] & H2 & H).
  inversion H2. subst s2. clear H2.
  apply bind_ok in H. destruct H as (s3 & [] & H3 & H).
  apply updatePackageJson_ok_inv in H3.
  destruct H3 as (content & updated & sha & Hu & Et).
  inversion H. subst s'. clear H.
  exists version, content, updated, sha.
  split; [exact Hv | split; [exact Hu |]].
  cbn [record st_trace]. rewrite Et. cbn [record st_trace].
  rewrite <- !app_assoc. reflexivity.
Qed.

(** Where the events that are not [P] begin. *)
Lemma Forall_prefix {X : Type} (P : X -> Prop) (l r t1 t2 : list X) (x : X) :
  Forall P l -> ~ P x -> l ++ r = t1 ++ x :: t2 ->
  exists t, t1 = l ++ t /\ r = t ++ x :: t2.
Proof.
  intros Hl Hx. revert t1. induction Hl as [| a l Ha _ IH]; intros t1 E.
  - exists t1. split; [reflexivity | exact E].
  - destruct t1 as [| b t1].
    + cbn in E. inversion E. subst. contradiction.
    + cbn in E. inversion E. subst b.
      destruct (IH t1 H1) as (t & -> & ->).
      exists t. split; reflexivity.
Qed.

(** What the run [H] added to the trace, when it is quiet. *)
Ltac quiet_run H t E F :=
  match type of H with
  | ?m _ = _ =>
      let Hq := fresh in
      assert (Hq : emits quiet m)
        by (first [apply quiet_getProjectName
                  | apply quiet_updateVersionFiles
                  | emits_calls]);
      destruct (Hq _ _ _ H) as (t & E & F); clear Hq
  end.

Lemma prepare_ok_inv (w : World) s s' c :
  Stage.prepare w s = (s', inr c) ->
  exists t content updated sha,
    st_trace s' = st_trace s ++ t
    /\ Forall quiet t
    /\ extractVersionFromBranch (w_host w) (current (Stage.branches c))
         (release (Stage.prefixes c)) = inr (Stage.version c)
    /\ updatePackageJsonVersion (w_host w) content (Stage.version c)
       = inr updated
    /\ In (EUpdateFile "package.json" updated
             ("chore: update package.json version to "
                +++ show (Stage.version c))
             (current (Stage.branches c)) sha (inr tt)) t.
Proof.
  intros H. unfold Stage.prepare in H.
  apply bind_ok in H. destruct H as (s1 & [] & H1 & H).
  apply bind_ok in H. destruct H as (s2 & b & H2 & H).
  apply bind_ok in H. destruct H as (s3 & p & H3 & H).
  apply bind_ok in H. destruct H as (s4 & v & H4 & H).
  rewrite lift_run in H4. injection H4 as <- Hv.
  apply bind_ok in H. destruct H as (s5 & n & H5 & H).
  apply bind_ok in H. destruct H as (s6 & [] & H6 & H).
  rewrite ret_run in H. injection H as <- <-.
  cbn [Stage.branches Stage.prefixes Stage.version].
  destruct (updateVersionFiles_ok_inv _ _ _ _ _ H6)
    as (v' & content & updated & sha & Hv' & Hu & E6).
  rewrite Hv in Hv'. injection Hv' as <-.
  quiet_run H1 t1 E1 F1. quiet_run H2 t2 E2 F2. quiet_run H3 t3 E3 F3.
  quiet_run H5 t5 E5 F5. quiet_run H6 t6 E6' F6.
  rewrite E6' in E6. apply app_inv_head in E6. subst t6.
  eexists (t1 ++ t2 ++ t3 ++ t5 ++ _), content, updated, sha.
  split; [| split; [| split; [exact Hv | split; [exact Hu |]]]].
  - rewrite E6', E5, E3, E2, E1, <- !app_assoc. reflexivity.
  - repeat (apply Forall_app; split); assumption.
  - do 4 (apply in_or_app; right). cbn. auto.
Qed.

Lemma merges_current (w : World) (c : Stage.context) :
  emits (fun e => match e with
                  | EMerge src _ _ => src = current (Stage.branches c)
                  | _ => True
                  end) (Stage.promote w c).
Proof.
  unfold Stage.promote.
  apply emits_bind.
  { unfold Release.merge, github_merge.
    apply emits_bind; [apply emits_call; intros ?; reflexivity | intros _].
    apply emits_bind; [apply emits_call; intros ?; reflexivity | intros ?].
    apply emits_ret. }
  intros sha. apply emits_bind.
  { apply (emits_impl quiet); [| apply quiet_createTag].
    intros []; cbn; tauto. }
  intros _. apply emits_bind.
  { apply (emits_impl quiet); [| apply quiet_buildProject].
    intros []; cbn; tauto. }
  intros _. apply emits_bind.
  { apply (emits_impl quiet); [| apply quiet_createGitHubRelease].
    intros []; cbn; tauto. }
  intros _. unfold github_delete. emits_calls.
Qed.

(** What a run of the first stage added to the trace: the name of the
    handler, the branches and the prefixes as the gateway gave them, what
    reading the project name added, and the update of [package.json]. *)
Lemma prepare_ok_trace (w : World) s s' c :
  Stage.prepare w s = (s', inr c) ->
  exists tn content updated sha,
    extractVersionFromBranch (w_host w) (current (Stage.branches c))
      (release (Stage.prefixes c)) = inr (Stage.version c)
    /\ updatePackageJsonVersion (w_host w) content (Stage.version c)
       = inr updated
    /\ Forall quiet tn
    /\ st_trace s' = st_trace s ++
         [EInfo "RELEASE HANDLER";
          EGetBranches (inr (Stage.branches c));
          EGetPrefixes (Stage.prefixes c)]
         ++ tn ++
         [EInfo ("Updating version files to: " +++ show (Stage.version c));
          EGetFileContent "package.json" (current (Stage.branches c))
            (inr content);
          EGetContent "package.json" (current (Stage.branches c)) (inr sha);
          EUpdateFile "package.json" updated
            ("chore: update package.json version to "
               +++ show (Stage.version c))
            (current (Stage.branches c)) sha (inr tt);
          EInfo ("package.json version updated to: "
                   +++ show (Stage.version c));
          EInfo "Version files updated successfully"].
Proof.
  intros H. unfold Stage.prepare in H.
  apply bind_ok in H. destruct H as (s1 & [] & H1 & H).
  rewrite info_run in H1. injection H1 as <-.
  apply bind_ok in H. destruct H as (s2 & b & H2 & H).
  unfold getBranches in H2. apply call_inv in H2. destruct H2 as (_ & ->).
  apply bind_ok in H. destruct H as (s3 & p & H3 & H).
  unfold getPrefixes in H3. rewrite call_total_run in H3.
  injection H3 as <- <-.
  apply bind_ok in H. destruct H as (s4 & v & H4 & H).
  rewrite lift_run in H4. injection H4 as <- Hv.
  apply bind_ok in H. destruct H as (s5 & n & H5 & H).
  apply bind_ok in H. destruct H as (s6 & [] & H6 & H).
  rewrite ret_run in H. injection H as <- <-.
  cbn [Stage.branches Stage.prefixes Stage.version].
  destruct (updateVersionFiles_ok_inv _ _ _ _ _ H6)
    as (v' & content & updated & sha & Hv' & Hu & E6).
  rewrite Hv in Hv'. injection Hv' as <-.
  quiet_run H5 tn E5 F5.
  exists tn, content, updated, sha.
  split; [exact Hv | split; [exact Hu | split; [exact F5 |]]].
  rewrite E6, E5. cbn [record st_trace]. rewrite <- !app_assoc. reflexivity.
Qed.

(** X4.  In every run of the release handler, whenever a merge is asked
    for, the version in [package.json] has been updated on the release
    branch before.  What the run did before the merge begins with the
    branches and the prefixes it was given; the branch that is merged is
    the current one of these branches; the version is the one read off its
    name under the release prefix of these prefixes; the run then read
    [package.json] on that branch, and the gateway wrote, on that branch
    and on the blob it had given, the text that sets this version in the
    content it had given, with the message that names the version.  The
    version that reaches the development and main branches is the one of
    the release. *)
Theorem version_bump_precedes_merges
  (w : World) (s s' : state) (r : error + string)
  (t1 t2 : list event) (src dst : string) (res : error + string) :
  Release.handle w s = (s', r) ->
  Run.added s s' = t1 ++ EMerge src dst res :: t2 ->
  exists (b : Branches) (p : GitFlowBranchesPrefixes) (version : jsstring)
         (content updated sha : string) (between after : list event),
    src = current b
    /\ extractVersionFromBranch (w_host w) src (release p) = inr version
    /\ updatePackageJsonVersion (w_host w) content version = inr updated
    /\ Forall quiet between
    /\ t1 = [EInfo "RELEASE HANDLER"; EGetBranches (inr b); EGetPrefixes p]
            ++ between ++
            [EInfo ("Updating version files to: " +++ show version);
             EGetFileContent "package.json" src (inr content);
             EGetContent "package.json" src (inr sha);
             EUpdateFile "package.json" updated
               ("chore: update package.json version to " +++ show version)
               src sha (inr tt);
             EInfo ("package.json version updated to: " +++ show version);
             EInfo "Version files updated successfully"]
            ++ after.
Proof.
  intros H Ht. rewrite handle_stages in H.
  apply bind_inv in H. destruct H as [(e & Hp & _) | (s1 & c & Hp & H)].
  { destruct (quiet_prepare w _ _ _ Hp) as (t & Et & Ft).
    rewrite (added_app _ _ _ Et) in Ht. rewrite Ht in Ft.
    apply Forall_app in Ft. destruct Ft as (_ & Ft).
    inversion Ft. contradiction. }
  destruct (quiet_prepare w _ _ _ Hp) as (tp & Ep & Fp).
  destruct (prepare_ok_trace _ _ _ _ Hp)
    as (tn & content & updated & sha & Hv & Hu & Fn & Ep').
  rewrite Ep in Ep'. apply app_inv_head in Ep'.
  assert (Hrest : exists s2 tc tm,
            st_trace s2 = st_trace s1 ++ tc /\ Forall quiet tc
            /\ st_trace s' = st_trace s2 ++ tm
            /\ Forall (fun e => match e with
                  | EMerge src _ _ => src = current (Stage.branches c)
                  | _ => True
                  end) tm).
  { apply bind_inv in H. destruct H as [(e & Hc & _) | (s2 & [] & Hc & H)].
    - unfold Stage.changelog in Hc.
      destruct (quiet_createOrUpdateChangelog w _ _ _ _ _ Hc) as (tc & Ec & Fc).
      exists s', tc, []. rewrite app_nil_r.
      repeat split; [exact Ec | exact Fc | constructor].
    - unfold Stage.changelog in Hc.
      destruct (quiet_createOrUpdateChangelog w _ _ _ _ _ Hc) as (tc & Ec & Fc).
      destruct (merges_current w c _ _ _ H) as (tm & Em & Fm).
      exists s2, tc, tm. repeat split; assumption. }
  destruct Hrest as (s2 & tc & tm & Ec & Fc & Em & Fm).
  assert (E : st_trace s' = st_trace s ++ (tp ++ tc) ++ tm).
  { rewrite Em, Ec, Ep, <- !app_assoc. reflexivity. }
  rewrite (added_app _ _ _ E) in Ht.
  destruct (Forall_prefix quiet (tp ++ tc) tm t1 t2 (EMerge src dst res))
    as (t & -> & Etm).
  - apply Forall_app. split; assumption.
  - intros F. exact F.
  - exact Ht.
  - assert (Hsrc : src = current (Stage.branches c)).
    { rewrite Etm in Fm. apply Forall_app in Fm. destruct Fm as (_ & Fm).
      inversion Fm. assumption. }
    subst src.
    exists (Stage.branches c), (Stage.prefixes c), (Stage.version c),
      content, updated, sha, tn, (tc ++ t).
    split; [reflexivity | split; [exact Hv | split; [exact Hu |]]].
    split; [exact Fn |].
    rewrite Ep'. rewrite <- !app_assoc. reflexivity.
Qed.

Lemma version_bump_precedes_merges_witness :
  let w := Scenario.calm Scenario.release_1_2_0 false in
  let t := Run.added initial (fst (Release.handle w initial)) in
  exists (b : Branches) (p : GitFlowBranchesPrefixes) (version : jsstring)
         (content updated sha : string) (between : list event)
         (after : list event),
    "release/1.2.0" = current b
    /\ extractVersionFromBranch (w_host w) "release/1.2.0" (release p)
       = inr version
    /\ updatePackageJsonVersion (w_host w) content version = inr updated
    /\ Forall quiet between
    /\ firstn 34 t
       = [EInfo "RELEASE HANDLER"; EGetBranches (inr b); EGetPrefixes p]
         ++ between ++
         [EInfo ("Updating version files to: " +++ show version);
          EGetFileContent "package.json" "release/1.2.0" (inr content);
          EGetContent "package.json" "release/1.2.0" (inr sha);
          EUpdateFile "package.json" updated
            ("chore: update package.json version to " +++ show version)
            "release/1.2.0" sha (inr tt);
          EInfo ("package.json version updated to: " +++ show version);
          EInfo "Version files updated successfully"]
         ++ after.
Proof.
  intros w t.
  apply (version_bump_precedes_merges w initial
           (fst (Release.handle w initial)) (snd (Release.handle w initial))
           (firstn 34 t) (skipn 35 t) "release/1.2.0" "main"
           (inr "sha-main")).
  - vm_compute. reflexivity.
  - vm_compute. reflexivity.
Defined.

(* ================================================================== *)
(** * Names: the version, the tag *)
(* ================================================================== *)

Lemma prefix_app p s : String.prefix p (p +++ s) = true.
Proof.
  induction p as [| c p IH]; [destruct s; reflexivity |].
  cbn [String.append]. rewrite prefix_cons, Ascii.eqb_refl. exact IH.
Qed.

Lemma drop_length_app p s : drop (String.length p) (p +++ s) = s.
Proof. induction p as [| c p IH]; [destruct s; reflexivity | exact IH]. Qed.

Lemma prefix_split p :
  forall b, String.prefix p b = true -> b = p +++ drop (String.length p) b.
Proof.
  induction p as [| c p IH]; intros b H; [destruct b; reflexivity |].
  destruct b as [| d b]; [discriminate H |].
  rewrite prefix_cons in H. apply andb_prop in H. destruct H as [E H].
  apply Ascii.eqb_eq in E. subst d. cbn [String.length drop String.append].
  f_equal. apply IH. exact H.
Qed.

(** X5.  For a release prefix without pattern characters the extraction
    reads the prefix as text: the branch made of the prefix and a version
    [X.Y.Z] gives that version, as a string and never [undefined], and a
    branch that is not the prefix followed by such a version is refused
    with the message that names it. *)
Theorem extractVersion_plain_prefix (h : Host) (p : string) :
  Version.literal p = true ->
  (forall v, Version.is_version v = true ->
     extractVersionFromBranch h (p +++ v) p = inr (JStr v))
  /\ (forall b,
        (forall v, b = p +++ v -> Version.is_version v = false) ->
        extractVersionFromBranch h b p = inl (no_match b)).
Proof.
  intros Hp. split.
  - intros v Hv. rewrite (extractVersion_literal_prefix h p _ Hp).
    rewrite prefix_app, drop_length_app, Hv. reflexivity.
  - intros b Hb. rewrite (extractVersion_literal_prefix h p _ Hp).
    destruct (String.prefix p b) eqn:E; [| reflexivity].
    rewrite (Hb _ (prefix_split p b E)). reflexivity.
Qed.

Lemma extractVersion_plain_prefix_witness :
  (forall v, Version.is_version v = true ->
     extractVersionFromBranch Scenario.host ("release/" +++ v) "release/"
     = inr (JStr v))
  /\ (forall b,
        (forall v, b = "release/" +++ v -> Version.is_version v = false) ->
        extractVersionFromBranch Scenario.host b "release/"
        = inl (no_match b)).
Proof. exact (extractVersion_plain_prefix Scenario.host "release/" eq_refl). Defined.

Lemma split_go_skip sep :
  forall p s cur,
    split_go sep (p +++ s) (String.length p) cur = split_go sep s 0 cur.
Proof.
  induction p as [| c p IH]; intros s cur; [reflexivity |].
  cbn [String.append String.length split_go]. apply IH.
Qed.

Lemma split_go_none sep :
  forall s cur, includes sep s = false -> split_go sep s 0 cur = [cur +++ s].
Proof.
  induction s as [| c s IH]; intros cur H.
  - cbn. rewrite append_nil_r. reflexivity.
  - cbn [includes] in H. apply orb_false_elim in H. destruct H as [H1 H2].
    cbn [split_go]. rewrite H1, (IH _ H2), append_assoc. reflexivity.
Qed.

Lemma join_chars s : join "" (chars s) = s.
Proof.
  induction s as [| c s IH]; [reflexivity |].
  cbn [chars]. destruct s as [| d s]; [reflexivity |].
  change (chars (String d s)) with (String d "" :: chars s) in *.
  cbn [join] in *. cbn [String.append] in *. rewrite IH. reflexivity.
Qed.

(** Taking the separator off the front of a text in which it does not
    occur again. *)
Lemma join_split_front (p v : string) :
  p = "" \/ includes p v = false -> join "" (split p (p +++ v)) = v.
Proof.
  intros H. destruct p as [| c p].
  - cbn [split]. apply join_chars.
  - destruct H as [H | H]; [discriminate H |].
    unfold split. cbn [String.append split_go].
    rewrite prefix_cons, Ascii.eqb_refl, prefix_app. cbn [andb String.length].
    cbn [Nat.sub]. rewrite ?Nat.sub_0_r, split_go_skip, (split_go_none _ _ _ H).
    reflexivity.
Qed.

(** X6.  The tag of a branch made of the release prefix and a rest in which
    the prefix does not occur again is the tag prefix followed by that
    rest; with the empty release prefix the tag is the tag prefix followed
    by the whole branch name. *)
Theorem getTagName_strips_prefix (p v t : string) :
  p = "" \/ includes p v = false ->
  Release.getTagName (p +++ v) p t = t +++ v.
Proof.
  intros H. unfold Release.getTagName. rewrite (join_split_front p v H).
  reflexivity.
Qed.

Lemma getTagName_strips_prefix_witness :
  Release.getTagName ("release/" +++ "2.3.0") "release/" "v" = "v" +++ "2.3.0".
Proof.
  exact (getTagName_strips_prefix "release/" "2.3.0" "v" (or_intror eq_refl)).
Defined.

Section VersionChars.
Import Naming Version.

Lemma skip_digits_only s :
  only_version_chars (Matching.skip_set false digit_ranges s) = true ->
  only_version_chars s = true.
Proof.
  induction s as [| c s IH]; intros H; [reflexivity |].
  cbn [Matching.skip_set] in H. cbn [only_version_chars].
  destruct (in_set false digit_ranges c) eqn:E.
  - unfold version_char, is_digit. rewrite E. cbn [orb andb]. apply IH, H.
  - exact H.
Qed.

Lemma after_digits_only s r :
  after_digits s = Some r -> only_version_chars r = true ->
  only_version_chars s = true.
Proof.
  unfold after_digits. destruct s as [| c s]; [discriminate |].
  destruct (is_digit c) eqn:E; [| discriminate].
  intros H Hr. injection H as <-. cbn [only_version_chars].
  unfold version_char. rewrite E. cbn [orb andb].
  apply skip_digits_only, Hr.
Qed.

Lemma after_dot_only s r :
  after_dot s = Some r -> only_version_chars r = true ->
  only_version_chars s = true.
Proof.
  unfold after_dot. destruct s as [| c s]; [discriminate |].
  destruct (Ascii.eqb "." c) eqn:E; [| discriminate].
  intros H Hr. injection H as <-. cbn [only_version_chars].
  unfold version_char. rewrite E, orb_true_r. exact Hr.
Qed.

Lemma is_version_chars v :
  is_version v = true -> only_version_chars v = true.
Proof.
  unfold is_version.
  destruct (after_digits v) as [s1 |] eqn:E1; [| discriminate].
  destruct (after_dot s1) as [s2 |] eqn:E2; [| discriminate].
  destruct (after_digits s2) as [s3 |] eqn:E3; [| discriminate].
  destruct (after_dot s3) as [s4 |] eqn:E4; [| discriminate].
  destruct (after_digits s4) as [[| c s5] |] eqn:E5; try discriminate.
  intros _.
  apply (after_digits_only _ _ E1), (after_dot_only _ _ E2),
    (after_digits_only _ _ E3), (after_dot_only _ _ E4),
    (after_digits_only _ _ E5).
  reflexivity.
Qed.

Lemma prefix_only p :
  forall s, String.prefix p s = true -> only_version_chars s = true ->
    only_version_chars p = true.
Proof.
  induction p as [| c p IH]; intros s H Hs; [reflexivity |].
  destruct s as [| d s]; [discriminate H |].
  rewrite prefix_cons in H. apply andb_prop in H. destruct H as [E H].
  apply Ascii.eqb_eq in E. subst d.
  cbn [only_version_chars] in *. apply andb_prop in Hs. destruct Hs as [Hc Hs].
  rewrite Hc. cbn [andb]. exact (IH s H Hs).
Qed.

Lemma includes_only p :
  forall s, includes p s = true -> only_version_chars s = true ->
    only_version_chars p = true.
Proof.
  induction s as [| d s IH]; intros H Hs; cbn [includes] in H;
    apply orb_prop in H; destruct H as [H | H].
  - exact (prefix_only p "" H Hs).
  - discriminate H.
  - exact (prefix_only p _ H Hs).
  - cbn [only_version_chars] in Hs. apply andb_prop in Hs.
    apply IH; [exact H | apply Hs].
Qed.

(** A plain prefix does not occur in a version. *)
Lemma plain_prefix_not_in_version p v :
  plain_prefix p = true -> is_version v = true -> includes p v = false.
Proof.
  unfold plain_prefix. intros Hp Hv.
  apply andb_prop in Hp. destruct Hp as [_ Hp]. apply negb_true_iff in Hp.
  destruct (includes p v) eqn:E; [| reflexivity].
  rewrite (includes_only p v E (is_version_chars v Hv)) in Hp.
  discriminate Hp.
Qed.

(** The branch that gives a version under a plain prefix, and its tag. *)
Lemma plain_prefix_names (h : Host) (p b t : string) (version : jsstring) :
  plain_prefix p = true ->
  extractVersionFromBranch h b p = inr version ->
  exists v,
    version = JStr v /\ is_version v = true /\ b = p +++ v
    /\ Release.getTagName b p t = t +++ v.
Proof.
  intros Hp H. pose proof Hp as Hl. unfold plain_prefix in Hl.
  apply andb_prop in Hl. destruct Hl as [Hl _].
  rewrite (extractVersion_literal_prefix h p b Hl) in H.
  destruct (String.prefix p b) eqn:E; [| discriminate H].
  destruct (is_version (drop (String.length p) b)) eqn:Ev; [| discriminate H].
  cbn [andb] in H. injection H as <-.
  exists (drop (String.length p) b).
  split; [reflexivity | split; [exact Ev |]].
  pose proof (prefix_split p b E) as Hb. split; [exact Hb |].
  rewrite Hb at 1. unfold Release.getTagName.
  rewrite join_split_front; [reflexivity |].
  right. apply plain_prefix_not_in_version; assumption.
Qed.
End VersionChars.

(** X7.  The release predicate and the extraction agree on what the
    extraction accepts: under a release prefix without pattern characters,
    a branch from which a version can be read contains the prefix, so the
    release predicate holds of it. *)
Theorem Release_test_accepts_versioned
  (w : World) (s : state) (b : Branches) (version : jsstring) :
  let s1 := record (EGetBranches (inr b)) s in
  let p := w_getPrefixes w (st_trace s1) in
  w_getBranches w (st_trace s) = inr b ->
  Version.literal (release p) = true ->
  extractVersionFromBranch (w_host w) (current b) (release p) = inr version ->
  Release.test w s = (record (EGetPrefixes p) s1, inr true).
Proof.
  intros s1 p Hb Hl Hv. unfold Release.test.
  ran (call_ok (w_getBranches w) EGetBranches s b Hb).
  unfold getPrefixes. ran (call_total_run (w_getPrefixes w) EGetPrefixes).
  fold s1. fold p. rewrite ret_run. f_equal. f_equal.
  rewrite (extractVersion_literal_prefix _ _ _ Hl) in Hv.
  destruct (String.prefix (release p) (current b)) eqn:E; [| discriminate Hv].
  destruct (current b) as [| c r]; cbn [includes]; rewrite E; reflexivity.
Qed.

Lemma Release_test_accepts_versioned_witness :
  Release.test (Scenario.calm Scenario.release_1_2_0 false) initial
  = (record (EGetPrefixes Scenario.prefixes)
       (record (EGetBranches (inr Scenario.release_1_2_0)) initial),
     inr true).
Proof.
  exact (Release_test_accepts_versioned
           (Scenario.calm Scenario.release_1_2_0 false) initial
           Scenario.release_1_2_0 (JStr "1.2.0") eq_refl eq_refl eq_refl).
Defined.

(** The release predicate is wider than the extraction: it holds of a
    branch that only contains the prefix. *)
Example Release_test_is_wider :
  includes "release/" "feature/release/1.0.0" = true
  /\ extractVersionFromBranch Scenario.host "feature/release/1.0.0" "release/"
     = inl (no_match "feature/release/1.0.0").
Proof. split; reflexivity. Qed.

(** What a successful publication asked of the gateway. *)
Lemma createGitHubRelease_ok_inv (w : World) version projectName s s' :
  Release.createGitHubRelease w version projectName s = (s', inr tt) ->
  exists t i rel,
    st_trace s' = st_trace s ++ t
    /\ In (ECreateRelease ("v" +++ show version)
             ("Release v" +++ show version)
             (Release.releaseBody w version projectName i) (inr rel)) t.
Proof.
  unfold Release.createGitHubRelease. intros H. apply rethrow_ok in H.
  apply bind_ok in H. destruct H as (s1 & [] & H1 & H).
  apply bind_ok in H. destruct H as (s2 & i & H2 & H).
  apply bind_ok in H. destruct H as (s3 & rel & H3 & H).
  assert (Hrest : exists t4, st_trace s' = st_trace s3 ++ t4).
  { match type of H with
    | ?m s3 = _ =>
        assert (Hq : emits quiet m)
          by (unfold Release.uploadAsset; emits_calls)
    end.
    destruct (Hq _ _ _ H) as (t4 & E4 & _). exists t4. exact E4. }
  destruct Hrest as (t4 & E4).
  rewrite info_run in H1. injection H1 as <-.
  destruct (quiet_getPRInfo w _ _ _ _ H2) as (t2 & E2 & _).
  unfold repos_createRelease in H3. apply call_inv in H3.
  destruct H3 as (_ & ->).
  eexists (_ :: t2 ++ _ :: t4), i, rel. split.
  - rewrite E4. cbn [record st_trace]. rewrite E2. cbn [record st_trace].
    rewrite <- !app_assoc. reflexivity.
  - right. apply in_or_app. right. left. reflexivity.
Qed.

Lemma prepare_prefixes (w : World) s s' c :
  Stage.prepare w s = (s', inr c) ->
  exists t, Stage.prefixes c = w_getPrefixes w t.
Proof.
  intros H. unfold Stage.prepare in H.
  apply bind_ok in H. destruct H as (s1 & [] & _ & H).
  apply bind_ok in H. destruct H as (s2 & b & _ & H).
  apply bind_ok in H. destruct H as (s3 & p & H3 & H).
  apply bind_ok in H. destruct H as (s4 & v & _ & H).
  apply bind_ok in H. destruct H as (s5 & n & _ & H).
  apply bind_ok in H. destruct H as (s6 & [] & _ & H).
  rewrite ret_run in H. injection H as _ <-. cbn [Stage.prefixes].
  unfold getPrefixes in H3. rewrite call_total_run in H3.
  injection H3 as _ <-. eexists. reflexivity.
Qed.

(** X8.  What a release is called.  Take a run of the release handler that
    returns a commit, under a release prefix that is plain text with a
    character no version has.  Then the release branch is the prefix
    followed by a version [X.Y.Z]; the tag created at the commit is the
    configured tag prefix followed by that version; and the release is
    published for the tag [v] followed by that version, under the name
    [Release v] followed by it, whatever the configured tag prefix is. *)
Theorem release_names (w : World) (s s' : state) (sha : string) :
  (forall t, Naming.plain_prefix (release (w_getPrefixes w t)) = true) ->
  Release.handle w s = (s', inr sha) ->
  exists (b : Branches) (p : GitFlowBranchesPrefixes) (v text : string)
         (rel : ReleaseData),
    In (EGetBranches (inr b)) (Run.added s s')
    /\ In (EGetPrefixes p) (Run.added s s')
    /\ current b = release p +++ v
    /\ Version.is_version v = true
    /\ In (ECreateTag (tag p +++ v) sha (inr tt)) (Run.added s s')
    /\ In (ECreateRelease ("v" +++ v) ("Release v" +++ v) text (inr rel))
         (Run.added s s').
Proof.
  intros Hplain H. rewrite handle_stages in H.
  apply bind_ok in H. destruct H as (sp & c & Hprep & H).
  apply bind_ok in H. destruct H as (s1 & [] & Hlog & H).
  unfold Stage.promote in H.
  apply bind_ok in H. destruct H as (s2 & sha' & Hmerge & H).
  apply bind_ok in H. destruct H as (s3 & [] & Htag & H).
  apply bind_ok in H. destruct H as (s4 & [] & Hbuild & H).
  apply bind_ok in H. destruct H as (s5 & [] & Hrel & H).
  apply bind_ok in H. destruct H as (s6 & [] & Hdel & H).
  rewrite ret_run in H. injection H as -> ->.
  destruct (prepare_ok_inv _ _ _ _ Hprep)
    as (tp & content & updated & sha0 & Ep & _ & Hv & _ & _).
  destruct (prepare_prefixes _ _ _ _ Hprep) as (t0 & Hp0).
  pose proof (Hplain t0) as Hpl. rewrite <- Hp0 in Hpl.
  destruct (plain_prefix_names _ _ _ (tag (Stage.prefixes c)) _ Hpl Hv)
    as (v & Hver & Hisv & Hb & Htagname).
  unfold Stage.changelog in Hlog.
  destruct (quiet_createOrUpdateChangelog w _ _ _ _ _ Hlog) as (tc & Ec & _).
  destruct (merge_ok_inv _ _ _ _ _ Hmerge) as (x & Em).
  pose proof (createTag_ok_inv _ _ _ _ _ _ Htag) as Et.
  destruct (quiet_buildProject w _ _ _ _ _ _ Hbuild) as (tb & Eb & _).
  destruct (createGitHubRelease_ok_inv _ _ _ _ _ Hrel)
    as (tr & i & rel & Er & Hin).
  unfold github_delete in Hdel. apply call_inv in Hdel.
  destruct Hdel as (_ & ->).
  rewrite Htagname in Et. rewrite Hver in Hin. cbn [show] in Hin.
  (* the branches and the prefixes were read during the preparation *)
  assert (Hread : In (EGetBranches (inr (Stage.branches c))) tp
                  /\ In (EGetPrefixes (Stage.prefixes c)) tp).
  { clear - Hprep Ep. unfold Stage.prepare in Hprep.
    apply bind_ok in Hprep. destruct Hprep as (s1 & [] & H1 & H).
    apply bind_ok in H. destruct H as (s2 & b & H2 & H).
    apply bind_ok in H. destruct H as (s3 & p & H3 & H).
    apply bind_ok in H. destruct H as (s4 & v & H4 & H).
    rewrite lift_run in H4. injection H4 as <- _.
    apply bind_ok in H. destruct H as (s5 & n & H5 & H).
    apply bind_ok in H. destruct H as (s6 & [] & H6 & H).
    rewrite ret_run in H. injection H as <- <-.
    cbn [Stage.branches Stage.prefixes].
    rewrite info_run in H1. injection H1 as <-.
    unfold getBranches in H2. apply call_inv in H2. destruct H2 as (_ & ->).
    unfold getPrefixes in H3. rewrite call_total_run in H3.
    injection H3 as <- <-.
    quiet_run H5 t5 E5 F5. quiet_run H6 t6 E6 F6.
    rewrite E6, E5 in Ep. cbn [record st_trace] in Ep.
    rewrite <- !app_assoc in Ep. apply app_inv_head in Ep. subst tp.
    split; rewrite <- ?app_assoc; cbn; auto. }
  destruct Hread as (Hrb & Hrp).
  assert (E : st_trace (record (EDelete (current (Stage.branches c)) (inr tt)) s5)
              = st_trace s ++ tp ++ tc ++
                [EMerge (current (Stage.branches c))
                   (development (Stage.branches c)) (inr x);
                 EMerge (current (Stage.branches c))
                   (main (Stage.branches c)) (inr sha)] ++
                [EInfo ("SHA -------> " +++ sha);
                 EInfo ("TAG -------> " +++ tag (Stage.prefixes c) +++ v);
                 ECreateTag (tag (Stage.prefixes c) +++ v) sha (inr tt)] ++
                tb ++ tr ++
                [EDelete (current (Stage.branches c)) (inr tt)]).
  { cbn [record st_trace]. rewrite Er, Eb, Et, Em, Ec, Ep.
    rewrite <- !app_assoc. reflexivity. }
  rewrite (added_app _ _ _ E).
  exists (Stage.branches c), (Stage.prefixes c), v,
    (Release.releaseBody w (JStr v) (Stage.projectName c) i), rel.
  split; [apply in_or_app; left; exact Hrb |].
  split; [apply in_or_app; left; exact Hrp |].
  split; [exact Hb |]. split; [exact Hisv |]. split.
  - do 3 (apply in_or_app; right). apply in_or_app. left. cbn. auto.
  - do 5 (apply in_or_app; right). apply in_or_app. left. exact Hin.
Qed.

Lemma release_names_witness :
  let w := Scenario.calm Scenario.release_1_2_0 false in
  let t := Run.added initial (fst (Release.handle w initial)) in
  exists (b : Branches) (p : GitFlowBranchesPrefixes) (v text : string)
         (rel : ReleaseData),
    In (EGetBranches (inr b)) t
    /\ In (EGetPrefixes p) t
    /\ current b = release p +++ v
    /\ Version.is_version v = true
    /\ In (ECreateTag (tag p +++ v) "sha-main" (inr tt)) t
    /\ In (ECreateRelease ("v" +++ v) ("Release v" +++ v) text (inr rel)) t.
Proof.
  intros w t.
  apply (release_names w initial (fst (Release.handle w initial)) "sha-main").
  - intros t0. reflexivity.
  - vm_compute. reflexivity.
Defined.

(** X9.  A [package.json] that cannot be patched stops the run before
    anything is written.  When the file was read from the release branch
    and setting its version raises, the update of the version files raises
    an error whose message is [Failed to update package.json version: ]
    followed by the text of that error; it has logged it twice and has
    asked neither for the identifier of the file nor for any write. *)
Theorem unpatchable_package_json_aborts
  (w : World) (b : Branches) (p : GitFlowBranchesPrefixes) (s : state)
  (version : jsstring) (content : string) (cause : error) :
  let s1 := record (EInfo ("Updating version files to: " +++ show version)) s in
  let failure :=
    Error ("Failed to update package.json version: "
             +++ error_to_string cause) in
  extractVersionFromBranch (w_host w) (current b) (release p) = inr version ->
  w_getFileContent w (st_trace s1) "package.json" (current b) = inr content ->
  h_json_set_version (w_host w) content version = inl cause ->
  Release.updateVersionFiles w b p s
  = (record
       (EInfo ("Error updating version files: " +++ error_to_string failure))
       (record
          (EInfo ("Error updating package.json: "
                    +++ error_to_string failure))
          (record (EGetFileContent "package.json" (current b) (inr content))
             s1)),
     inl failure).
Proof.
  intros s1 failure Hv Hc Hj. unfold Release.updateVersionFiles.
  erewrite try_catch_fail_intro.
  2:{ erewrite bind_ok_intro by (rewrite Hv; apply lift_run).
      logged. fold s1.
      erewrite bind_fail_intro; [reflexivity |].
      unfold Release.updatePackageJson.
      erewrite try_catch_fail_intro.
      2:{ unfold getFileContent.
          ran (call_ok (fun t => w_getFileContent w t "package.json" (current b))
                 (EGetFileContent "package.json" (current b)) s1 content Hc).
          erewrite bind_fail_intro; [reflexivity |].
          unfold updatePackageJsonVersion. rewrite Hj. apply lift_run. }
      fold failure. logged. apply throw_run. }
  logged. rewrite throw_run. reflexivity.
Qed.

Lemma unpatchable_package_json_aborts_witness :
  let w := ScenarioBuild.unparsable Scenario.release_1_2_0 in
  let failure :=
    Error ("Failed to update package.json version: "
             +++ "SyntaxError: Unexpected end of JSON input") in
  snd (Release.updateVersionFiles w Scenario.release_1_2_0 Scenario.prefixes
         initial)
  = inl failure.
Proof.
  intros w failure.
  rewrite (unpatchable_package_json_aborts w Scenario.release_1_2_0
             Scenario.prefixes initial (JStr "1.2.0")
             ("version: 0.0.1" +++ LF +++ "x: y")
             (MkError "SyntaxError" "Unexpected end of JSON input")
             eq_refl eq_refl eq_refl).
  reflexivity.
Defined.

Lemma getProjectName_reads (w : World) :
  emits (fun e => side_effect e = false) (Release.getProjectName w).
Proof.
  unfold Release.getProjectName, existsSync, readFileSync.
  apply emits_bind; [apply emits_call_total; reflexivity | intros [|]];
    [| apply emits_ret].
  apply emits_bind; [apply emits_call; reflexivity | intros text].
  apply emits_bind; [apply emits_lift | intros name].
  apply emits_bind; [apply emits_info; reflexivity | intros _].
  apply emits_ret.
Qed.

(** X10.  A [package.json] of the checkout that cannot be read stops the run
    before anything is changed.  When the branch name gives a version and
    reading the name of the project raises, because the file cannot be
    read or is not JSON, the handler raises that error, and all it has done
    is to log and to read: the version files, the changelog, the merges
    and what follows are not reached. *)
Theorem unreadable_project_aborts
  (w : World) (s s4 : state) (b : Branches) (version : jsstring) (e : error) :
  let s1 := record (EInfo "RELEASE HANDLER") s in
  let s2 := record (EGetBranches (inr b)) s1 in
  let p := w_getPrefixes w (st_trace s2) in
  let s3 := record (EGetPrefixes p) s2 in
  w_getBranches w (st_trace s1) = inr b ->
  extractVersionFromBranch (w_host w) (current b) (release p) = inr version ->
  Release.getProjectName w s3 = (s4, inl e) ->
  Release.handle w s = (s4, inl e)
  /\ Forall (fun ev => side_effect ev = false) (Run.added s s4).
Proof.
  intros s1 s2 p s3 Hb Hv Hn. split.
  - unfold Release.handle. logged. fold s1.
    ran (call_ok (w_getBranches w) EGetBranches s1 b Hb). fold s2.
    unfold getPrefixes.
    ran (call_total_run (w_getPrefixes w) EGetPrefixes). fold p. fold s3.
    erewrite bind_ok_intro by (rewrite Hv; apply lift_run).
    erewrite bind_fail_intro by exact Hn. reflexivity.
  - destruct (getProjectName_reads w _ _ _ Hn) as (t & Et & Ft).
    assert (E : st_trace s4
                = st_trace s ++
                  [EInfo "RELEASE HANDLER"; EGetBranches (inr b);
                   EGetPrefixes p] ++ t).
    { rewrite Et. unfold s3, s2, s1. cbn [record st_trace].
      rewrite <- !app_assoc. reflexivity. }
    rewrite (added_app _ _ _ E). apply Forall_app. split; [| exact Ft].
    repeat constructor.
Qed.

Lemma unreadable_project_aborts_witness :
  let w := ScenarioBuild.unparsable Scenario.release_1_2_0 in
  let e := MkError "SyntaxError" "Unexpected end of JSON input" in
  let s4 := fst (Release.handle w initial) in
  Release.handle w initial = (s4, inl e)
  /\ Forall (fun ev => side_effect ev = false) (Run.added initial s4).
Proof.
  intros w e s4.
  apply (unreadable_project_aborts w initial s4 Scenario.release_1_2_0
           (JStr "1.2.0") e).
  - reflexivity.
  - reflexivity.
  - vm_compute. reflexivity.
Defined.

(* ================================================================== *)
(** * More about the build step *)
(* ================================================================== *)

(** What a run that is known step by step added to the trace. *)
Ltac added_trace :=
  erewrite added_app
    by (cbn [record st_trace]; rewrite <- ?app_assoc; reflexivity);
  cbn [app].

(** X11.  Install and build run at most one command each, and the build
    command only after the install command has succeeded: a run of the two
    gives one of the three install commands and raises what that command
    raised, or gives an install command that succeeded and then one of the
    two build commands, and ends as that command did. *)
Theorem build_commands (w : World) (version : jsstring) (s : state) :
  let (s', r) := Release.buildProject_run w version s in
  let t := Run.added s s' in
  exists install,
    In install ["npm ci"; "yarn install --frozen-lockfile"; "npm install"]
    /\ ((exists e,
           Run.commands t = [install]
           /\ In (EExecSync install (inl e)) t /\ r = inl e)
        \/ (exists build,
              In build ["yarn build"; "npm run build"]
              /\ Run.commands t = [install; build]
              /\ In (EExecSync install (inr tt)) t
              /\ In (EExecSync build r) t)).
Proof.
  unfold Release.buildProject_run, Release.installDependencies,
    Release.runBuild, bind, info, existsSync, execSync, call, call_total.
  cbn [record st_trace].
  repeat
    match goal with
    | |- context [w_existsSync w ?t ?p] =>
        destruct (w_existsSync w t p); cbn [record st_trace]
    | |- context [w_execSync w ?t ?c] =>
        let r := fresh "r" in
        destruct (w_execSync w t c) as [? | []]; cbn [record st_trace]
    end;
    added_trace; cbn [Run.commands];
    eexists; (split; [| first
      [ left; eexists; split; [reflexivity | split; [| reflexivity]];
        cbn; tauto
      | right; eexists; split; [| split; [reflexivity | split]];
        cbn; tauto ]]); cbn; tauto.
Qed.

(** X12.  Install and build choose their tool each on its own: where both
    [package-lock.json] and [yarn.lock] are present, the dependencies are
    installed with [npm ci] and the build is run with [yarn build]. *)
Theorem mixed_lock_files (w : World) (version : jsstring) (s : state) :
  (forall t, w_existsSync w t (in_cwd w ["package-lock.json"]) = true) ->
  (forall t, w_existsSync w t (in_cwd w ["yarn.lock"]) = true) ->
  let (s', r) := Release.buildProject_run w version s in
  Run.commands (Run.added s s') = ["npm ci"; "yarn build"]
  \/ (Run.commands (Run.added s s') = ["npm ci"] /\ exists e, r = inl e).
Proof.
  intros Hp Hy.
  unfold Release.buildProject_run, Release.installDependencies,
    Release.runBuild, bind, info, existsSync, execSync, call, call_total.
  cbn [record st_trace]. rewrite !Hp, !Hy. cbn [record st_trace].
  destruct (w_execSync w _ "npm ci") as [e | []]; cbn [record st_trace].
  - added_trace. right. split; [reflexivity | exists e; reflexivity].
  - rewrite ?Hy.
    destruct (w_execSync w _ "yarn build") as [e | []];
      added_trace; left; reflexivity.
Qed.

Lemma mixed_lock_files_witness :
  let w := ScenarioBuild.both_locks Scenario.release_1_2_0 in
  let (s', r) := Release.buildProject_run w (JStr "1.2.0") initial in
  Run.commands (Run.added initial s') = ["npm ci"; "yarn build"]
  \/ (Run.commands (Run.added initial s') = ["npm ci"]
      /\ exists e, r = inl e).
Proof.
  exact (mixed_lock_files (ScenarioBuild.both_locks Scenario.release_1_2_0)
           (JStr "1.2.0") initial (fun _ => eq_refl) (fun _ => eq_refl)).
Defined.

(** X13.  The build of a project without platform descriptor.  After install
    and build, when [mta.yaml] is not found: if [lib/main/index.js] is
    missing the build step raises, with nothing packaged and the release
    file left as it was; otherwise the five paths are zipped into
    [{project}-v{version}.zip], and the step raises what the command
    raised, or ends with that name as the release file. *)
Theorem standard_build_outcomes
  (w : World) (version : jsstring) (projectName : string) (b : Branches)
  (sa sb : state) :
  let buildFile := in_cwd w ["lib"; "main"; "index.js"] in
  let zipName := Release.artifactName projectName version ".zip" in
  let command :=
    "zip -r " +++ zipName +++ " "
      +++ "lib/ action.yml package.json README.md LICENSE" in
  let s0 :=
    record (EInfo "Standard project detected, verifying build files...")
      (record (EExistsSync (Archive.descriptor w) false) sb) in
  let failed (e : error) (s1 : state) : state :=
    record (EInfo ("Build failed: " +++ error_to_string e)) s1 in
  Release.buildProject_run w version sa = (sb, inr tt) ->
  w_existsSync w (st_trace sb) (Archive.descriptor w) = false ->
  match w_existsSync w (st_trace s0) buildFile with
  | false =>
      Release.buildProject w version projectName b sa
      = (failed Release.noBuildFiles (record (EExistsSync buildFile false) s0),
         inl Release.noBuildFiles)
  | true =>
      let s1 :=
        record (EInfo "Creating standard package...")
          (record (EExistsSync buildFile true) s0) in
      match w_execSync w (st_trace s1) command with
      | inl e =>
          Release.buildProject w version projectName b sa
          = (failed e (record (EExecSync command (inl e)) s1), inl e)
      | inr _ =>
          Release.buildProject w version projectName b sa
          = (MkState
               (st_trace s1 ++
                [EExecSync command (inr tt);
                 EInfo ("Build successful! Created " +++ zipName)])
               zipName,
             inr tt)
      end
  end.
Proof.
  intros buildFile zipName command s0 failed Hrun Hd.
  assert (Hstd : forall r,
    w_existsSync w (st_trace s0) buildFile = r ->
    Release.buildProject_standard w
      (record (EExistsSync (Archive.descriptor w) false) sb)
    = (record (EExistsSync buildFile r) s0,
       if r then inr "" else inl Release.noBuildFiles)).
  { intros r Hr. unfold Release.buildProject_standard. logged. fold s0.
    unfold existsSync.
    ran (call_total_run (fun t => w_existsSync w t buildFile)
           (EExistsSync buildFile)).
    fold buildFile. rewrite Hr. destruct r; reflexivity. }
  assert (Hstart : forall k : string -> M string,
    (Release.buildProject_run w version ;;
     mtaYamlExists <- existsSync w (in_cwd w ["mta.yaml"]) ;;
     mtarFilePath <-
       (if mtaYamlExists : bool
        then Release.buildProject_mta w version projectName b
        else Release.buildProject_standard w) ;;
     mtarFilePath <- k mtarFilePath ;;
     set_releaseFilePath mtarFilePath) sa
    = (mtarFilePath <-
         Release.buildProject_standard w ;;
       mtarFilePath <- k mtarFilePath ;;
       set_releaseFilePath mtarFilePath)
        (record (EExistsSync (Archive.descriptor w) false) sb)).
  { intros k. ran Hrun. unfold existsSync.
    ran (call_total_run (fun t => w_existsSync w t (in_cwd w ["mta.yaml"]))
           (EExistsSync (in_cwd w ["mta.yaml"]))).
    fold (Archive.descriptor w). rewrite Hd. reflexivity. }
  unfold Release.buildProject.
  destruct (w_existsSync w (st_trace s0) buildFile) eqn:Hb.
  - cbv zeta.
    assert (Hpkg : forall r,
      w_execSync w
        (st_trace (record (EInfo "Creating standard package...")
                     (record (EExistsSync buildFile true) s0))) command = r ->
      Release.buildProject_package w version projectName
        (record (EExistsSync buildFile true) s0)
      = match r with
        | inl e =>
            (record (EExecSync command (inl e))
               (record (EInfo "Creating standard package...")
                  (record (EExistsSync buildFile true) s0)), inl e)
        | inr _ =>
            (record (EInfo ("Build successful! Created " +++ zipName))
               (record (EExecSync command (inr tt))
                  (record (EInfo "Creating standard package...")
                     (record (EExistsSync buildFile true) s0))),
             inr zipName)
        end).
    { intros r Hr. unfold Release.buildProject_package. logged.
      fold zipName. unfold execSync.
      change (join " " ["lib/"; "action.yml"; "package.json"; "README.md";
                        "LICENSE"])
        with "lib/ action.yml package.json README.md LICENSE".
      fold command. destruct r as [e | []].
      - erewrite bind_fail_intro
          by (apply (call_fail (fun t => w_execSync w t command)
                       (EExecSync command)); exact Hr).
        reflexivity.
      - ran (call_ok (fun t => w_execSync w t command) (EExecSync command)
               _ tt Hr).
        logged. reflexivity. }
    destruct (w_execSync w _ command) as [e | []] eqn:He.
    + erewrite try_catch_fail_intro; [reflexivity |].
      rewrite Hstart. ran (Hstd true eq_refl).
      erewrite bind_fail_intro by (apply (Hpkg (inl e) eq_refl)).
      reflexivity.
    + erewrite try_catch_ok_intro; [reflexivity |].
      rewrite Hstart. ran (Hstd true eq_refl).
      ran (Hpkg (inr tt) eq_refl).
      unfold set_releaseFilePath. cbn [record st_trace].
      rewrite <- !app_assoc. reflexivity.
  - erewrite try_catch_fail_intro; [reflexivity |].
    rewrite Hstart.
    erewrite bind_fail_intro by (apply (Hstd false eq_refl)).
    reflexivity.
Qed.

Lemma standard_build_outcomes_witness :
  let w := Scenario.calm Scenario.release_1_2_0 false in
  let sb := fst (Release.buildProject_run w (JStr "1.2.0") initial) in
  let s1 :=
    record (EInfo "Creating standard package...")
      (record (EExistsSync "/w/lib/main/index.js" true)
         (record (EInfo "Standard project detected, verifying build files...")
            (record (EExistsSync "/w/mta.yaml" false) sb))) in
  let command :=
    "zip -r demo-v1.2.0.zip lib/ action.yml package.json README.md LICENSE" in
  Release.buildProject w (JStr "1.2.0") "demo" Scenario.release_1_2_0 initial
  = (MkState
       (st_trace s1 ++
        [EExecSync command (inr tt);
         EInfo "Build successful! Created demo-v1.2.0.zip"])
       "demo-v1.2.0.zip",
     inr tt).
Proof.
  exact (standard_build_outcomes
           (Scenario.calm Scenario.release_1_2_0 false) (JStr "1.2.0") "demo"
           Scenario.release_1_2_0 initial _ eq_refl eq_refl).
Defined.

(* ================================================================== *)
(** * More about the pull request, the changelog step and the release *)
(* ================================================================== *)

Lemma trimEnd_cons c s : is_white_space c = false -> trimEnd (String c s) <> "".
Proof.
  intros H. cbn [trimEnd]. rewrite H. destruct (trimEnd s); discriminate.
Qed.

Lemma trim_empty s : String.eqb (trim s) "" = false -> s <> "".
Proof. intros H ->. discriminate H. Qed.

Lemma describe_not_blank pr d :
  String.eqb (trim (Release.describe pr d)) "" = false.
Proof.
  apply String.eqb_neq. unfold Release.describe, trim.
  cbn [String.append trimStart]. 
  change (is_white_space "*") with false. cbv iota.
  apply trimEnd_cons. reflexivity.
Qed.

(** X14.  The description that the resolution of the pull request gives is
    never blank: when the pull request has no text, or only white space,
    a description is made up from its title and its counts.  So the
    changelog entry and the text of the release never fall back on
    [Release updates and improvements]. *)
Theorem resolved_body_is_not_blank
  (w : World) (branch : string) (s s' : state) (i : Release.PRInfo) :
  Release.getPRInfo w branch s = (s', inr i) ->
  String.eqb (trim (Release.body i)) "" = false
  /\ Release.or_else (Release.body i) "Release updates and improvements"
     = Release.body i.
Proof.
  intros H. unfold Release.getPRInfo in H.
  erewrite bind_ok_intro in H by apply info_run.
  destruct (searchFormats_outcome w branch _ _ _ _ H)
    as (before & f & after & s1 & _ & _ & pr & others & d & _ & _ & _ & ->).
  assert (Hb : String.eqb (trim (Resolver.description pr d)) "" = false).
  { unfold Resolver.description. cbv zeta.
    match goal with
    | |- context [if ?c then _ else _] => destruct c eqn:E
    end; [apply describe_not_blank | exact E]. }
  cbn [Release.body].
  split; [exact Hb |].
  destruct (Resolver.description pr d); [discriminate Hb | reflexivity].
Qed.

Lemma resolved_body_is_not_blank_witness :
  let w := Scenario.calm Scenario.release_1_2_0 false in
  let i := Release.describe Scenario.pr7 Scenario.detail7 in
  String.eqb (trim i) "" = false
  /\ Release.or_else i "Release updates and improvements" = i.
Proof.
  exact (resolved_body_is_not_blank
           (Scenario.calm Scenario.release_1_2_0 false) "release/1.2.0"
           initial _
           {| Release.body := Release.describe Scenario.pr7 Scenario.detail7;
              Release.url := "https://example.test/pull/7" |}
           eq_refl).
Defined.

Lemma reads_stay_local files allowed e :
  side_effect e = false -> Run.stays_local files allowed e.
Proof. destruct e; cbn; intros H; try discriminate H; exact I. Qed.

Lemma getPRInfo_reads (w : World) branch :
  emits (fun e => side_effect e = false) (Release.getPRInfo w branch).
Proof.
  assert (Hcall : forall {A : Type} (answer : trace -> error + A) ev,
            (forall r, side_effect (ev r) = false) ->
            emits (fun e => side_effect e = false) (call answer ev))
    by (intros; apply emits_call; assumption).
  assert (Hinfo : forall msg,
            emits (fun e => side_effect e = false) (info msg))
    by (intros; apply emits_info; reflexivity).
  unfold Release.getPRInfo. apply emits_bind; [apply Hinfo | intros _].
  generalize (Release.branchFormats w branch) as formats.
  induction formats as [| f rest IH]; cbn [Release.searchFormats].
  - repeat (apply emits_bind; [apply Hinfo | intros _]). apply emits_throw.
  - apply emits_bind.
    + unfold Release.searchFormat_caught, Release.searchFormat, pulls_list,
        pulls_get.
      apply emits_try_catch.
      * apply emits_bind; [apply Hcall; reflexivity | intros [| pr others]];
          [apply emits_ret |].
        repeat (apply emits_bind; [apply Hinfo | intros _]).
        apply emits_bind; [apply Hcall; reflexivity | intros d].
        apply emits_bind; [apply Hinfo | intros _]. apply emits_ret.
      * intros e. apply emits_bind; [apply Hinfo | intros _]. apply emits_ret.
    + intros [i |]; [apply emits_ret | exact IH].
Qed.

(** X15.  The changelog step works on the checkout only.  It asks the remote
    repository for nothing but to read, the only file it writes is
    [CHANGELOG.md] in the working directory, it renames nothing, and the
    commands it runs are among the two that set the git user,
    [git add CHANGELOG.md] and the commit: nothing pushes the commit, and
    the gateway is never asked to write the changelog to the release
    branch. *)
Theorem changelog_stays_local (w : World) (version : jsstring) (branch : string) :
  let commit :=
    "git commit -m " +++ DQ +++ "docs: update changelog for version "
      +++ show version +++ DQ in
  emits
    (Run.stays_local
       [in_cwd w ["CHANGELOG.md"]]
       ["git config user.name " +++ DQ +++ "GitHub Actions" +++ DQ;
        "git config user.email " +++ DQ +++ "actions@github.com" +++ DQ;
        "git add CHANGELOG.md";
        commit])
    (Release.createOrUpdateChangelog w version branch).
Proof.
  intros commit.
  set (allowed := [_; _; _; commit]).
  set (files := [in_cwd w ["CHANGELOG.md"]]).
  assert (Hinfo : forall msg, emits (Run.stays_local files allowed) (info msg))
    by (intros; apply emits_info; exact I).
  assert (Hexec : forall c, In c allowed ->
            emits (Run.stays_local files allowed) (execSync w c)).
  { intros c Hc. unfold execSync. apply emits_call. intros r. exact Hc. }
  unfold Release.createOrUpdateChangelog, Release.createOrUpdateChangelog_try.
  apply emits_try_catch;
    [| intros e; apply emits_bind; [apply Hinfo | intros _; apply Hinfo]].
  apply emits_bind; [apply Hinfo | intros _].
  apply emits_bind.
  { apply (emits_impl (fun e => side_effect e = false));
      [apply reads_stay_local | apply getPRInfo_reads]. }
  intros i. do 3 (apply emits_bind; [apply Hinfo | intros _]).
  apply emits_bind.
  { unfold existsSync. apply emits_call_total. intros r. exact I. }
  intros found. apply emits_bind.
  { destruct found; [| apply emits_ret].
    unfold readFileSync. apply emits_call. intros r. exact I. }
  intros existing. apply emits_bind.
  { unfold writeFileSync. apply emits_call. intros r. left. reflexivity. }
  intros _. apply emits_bind; [| intros _; apply Hinfo].
  unfold Release.commitChangelog. apply emits_bind.
  { unfold existsSync. apply emits_call_total. intros r. exact I. }
  intros [|]; [| apply emits_ret].
  apply emits_try_catch; [| intros e; apply Hinfo].
  apply emits_bind; [apply Hexec; cbn; tauto | intros _].
  apply emits_bind; [apply Hexec; cbn; tauto | intros _].
  apply emits_bind; [apply Hexec; cbn; tauto | intros _].
  apply emits_bind; [apply Hexec; cbn; tauto | intros _].
  apply Hinfo.
Qed.

(** X16.  The asset of a release.  Nothing is uploaded when no release file
    is recorded, and nothing when the recorded file is not found: then the
    step ends well all the same, and the release stays without asset.  An
    upload that is asked for is for the release just created, under the
    base name of the recorded file, with the data read from that file,
    which was found and read before. *)
Theorem upload_only_what_exists
  (w : World) (releaseResponse : ReleaseData) (s : state) :
  let (s', r) := Release.uploadAsset w releaseResponse s in
  let path := st_releaseFilePath s in
  let t := Run.added s s' in
  (path = "" -> t = [] /\ r = inr tt)
  /\ (path <> "" -> w_existsSync w (st_trace s) path = false ->
      t = [EExistsSync path false] /\ r = inr tt)
  /\ (forall id name data res,
        In (EUploadReleaseAsset id name data res) t ->
        path <> ""
        /\ id = rel_id releaseResponse
        /\ name = h_path_basename (w_host w) path
        /\ t = [EExistsSync path true; EReadFileSync path (inr data);
                EUploadReleaseAsset id name data res]
               ++ match res with
                  | inr _ => [EInfo ("Asset uploaded: " +++ name)]
                  | inl _ => []
                  end).
Proof.
  unfold Release.uploadAsset, bind, get_releaseFilePath.
  destruct (st_releaseFilePath s) as [| c p] eqn:Hp.
  - cbn [ret]. unfold Run.added. rewrite skipn_all.
    repeat split; try reflexivity; try contradiction.
  - unfold existsSync, readFileSync, repos_uploadReleaseAsset, info, call,
      call_total.
    cbn [record st_trace].
    destruct (w_existsSync w (st_trace s) (String c p)) eqn:He.
    + destruct (w_readFileSync w _ (String c p)) as [e | data] eqn:Hr;
        cbn [record st_trace].
      * added_trace. split; [intros H; discriminate H |].
        split; [intros _ H; discriminate H |].
        intros id name data res [H | [H | []]]; discriminate H.
      * destruct (w_uploadReleaseAsset w _ _ _ data) as [e | []] eqn:Hu;
          cbn [record st_trace]; added_trace;
          (split; [intros H; discriminate H |]);
          (split; [intros _ H; discriminate H |]);
          intros id name data' res H;
          repeat (destruct H as [H | H]; try discriminate H);
          try contradiction;
          injection H as <- <- <- <-;
          (split; [discriminate |]); repeat split.
    + cbn [ret]. added_trace.
      split; [intros H; discriminate H |].
      split; [intros _ _; split; reflexivity |].
      intros id name data res [H | []]. discriminate H.
Qed.

Lemma upload_only_what_exists_witness :
  let w := Scenario.calm Scenario.release_1_2_0 false in
  let rel := {| rel_id := 1; rel_html_url := "https://example.test/r/1" |} in
  let s := MkState [] "demo-v1.2.0.zip" in
  let (s', r) := Release.uploadAsset w rel s in
  let path := st_releaseFilePath s in
  let t := Run.added s s' in
  (path = "" -> t = [] /\ r = inr tt)
  /\ (path <> "" -> w_existsSync w (st_trace s) path = false ->
      t = [EExistsSync path false] /\ r = inr tt)
  /\ (forall id name data res,
        In (EUploadReleaseAsset id name data res) t ->
        path <> ""
        /\ id = rel_id rel
        /\ name = h_path_basename (w_host w) path
        /\ t = [EExistsSync path true; EReadFileSync path (inr data);
                EUploadReleaseAsset id name data res]
               ++ match res with
                  | inr _ => [EInfo ("Asset uploaded: " +++ name)]
                  | inl _ => []
                  end).
Proof.
  exact (upload_only_what_exists
           (Scenario.calm Scenario.release_1_2_0 false)
           {| rel_id := 1; rel_html_url := "https://example.test/r/1" |}
           (MkState [] "demo-v1.2.0.zip")).
Defined.

(* ================================================================== *)
(** * More about the changelog *)
(* ================================================================== *)

Section ChangelogFacts.
Import Descriptor ChangelogHeader.

Lemma includes_app_l p a b : includes p a = true -> includes p (a +++ b) = true.
Proof.
  induction a as [| c a IH]; cbn [includes String.append]; intros H.
  - rewrite orb_false_r in H. destruct p; [| discriminate H].
    destruct b; reflexivity.
  - apply orb_prop in H. destruct H as [H | H].
    + change (String c (a +++ b)) with (String c a +++ b).
      pose proof (prefix_split p _ H) as E. rewrite E, append_assoc, prefix_app.
      reflexivity.
    + rewrite (IH H). apply orb_true_r.
Qed.

Lemma includes_app_r p a b : includes p b = true -> includes p (a +++ b) = true.
Proof.
  intros H. induction a as [| c a IH]; [exact H |].
  cbn [includes String.append]. rewrite IH. apply orb_true_r.
Qed.

Lemma includes_app_ends p x m :
  single_line p = true -> p <> "" -> ends_line m ->
  includes p (x +++ m) = includes p x || includes p m.
Proof.
  intros Hp Hne Hm. induction x as [| c x IH].
  - cbn [String.append includes]. destruct p; [contradiction Hne; reflexivity |].
    reflexivity.
  - cbn [String.append includes].
    change (String c (x +++ m)) with (String c x +++ m).
    rewrite (prefix_before_end p Hp _ _ Hm), IH. apply orb_assoc.
Qed.

Lemma includes_after_LF p r :
  single_line p = true -> p <> "" ->
  includes p (LF +++ r) = includes p r.
Proof.
  intros Hp Hne. destruct p as [| c p]; [contradiction Hne; reflexivity |].
  cbn [LF String.append includes]. rewrite prefix_cons.
  cbn [single_line] in Hp. apply andb_prop in Hp. destruct Hp as [Hc _].
  destruct (Ascii.eqb c (ascii_of_nat 10)) eqn:E; [| reflexivity].
  apply Ascii.eqb_eq in E. subst c. discriminate Hc.
Qed.

(** A text without line terminator that occurs in a text occurs in one of
    its lines. *)
Lemma includes_line p :
  single_line p = true -> p <> "" ->
  forall lines, includes p (join LF lines) = true ->
    exists l, In l lines /\ includes p l = true.
Proof.
  intros Hp Hne. induction lines as [| x rest IH]; intros H.
  - destruct p; [contradiction Hne; reflexivity | discriminate H].
  - rewrite join_cons_tail in H. destruct rest as [| y rest'].
    + rewrite append_nil_r in H. exists x. split; [left; reflexivity | exact H].
    + rewrite includes_app_ends in H;
        [| exact Hp | exact Hne
         | right; exists (ascii_of_nat 10), (join LF (y :: rest'));
           split; reflexivity].
      apply orb_prop in H. destruct H as [H | H].
      * exists x. split; [left; reflexivity | exact H].
      * rewrite (includes_after_LF p _ Hp Hne) in H.
        destruct (IH H) as (l & Hl & Hi).
        exists l. split; [right; exact Hl | exact Hi].
Qed.

Lemma line_includes p l :
  forall lines, In l lines -> includes p l = true ->
    includes p (join LF lines) = true.
Proof.
  induction lines as [| x rest IH]; intros Hl Hi; [contradiction Hl |].
  rewrite join_cons_tail. destruct Hl as [-> | Hl].
  - apply includes_app_l. exact Hi.
  - apply includes_app_r. destruct rest as [| y rest']; [contradiction Hl |].
    apply includes_app_r. apply IH; assumption.
Qed.

(** X17.  The text written to the changelog always contains the heading
    [# Changelog], whatever the text found and whatever the entry: a
    changelog written once by the handler is spliced into by every later
    run, and the header is never written a second time. *)
Theorem changelog_keeps_heading (existing entry : string) :
  includes "# Changelog" (Release.newContent existing entry) = true.
Proof.
  unfold Release.newContent.
  destruct (includes "# Changelog" existing) eqn:Hinc; [| reflexivity].
  rewrite <- (join_split_LF existing) in Hinc.
  destruct (includes_line "# Changelog" eq_refl ltac:(discriminate) _ Hinc)
    as (l & Hl & Hi).
  match goal with
  | |- context [firstn ?c _] => set (cut := c)
  end.
  rewrite <- (firstn_skipn cut (split LF existing)) in Hl.
  apply in_app_or in Hl. destruct Hl as [Hl | Hl].
  - apply includes_app_l. exact (line_includes _ l _ Hl Hi).
  - do 4 apply includes_app_r. exact (line_includes _ l _ Hl Hi).
Qed.

Lemma split_go_line l :
  single_line l = true ->
  forall r cur,
    split_go LF (l +++ LF +++ r) 0 cur = (cur +++ l) :: split_go LF r 0 "".
Proof.
  induction l as [| c l IH]; intros Hl r cur.
  - cbn [String.append LF split_go String.length Nat.sub].
    replace (String.prefix LF (String (ascii_of_nat 10) r)) with true
      by (destruct r; reflexivity).
    rewrite append_nil_r. reflexivity.
  - cbn [single_line] in Hl. apply andb_prop in Hl. destruct Hl as [Hc Hl].
    cbn [String.append split_go]. unfold LF at 1. rewrite prefix_cons.
    destruct (Ascii.eqb (ascii_of_nat 10) c) eqn:E.
    + apply Ascii.eqb_eq in E. subst c. discriminate Hc.
    + cbn [andb]. rewrite (IH Hl), append_assoc. reflexivity.
Qed.

Lemma split_line l r :
  single_line l = true -> split LF (l +++ LF +++ r) = l :: split LF r.
Proof. intros Hl. unfold split. cbn [LF]. apply (split_go_line l Hl r ""). Qed.

Lemma split_blank r : split LF (LF +++ r) = "" :: split LF r.
Proof. exact (split_line "" r eq_refl). Qed.

Lemma join_line l r : join LF (l :: split LF r) = l +++ LF +++ r.
Proof.
  unfold split. cbn [LF]. rewrite join_cons by apply split_go_LF_nonempty.
  rewrite (join_split_go r ""). reflexivity.
Qed.

Lemma findHeaderEnd_skip line rest i :
  Changelog.is_body line = false ->
  Release.findHeaderEnd (line :: rest) i = Release.findHeaderEnd rest (S i).
Proof.
  unfold Changelog.is_body. intros H. cbn [Release.findHeaderEnd].
  rewrite <- andb_assoc, H, andb_false_r. reflexivity.
Qed.

Lemma findHeaderEnd_here line rest i :
  Changelog.is_body line = true ->
  Release.findHeaderEnd (line :: rest) (S i) = Some (S i).
Proof.
  unfold Changelog.is_body. intros H. cbn [Release.findHeaderEnd].
  rewrite <- andb_assoc, H. reflexivity.
Qed.

(** X18.  The handler does not find the end of the header it writes itself.
    In the changelog it has created, the header ends for it at the sentence
    under the heading: the second entry is put between the heading and that
    sentence.  From then on the header ends for it under the title of the
    newest entry: the third entry is put inside the second, between its
    title and its text. *)
Theorem changelog_own_header
  (w : World) (existing first third : string) (version : jsstring)
  (prInfo : Release.PRInfo) :
  includes heading existing = false ->
  single_line (show version) = true ->
  let created := Release.newContent existing first in
  let second := Release.changelogEntry w version prInfo in
  let title := "# V" +++ show version in
  created = heading +++ LF +++ LF +++ sentence +++ LF +++ LF
              +++ first +++ existing
  /\ Release.newContent created second
     = heading +++ LF +++ LF +++ LF +++ second
         +++ sentence +++ LF +++ LF +++ first +++ existing
  /\ exists text,
       second = title +++ LF +++ LF +++ text
       /\ Release.newContent (Release.newContent created second) third
          = heading +++ LF +++ LF +++ LF +++ title +++ LF +++ LF +++ LF
              +++ third +++ text
              +++ sentence +++ LF +++ LF +++ first +++ existing.
Proof.
  intros Hnew Hv created second title.
  assert (Hc : created = heading +++ LF +++ LF +++ sentence +++ LF +++ LF
                           +++ first +++ existing).
  { unfold created, Release.newContent, heading in *. rewrite Hnew.
    reflexivity. }
  assert (Hgen : forall entry tail,
    Release.newContent
      (heading +++ LF +++ LF +++ sentence +++ LF +++ tail) entry
    = heading +++ LF +++ LF +++ LF +++ entry +++ sentence +++ LF +++ tail).
  { intros entry tail. unfold Release.newContent.
    replace (includes "# Changelog"
               (heading +++ LF +++ LF +++ sentence +++ LF +++ tail))
      with true by reflexivity.
    rewrite (split_line heading) by reflexivity.
    rewrite split_blank.
    rewrite (split_line sentence) by reflexivity.
    rewrite findHeaderEnd_skip by reflexivity.
    rewrite findHeaderEnd_skip by reflexivity.
    rewrite findHeaderEnd_here by reflexivity.
    cbn [Nat.ltb Nat.leb firstn skipn].
    rewrite join_line. reflexivity. }
  split; [exact Hc | split].
  - rewrite Hc. rewrite (Hgen second (LF +++ first +++ existing)). reflexivity.
  - set (text := "This release includes:" +++ LF +++ LF +++
        Release.or_else (Release.body prInfo) "Release updates and improvements"
        +++ LF +++ LF +++ Release.seePR w (Release.url prInfo) +++ LF +++ LF
        +++ "---" +++ LF +++ LF).
    exists text.
    assert (Hs : second = title +++ LF +++ LF +++ text).
    { unfold second, Release.changelogEntry, title, text.
      rewrite !append_assoc. reflexivity. }
    split; [exact Hs |].
    rewrite Hc, (Hgen second (LF +++ first +++ existing)), Hs.
    set (rest := sentence +++ LF +++ LF +++ first +++ existing).
    unfold Release.newContent.
    replace (includes "# Changelog"
               (heading +++ LF +++ LF +++ LF +++
                (title +++ LF +++ LF +++ text) +++ rest))
      with true by reflexivity.
    assert (Ht : single_line title = true) by exact Hv.
    assert (Hlines :
      split LF (heading +++ LF +++ LF +++ LF +++
                (title +++ LF +++ LF +++ text) +++ rest)
      = heading :: "" :: "" :: title :: "" :: "This release includes:"
          :: split LF (LF +++
               Release.or_else (Release.body prInfo)
                 "Release updates and improvements"
               +++ LF +++ LF +++ Release.seePR w (Release.url prInfo)
               +++ LF +++ LF +++ "---" +++ LF +++ LF +++ rest)).
    { rewrite (split_line heading) by reflexivity.
      rewrite !split_blank.
      rewrite !append_assoc.
      rewrite (split_line title) by exact Ht.
      rewrite split_blank.
      unfold text. rewrite !append_assoc.
      rewrite (split_line "This release includes:") by reflexivity.
      rewrite <- ?split_blank. reflexivity. }
    rewrite Hlines.
    rewrite findHeaderEnd_skip by reflexivity.
    rewrite findHeaderEnd_skip by reflexivity.
    rewrite findHeaderEnd_skip by reflexivity.
    rewrite findHeaderEnd_skip
      by (unfold Changelog.is_body, title; cbn [String.append startsWith];
          rewrite prefix_cons; cbn; apply andb_false_r).
    rewrite findHeaderEnd_skip by reflexivity.
    rewrite findHeaderEnd_here by reflexivity.
    cbn [Nat.ltb Nat.leb firstn skipn].
    rewrite join_line.
    unfold text. cbn [join]. rewrite !append_assoc. reflexivity.
Qed.

Lemma changelog_own_header_witness :
  let w := Scenario.calm Scenario.release_1_2_0 false in
  let i := {| Release.body := "Notes"; Release.url := "" |} in
  let created := Release.newContent "" "# V1.0.0" in
  let second := Release.changelogEntry w (JStr "1.1.0") i in
  exists text,
    second = "# V1.1.0" +++ LF +++ LF +++ text
    /\ Release.newContent (Release.newContent created second) "# V1.2.0"
       = ChangelogHeader.heading +++ LF +++ LF +++ LF +++ "# V1.1.0"
           +++ LF +++ LF +++ LF +++ "# V1.2.0" +++ text
           +++ ChangelogHeader.sentence +++ LF +++ LF +++ "# V1.0.0".
Proof.
  exact (proj2 (proj2 (changelog_own_header
                         (Scenario.calm Scenario.release_1_2_0 false)
                         "" "# V1.0.0" "# V1.2.0" (JStr "1.1.0")
                         {| Release.body := "Notes"; Release.url := "" |}
                         eq_refl eq_refl))).
Defined.
End ChangelogFacts.

(* ================================================================== *)
(** * More about the platform descriptor *)
(* ================================================================== *)

Section DescriptorAgain.
Import Descriptor.

Lemma single_line_app a b :
  single_line a = true -> single_line b = true -> single_line (a +++ b) = true.
Proof.
  induction a as [| c a IH]; intros Ha Hb; [exact Hb |].
  cbn [single_line String.append] in *. apply andb_prop in Ha.
  destruct Ha as [Hc Ha]. rewrite Hc. cbn [andb]. exact (IH Ha Hb).
Qed.

(** A line written by the patch is well formed when the version is a
    single line with something in it. *)
Lemma version_line_well_formed v :
  single_line v = true -> trimStart v <> "" ->
  well_formed ("version: " +++ v) = true.
Proof.
  intros Hv Hne. unfold well_formed.
  rewrite (single_line_app "version: " v eq_refl Hv). cbn [andb].
  apply orb_true_iff. right. unfold has_value.
  apply negb_true_iff, String.eqb_neq.
  change (drop 8 ("version: " +++ v)) with (String " " v).
  exact Hne.
Qed.

Lemma patch_every_well_formed lines v :
  single_line v = true -> trimStart v <> "" ->
  forallb well_formed lines = true ->
  forallb well_formed (patch_every lines v) = true.
Proof.
  intros Hv Hne. induction lines as [| l rest IH]; intros H; [reflexivity |].
  cbn [forallb] in H. apply andb_prop in H. destruct H as [Hl Hr].
  cbn [patch_every map forallb]. fold (patch_every rest v).
  rewrite (IH Hr), andb_true_r.
  destruct (is_version_line l); [apply version_line_well_formed | exact Hl];
    assumption.
Qed.

Lemma patch_every_twice lines v1 v2 :
  patch_every (patch_every lines v1) v2 = patch_every lines v2.
Proof.
  unfold patch_every. rewrite map_map. apply map_ext. intros l.
  destruct (is_version_line l) eqn:E; [reflexivity | rewrite E; reflexivity].
Qed.

Lemma patch_lines lines v :
  includes "$" v = false -> forallb well_formed lines = true ->
  updateMtaYamlVersion (join LF lines) (JStr v)
  = join LF (patch_every lines v).
Proof.
  intros Hv Hl. unfold updateMtaYamlVersion, replace_global. cbn [show].
  apply (G_lines ("version: " +++ v) (includes_dollar_version v Hv) lines
           "" None eq_refl Hl).
Qed.

(** X19.  Patching the descriptor twice is patching it with the second
    version: in a text of well-formed lines, for versions without [$], the
    first of them a single line that is not blank, the version written by
    the first patch is replaced by the second and nothing else changes.  In
    particular patching twice with the same version is patching once. *)
Theorem descriptor_patch_last_wins (lines : list string) (v1 v2 : string) :
  includes "$" v1 = false -> includes "$" v2 = false ->
  single_line v1 = true -> trimStart v1 <> "" ->
  forallb well_formed lines = true ->
  updateMtaYamlVersion
    (updateMtaYamlVersion (join LF lines) (JStr v1)) (JStr v2)
  = updateMtaYamlVersion (join LF lines) (JStr v2).
Proof.
  intros H1 H2 Hs Hne Hl.
  rewrite (patch_lines lines v1 H1 Hl).
  rewrite (patch_lines _ v2 H2 (patch_every_well_formed lines v1 Hs Hne Hl)).
  rewrite patch_every_twice. symmetry. exact (patch_lines lines v2 H2 Hl).
Qed.

Lemma descriptor_patch_last_wins_witness :
  updateMtaYamlVersion
    (updateMtaYamlVersion (join LF Descriptor.descriptor) (JStr "2.0.0"))
    (JStr "2.0.1")
  = updateMtaYamlVersion (join LF Descriptor.descriptor) (JStr "2.0.1").
Proof.
  refine (descriptor_patch_last_wins Descriptor.descriptor "2.0.0" "2.0.1"
            eq_refl eq_refl eq_refl _ eq_refl).
  discriminate.
Defined.
End DescriptorAgain.
(* ================================================================== *)
(** * Base64 *)
(* ================================================================== *)

Ltac div_lia := zify; Z.to_euclidean_division_equations; lia.

Section Base64Facts.
Import Base64.

Lemma string3_ind (P : string -> Prop) :
  P "" ->
  (forall a, P (String a "")) ->
  (forall a b, P (String a (String b ""))) ->
  (forall a b c r, P r -> P (String a (String b (String c r)))) ->
  forall s, P s.
Proof.
  intros H0 H1 H2 H3.
  assert (H : forall s, P s /\ (forall a, P (String a s))
                        /\ (forall a b, P (String a (String b s)))).
  { induction s as [| c s (IH0 & IH1 & IH2)].
    - repeat split; auto.
    - repeat split; auto. }
  intros s. apply H.
Qed.

Lemma code_bound a : code a < 256.
Proof. apply nat_ascii_bounded. Qed.

Lemma byte_code a : byte (code a) = a.
Proof. apply ascii_nat_embedding. Qed.

Lemma value_digit n : n < 64 -> value (digit n) = Some n.
Proof.
  intros H.
  do 64 (destruct n as [| n]; [reflexivity |]). lia.
Qed.

Lemma digit_plain n :
  n < 64 -> is_ascii_whitespace (digit n) = false /\ digit n <> "="%char.
Proof.
  intros H.
  do 64 (destruct n as [| n]; [split; [reflexivity | discriminate] |]). lia.
Qed.

Lemma sextets_bound s : Forall (fun n => n < 64) (sextets s).
Proof.
  induction s as [| a | a b | a b c r IH] using string3_ind;
    cbn [sextets];
    repeat (apply Forall_cons; [| try apply Forall_nil]);
    try apply Forall_nil; try exact IH;
    pose proof (code_bound a);
    try pose proof (code_bound b); try pose proof (code_bound c);
    div_lia.
Qed.

(** The sextets of a text give its bytes back. *)
Lemma bytes_sextets s : bytes (sextets s) = s.
Proof.
  induction s as [| a | a b | a b c r IH] using string3_ind;
    cbn [sextets bytes]; try reflexivity;
    pose proof (code_bound a);
    try pose proof (code_bound b); try pose proof (code_bound c).
  - replace (code a / 4 * 4 + code a mod 4 * 16 / 16) with (code a)
      by div_lia.
    rewrite byte_code. reflexivity.
  - replace (code a / 4 * 4 + (code a mod 4 * 16 + code b / 16) / 16)
      with (code a) by div_lia.
    replace ((code a mod 4 * 16 + code b / 16) mod 16 * 16
             + code b mod 16 * 4 / 4) with (code b) by div_lia.
    rewrite !byte_code. reflexivity.
  - replace (code a / 4 * 4 + (code a mod 4 * 16 + code b / 16) / 16)
      with (code a) by div_lia.
    replace ((code a mod 4 * 16 + code b / 16) mod 16 * 16
             + (code b mod 16 * 4 + code c / 64) / 4) with (code b)
      by div_lia.
    replace ((code b mod 16 * 4 + code c / 64) mod 4 * 64 + code c mod 64)
      with (code c) by div_lia.
    rewrite !byte_code, IH. reflexivity.
Qed.

Lemma values_digits vs :
  Forall (fun n => n < 64) vs ->
  values (string_of_list_ascii (map digit vs)) = Some vs.
Proof.
  induction 1 as [| n vs Hn _ IH]; [reflexivity |].
  cbn [map string_of_list_ascii values].
  rewrite (value_digit n Hn), IH. reflexivity.
Qed.

Lemma strip_digits vs :
  Forall (fun n => n < 64) vs ->
  forall pad, strip pad = pad ->
    strip (string_of_list_ascii (map digit vs) +++ pad)
    = string_of_list_ascii (map digit vs) +++ pad.
Proof.
  induction 1 as [| n vs Hn _ IH]; intros pad Hp; [exact Hp |].
  cbn [map string_of_list_ascii String.append strip].
  rewrite (proj1 (digit_plain n Hn)), (IH pad Hp). reflexivity.
Qed.

Lemma length_digits vs :
  String.length (string_of_list_ascii (map digit vs)) = List.length vs.
Proof.
  induction vs as [| n vs IH]; [reflexivity |].
  cbn [map string_of_list_ascii String.length List.length]. rewrite IH.
  reflexivity.
Qed.

(** How many sextets and how much padding a text has. *)
Lemma sextets_length s :
  exists k,
    match String.length s mod 3 with
    | 0 => List.length (sextets s) = 4 * k
    | 1 => List.length (sextets s) = 4 * k + 2
    | _ => List.length (sextets s) = 4 * k + 3
    end.
Proof.
  induction s as [| a | a b | a b c r (k & IH)] using string3_ind.
  - exists 0. reflexivity.
  - exists 0. reflexivity.
  - exists 0. reflexivity.
  - exists (S k). cbn [sextets List.length String.length].
    replace (S (S (S (String.length r))) mod 3) with (String.length r mod 3)
      by div_lia.
    destruct (String.length r mod 3) as [| [| m]]; lia.
Qed.

Lemma unpad_digits vs :
  Forall (fun n => n < 64) vs ->
  forall pad, pad = "" \/ pad = "=" \/ pad = "==" ->
    unpad (string_of_list_ascii (map digit vs) +++ pad)
    = string_of_list_ascii (map digit vs).
Proof.
  induction 1 as [| n vs Hn _ IH]; intros pad Hp.
  - destruct Hp as [-> | [-> | ->]]; reflexivity.
  - cbn [map string_of_list_ascii String.append].
    pose proof (proj2 (digit_plain n Hn)) as Hd.
    specialize (IH pad Hp).
    remember (string_of_list_ascii (map digit vs) +++ pad) as rest.
    remember (digit n) as c.
    assert (E : unpad (String c rest) = String c (unpad rest)).
    { destruct c as [[] [] [] [] [] [] [] []]; try reflexivity.
      contradiction Hd. reflexivity. }
    rewrite E, IH. reflexivity.
Qed.

(** What [encode] writes, [atob] reads back, also when white space has
    been put into it. *)
Lemma atob_encode data s : strip data = encode s -> atob data = inr s.
Proof.
  intros Hd. unfold atob. rewrite Hd. unfold encode, padding.
  pose proof (sextets_bound s) as Hb.
  destruct (sextets_length s) as (k & Hk).
  assert (Hlt : String.length s mod 3 < 3)
    by (apply Nat.mod_upper_bound; discriminate).
  assert (Hlen : forall pad,
    String.length (string_of_list_ascii (map digit (sextets s)) +++ pad)
    = List.length (sextets s) + String.length pad).
  { intros pad. rewrite length_app, length_digits. reflexivity. }
  assert (Hmod : (String.length
            (string_of_list_ascii (map digit (sextets s)) +++
             match String.length s mod 3 with
             | 1 => "==" | 2 => "=" | _ => "" end) mod 4 =? 0)%nat = true).
  { rewrite Hlen. apply Nat.eqb_eq.
    destruct (String.length s mod 3) as [| [| [| m]]];
      cbn [String.length]; div_lia. }
  rewrite Hmod, unpad_digits;
    [| exact Hb
     | destruct (String.length s mod 3) as [| [| [| m]]]; auto; lia].
  rewrite length_digits.
  assert (H1 : (List.length (sextets s) mod 4 =? 1)%nat = false).
  { apply Nat.eqb_neq.
    destruct (String.length s mod 3) as [| [| m]]; div_lia. }
  rewrite H1, (values_digits _ Hb), bytes_sextets. reflexivity.
Qed.

Lemma latin1_units_of s : latin1 (units_of s) = Some s.
Proof.
  unfold units_of. induction s as [| c s IH]; [reflexivity |].
  cbn [list_ascii_of_string map latin1].
  pose proof (code_bound c) as Hc. apply Nat.ltb_lt in Hc. rewrite Hc, IH.
  unfold code. rewrite ascii_nat_embedding. reflexivity.
Qed.

Lemma latin1_above u n : In n u -> 255 < n -> latin1 u = None.
Proof.
  induction u as [| m u IH]; intros Hin Hn; [contradiction Hin |].
  cbn [latin1]. destruct (m <? 256)%nat eqn:Hm; [| reflexivity].
  destruct Hin as [-> | Hin]; [apply Nat.ltb_lt in Hm; lia |].
  rewrite (IH Hin Hn). reflexivity.
Qed.
End Base64Facts.

(* ================================================================== *)
(** * The gateway as implemented *)
(* ================================================================== *)

Section ServiceFacts.
Import GitHubService Base64.

(** X20.  What [updateFile] asks of the platform.  A content with a code
    unit above 255 cannot be encoded: no request is made, the error of
    [btoa] is logged as an error of the update, and raised.  A content
    whose code units are the bytes [text] goes out in one request, as the
    Base64 text of these bytes, on the given path and branch with the
    given message and blob identifier; then the success is logged, or
    what the request raised is logged and raised. *)
Theorem updateFile_outcomes
  (cl : Client) (filePath : string) (content : list nat)
  (message branch sha : string) (sv sv0 : service) (instance : octokit) :
  let owner := ctx_repo_owner (cl_context cl) in
  let repo := ctx_repo_repo (cl_context cl) in
  getOctokitInstance cl sv = (instance, sv0) ->
  ((exists n, In n content /\ 255 < n) ->
   updateFile cl filePath content message branch sha sv
   = (logged (CInfo ("Error updating file " +++ filePath +++ ": "
                       +++ error_to_string notLatin1)) sv0,
      inl notLatin1))
  /\ (forall text, content = units_of text ->
       let sent := encode text in
       let r :=
         cl_createOrUpdateFileContents cl instance (sv_log sv0) owner repo
           filePath message sent branch sha in
       let sv1 :=
         logged (CCreateOrUpdateFileContents owner repo filePath message sent
                   branch sha r) sv0 in
       updateFile cl filePath content message branch sha sv
       = match r with
         | inr _ =>
             (logged (CInfo ("Successfully updated " +++ filePath)) sv1,
              inr tt)
         | inl e =>
             (logged (CInfo ("Error updating file " +++ filePath +++ ": "
                               +++ error_to_string e)) sv1,
              inl e)
         end).
Proof.
  intros owner repo Hi. split.
  - intros (n & Hin & Hn). unfold updateFile, btoa.
    rewrite Hi, (latin1_above content n Hin Hn). reflexivity.
  - intros text -> sent r sv1. unfold updateFile, btoa.
    rewrite Hi, latin1_units_of. fold owner. fold repo. fold sent. fold r.
    fold sv1. destruct r as [e | []]; reflexivity.
Qed.

Lemma updateFile_outcomes_witness :
  let cl := ScenarioService.store in
  let text := "{ name: demo, version: 1.2.0 }" in
  GitHubService.updateFile cl "package.json" (Base64.units_of text ++ [960])
    "bump" "release/1.2.0" "blob" GitHubService.fresh
  = (GitHubService.MkService (Some (GitHubService.Octokit "secret"))
       [GitHubService.CInfo
          "Error updating file package.json: InvalidCharacterError: Invalid character"],
     inl Base64.notLatin1)
  /\ GitHubService.sv_log
       (fst (GitHubService.updateFile cl "package.json" (Base64.units_of text)
               "bump" "release/1.2.0" "blob" GitHubService.fresh))
     = [GitHubService.CCreateOrUpdateFileContents "o" "r" "package.json"
          "bump" "eyBuYW1lOiBkZW1vLCB2ZXJzaW9uOiAxLjIuMCB9" "release/1.2.0"
          "blob" (inr tt);
        GitHubService.CInfo "Successfully updated package.json"].
Proof.
  intros cl text. split.
  - apply (proj1 (updateFile_outcomes cl "package.json"
                    (Base64.units_of text ++ [960]) "bump" "release/1.2.0"
                    "blob" GitHubService.fresh
                    (GitHubService.MkService
                       (Some (GitHubService.Octokit "secret")) [])
                    (GitHubService.Octokit "secret") eq_refl)).
    exists 960. split; [apply in_or_app; right; left; reflexivity | lia].
  - rewrite (proj2 (updateFile_outcomes cl "package.json"
                      (Base64.units_of text) "bump" "release/1.2.0" "blob"
                      GitHubService.fresh
                      (GitHubService.MkService
                         (Some (GitHubService.Octokit "secret")) [])
                      (GitHubService.Octokit "secret") eq_refl)
               text eq_refl).
    reflexivity.
Defined.

Lemma digit_not_slash c : Version.is_digit c = true -> Ascii.eqb "/" c = false.
Proof.
  destruct c as [[] [] [] [] [] [] [] []]; intros H;
    try discriminate H; reflexivity.
Qed.

Lemma digit_not_r c : Version.is_digit c = true -> Ascii.eqb "r" c = false.
Proof.
  destruct c as [[] [] [] [] [] [] [] []]; intros H;
    try discriminate H; reflexivity.
Qed.

Lemma digits_merge_no_pull n :
  Naming.all_digits n = true ->
  includes "refs/pull/" (n +++ "/merge") = false.
Proof.
  induction n as [| c n IH]; intros H; [reflexivity |].
  cbn [Naming.all_digits] in H. apply andb_prop in H. destruct H as [Hc Hn].
  cbn [String.append includes]. rewrite prefix_cons, (digit_not_r c Hc).
  cbn [andb orb]. exact (IH Hn).
Qed.

Lemma replace_merge_suffix n :
  Naming.all_digits n = true ->
  forall before, replace_str_go "/merge" "" before (n +++ "/merge") = n.
Proof.
  induction n as [| c n IH]; intros H before; [reflexivity |].
  cbn [Naming.all_digits] in H. apply andb_prop in H. destruct H as [Hc Hn].
  cbn [String.append replace_str_go]. rewrite prefix_cons, (digit_not_slash c Hc).
  cbn [andb]. rewrite (IH Hn). reflexivity.
Qed.

(** The number of the pull request, read off the reference of the run. *)
Lemma pullRequestOf_merge_ref n :
  Naming.all_digits n = true ->
  pullRequestOf ("refs/pull/" +++ n +++ "/merge") = n.
Proof.
  intros H. unfold pullRequestOf.
  rewrite (join_split_front "refs/pull/" (n +++ "/merge")
             (or_intror (digits_merge_no_pull n H))).
  apply (replace_merge_suffix n H).
Qed.

(** X21.  The branches of the pull request of the run.  When the reference
    of the run is [refs/pull/N/merge] for a number [N], the service asks
    for the pull request [N] of the repository of the run, once; what that
    request raises is raised, and otherwise the current and the target
    branch are the head and the base of that pull request, and the main
    and the development branch are the inputs [master_branch] and
    [development_branch]. *)
Theorem getBranches_reads_pull_request
  (cl : Client) (sv sv0 : service) (instance : octokit) (n : string) :
  let owner := ctx_repo_owner (cl_context cl) in
  let repo := ctx_repo_repo (cl_context cl) in
  let r := cl_pullsGet cl instance (sv_log sv0) owner repo n in
  Naming.all_digits n = true ->
  ctx_ref (cl_context cl) = "refs/pull/" +++ n +++ "/merge" ->
  getOctokitInstance cl sv = (instance, sv0) ->
  getBranches cl sv
  = (logged (CPullsGet owner repo n r) sv0,
     match r with
     | inl e => inl e
     | inr (head, base) =>
         inr {| current := head;
                target := base;
                main := cl_getInput cl "master_branch";
                development := cl_getInput cl "development_branch" |}
     end).
Proof.
  intros owner repo r Hn Href Hi.
  unfold getBranches, getCurrentBranchName, getPullRequestHeadBranch.
  rewrite Href, (pullRequestOf_merge_ref n Hn), Hi.
  fold owner. fold repo. fold r.
  destruct r as [e | [head base]]; reflexivity.
Qed.

Lemma getBranches_reads_pull_request_witness :
  snd (GitHubService.getBranches ScenarioService.store GitHubService.fresh)
  = inr {| current := "release/1.2.0";
           target := "main";
           main := "main";
           development := "develop" |}.
Proof.
  rewrite (getBranches_reads_pull_request ScenarioService.store
             GitHubService.fresh
             (GitHubService.MkService (Some (GitHubService.Octokit "secret")) [])
             (GitHubService.Octokit "secret") "42" eq_refl eq_refl eq_refl).
  reflexivity.
Defined.

(** X22.  A file that cannot be read.  Whenever [getFileContent] raises, it
    has made the one request for the content and logged the error, which
    is what the request raised, or the notice that the path is not a file
    when the response has no content, or what decoding the content
    raised. *)
Theorem getFileContent_failures
  (cl : Client) (filePath branch : string) (sv sv' : service) (e : error) :
  let owner := ctx_repo_owner (cl_context cl) in
  let repo := ctx_repo_repo (cl_context cl) in
  getFileContent cl filePath branch sv = (sv', inl e) ->
  exists r,
    sv_log sv'
    = sv_log sv ++
      [CGetContent owner repo filePath branch r;
       CInfo ("Error getting file content for " +++ filePath +++ ": "
                +++ error_to_string e)]
    /\ (r = inl e
        \/ (r = inr None /\ e = notAFile filePath)
        \/ exists content, r = inr (Some content) /\ atob content = inl e).
Proof.
  intros owner repo. unfold getFileContent.
  assert (Hlog : sv_log (snd (getOctokitInstance cl sv)) = sv_log sv).
  { unfold getOctokitInstance. destruct (octokitInstance sv); reflexivity. }
  destruct (getOctokitInstance cl sv) as [instance sv0].
  cbn [snd] in Hlog. fold owner. fold repo.
  destruct (cl_getContent cl instance (sv_log sv0) owner repo filePath branch)
    as [e' | [content |]] eqn:Hc.
  - intros H. injection H as <- <-. exists (inl e').
    cbn [logged sv_log]. rewrite Hlog, <- app_assoc.
    split; [reflexivity | left; reflexivity].
  - destruct (atob content) as [e' | text] eqn:Ha; intros H;
      [| discriminate H].
    injection H as <- <-. exists (inr (Some content)).
    cbn [logged sv_log]. rewrite Hlog, <- app_assoc.
    split; [reflexivity |]. right. right. exists content.
    split; [reflexivity | exact Ha].
  - intros H. injection H as <- <-. exists (inr None).
    cbn [logged sv_log]. rewrite Hlog, <- app_assoc.
    split; [reflexivity |]. right. left. split; reflexivity.
Qed.

Lemma getFileContent_failures_witness :
  exists r,
    GitHubService.sv_log
      (fst (GitHubService.getFileContent ScenarioService.store "mta.yaml"
              "release/1.2.0" GitHubService.fresh))
    = [GitHubService.CGetContent "o" "r" "mta.yaml" "release/1.2.0" r;
       GitHubService.CInfo
         "Error getting file content for mta.yaml: HttpError: Not Found"]
    /\ (r = inl (MkError "HttpError" "Not Found")
        \/ (r = inr None
            /\ MkError "HttpError" "Not Found"
               = GitHubService.notAFile "mta.yaml")
        \/ exists content,
             r = inr (Some content)
             /\ Base64.atob content = inl (MkError "HttpError" "Not Found")).
Proof.
  exact (getFileContent_failures ScenarioService.store "mta.yaml"
           "release/1.2.0" GitHubService.fresh _
           (MkError "HttpError" "Not Found") eq_refl).
Defined.



End ServiceFacts.
